(** * HOS compliance engine (backend/core_utils/hos_compliance.py)

    The Hours-of-Service rule engine of the trucklog backend as Rocq
    functions, and the properties of its specification checked against
    them.

    Conventions

    - [datetime] and [timedelta] are integers counting microseconds, the
      resolution of Python's [datetime] module, a [datetime] from
      1970-01-01; all timestamps are taken in one time zone.  The
      arithmetic on them is that of the integers: Python's calendar ends
      at [datetime_min] and [datetime_max], and the engine's three
      computed dates, [current_time - timedelta(days=cycle_days)],
      [current_time - timedelta(hours=14)] and
      [current_time + timedelta(hours=1)], raise [OverflowError] beyond
      them.  [representable] says that a date lies within them: it is the
      hypothesis under which a result promised here is the one Python
      computes.
    - A Python [float] is an IEEE-754 binary64 number ([spec_float] of the
      standard library, precision 53); [repr] of a float is the shortest
      digit string that reads back as the same float.
    - A [Decimal] is a coefficient and a power of ten, compared
      numerically.  The sums and the product the engine computes
      ([Decimal_add], [Decimal_mul]) are rounded half-even to the 28
      significant digits of CPython's default context.  The two
      differences it takes, [cycle_hours - hours_used] and
      [100.00 - penalty], are exact ([dec_sub]): an elapsed-hours value has
      at most 26 fractional digits, so that a difference below 100 hours
      has at most 28 digits and is not rounded.  [dec_add] is the exact
      sum, used to state properties.
    - The rule registry of an engine holds rule configurations as values,
      each dictionary an object of its own, as [_load_default_rules]
      creates them.  In Python a caller may register one dictionary under
      two ids, and an update through either id then shows under both: the
      registry of [Shared] keeps the dictionaries in a store and has this
      sharing; the two registries agree as long as no dictionary is
      registered twice.
    - Python exceptions are the [Raise] results of the [result] monad.
    - The free-text descriptions of violations and the float-valued
      analytics are not represented; the exceptions their computation can
      raise are. *)

From Stdlib Require Import ZArith QArith List Bool String Ascii Lia Permutation Sorted.
From Stdlib Require Import Floats.SpecFloat.
Import ListNotations.

Local Open Scope Z_scope.
Local Open Scope bool_scope.

(** ** Exceptions *)

Inductive exn : Type :=
| TypeError
| ZeroDivisionError
| KeyError
| OverflowError.

Inductive result (A : Type) : Type :=
| Ok (a : A)
| Raise (e : exn).

Arguments Ok {A} a.
Arguments Raise {A} e.

Definition bind {A B : Type} (c : result A) (k : A -> result B) : result B :=
  match c with
  | Ok a => k a
  | Raise e => Raise e
  end.

Notation "x <- c ;; k" := (bind c (fun x => k))
  (at level 61, c at next level, right associativity).

Definition returns {A : Type} (c : result A) : bool :=
  match c with
  | Ok _ => true
  | Raise _ => false
  end.

(** ** Time *)

Definition datetime : Type := Z.
Definition timedelta : Type := Z.

(** [datetime.min] and [datetime.max], the first microsecond of year 1 and
    the last of year 9999, counted from 1970-01-01 like every [datetime]
    here. *)
Definition datetime_min : datetime := -62135596800000000.
Definition datetime_max : datetime := 253402300799999999.

Definition us_per_second : Z := 1000000.
Definition us_per_minute : Z := 60000000.
Definition us_per_hour : Z := 3600000000.
Definition us_per_day : Z := 86400000000.

Definition timedelta_hours (h : Z) : timedelta := h * us_per_hour.
Definition timedelta_minutes (m : Z) : timedelta := m * us_per_minute.
Definition timedelta_days (d : Z) : timedelta := d * us_per_day.

(** [timedelta.days]: the normalised day count, rounded towards minus
    infinity. *)
Definition td_days (td : timedelta) : Z := td / us_per_day.

(** ** Binary64 floats *)

Definition prec64 : Z := 53.
Definition emax64 : Z := 1024.

(** [int / int] (true division): the float nearest to the quotient. *)
Definition b64_of_ratio (n : Z) (d : positive) : spec_float :=
  match n with
  | Z0 => S754_zero false
  | Zpos p => SFdiv prec64 emax64 (S754_finite false p 0) (S754_finite false d 0)
  | Zneg p => SFdiv prec64 emax64 (S754_finite true p 0) (S754_finite false d 0)
  end.

Definition b64_of_Z (z : Z) : spec_float := binary_normalize prec64 emax64 z 0 false.

Definition b64_div : spec_float -> spec_float -> spec_float := SFdiv prec64 emax64.
Definition b64_mul : spec_float -> spec_float -> spec_float := SFmul prec64 emax64.

(** The exact value of a finite float [m * 2^e], as a fraction. *)
Definition b64_ratio (m : positive) (e : Z) : Z * Z :=
  if 0 <=? e then (Zpos m * 2 ^ e, 1) else (Zpos m, 2 ^ (- e)).

Definition sf_same (x y : spec_float) : bool :=
  match x, y with
  | S754_finite s1 m1 e1, S754_finite s2 m2 e2 =>
      Bool.eqb s1 s2 && Pos.eqb m1 m2 && Z.eqb e1 e2
  | S754_zero s1, S754_zero s2 => Bool.eqb s1 s2
  | _, _ => false
  end.

(** *** [repr]: the shortest digits that round-trip *)

Definition pow10_le (E n d : Z) : bool :=
  if 0 <=? E then (10 ^ E * d <=? n) else (d <=? n * 10 ^ (- E)).

Fixpoint ilog10_search (fuel : nat) (E n d : Z) : Z :=
  match fuel with
  | O => E
  | S f => if pow10_le E n d then E else ilog10_search f (E - 1) n d
  end.

(** [floor (log10 (n / d))] for positive [n] and [d]. *)
Definition ilog10 (n d : Z) : Z :=
  let l := Z.log2 n - Z.log2 d in
  ilog10_search 8 ((l * 30103) / 100000 + 2) n d.

(** [float("c e q")]: the float nearest to [c * 10^q]. *)
Definition b64_of_decimal (c q : Z) : spec_float :=
  if 0 <=? q then b64_of_ratio (c * 10 ^ q) 1
  else b64_of_ratio c (Z.to_pos (10 ^ (- q))).

(** The [k]-digit decimals on both sides of [n / d]; one is returned when it
    reads back as [x], the nearer one (the even one at a tie) when both do. *)
Definition repr_try (x : spec_float) (n d E k : Z) : option (Z * Z) :=
  let q := E - (k - 1) in
  let num := if 0 <=? q then n else n * 10 ^ (- q) in
  let den := if 0 <=? q then d * 10 ^ q else d in
  let lo := num / den in
  let r := num mod den in
  let hi := lo + 1 in
  let lo_ok := sf_same (b64_of_decimal lo q) x in
  let hi_ok := sf_same (b64_of_decimal hi q) x in
  if r =? 0 then Some (lo, q)
  else if lo_ok && hi_ok then
    match 2 * r ?= den with
    | Lt => Some (lo, q)
    | Gt => Some (hi, q)
    | Eq => if Z.even lo then Some (lo, q) else Some (hi, q)
    end
  else if lo_ok then Some (lo, q)
  else if hi_ok then Some (hi, q)
  else None.

Fixpoint repr_search (fuel : nat) (x : spec_float) (n d E k : Z) : Z * Z :=
  match fuel with
  | O => (0, 0)
  | S f =>
      match repr_try x n d E k with
      | Some r => r
      | None => repr_search f x n d E (k + 1)
      end
  end.

Fixpoint strip_zeros (fuel : nat) (c q : Z) : Z * Z :=
  match fuel with
  | O => (c, q)
  | S f =>
      if (c mod 10 =? 0) && negb (c =? 0) then strip_zeros f (c / 10) (q + 1)
      else (c, q)
  end.

(** Digits [c] and exponent [q] of [repr (m * 2^e)]: the value printed is
    [c * 10^q], with at most 17 digits. *)
Definition shortest_digits (m : positive) (e : Z) : Z * Z :=
  let '(n, d) := b64_ratio m e in
  let E := ilog10 n d in
  let '(c, q) := repr_search 17 (S754_finite false m e) n d E 1 in
  strip_zeros 400 c q.

Fixpoint ndigits_aux (fuel : nat) (c : Z) : Z :=
  match fuel with
  | O => 0
  | S f => if c <? 10 then 1 else 1 + ndigits_aux f (c / 10)
  end.

Definition ndigits (c : Z) : Z := ndigits_aux 400 c.

(** ** Decimals *)

Record Decimal : Type := mkDec { dcoef : Z; dexp : Z }.

(** [Decimal(str(x))] for the digits of [repr x].  [repr] prints in
    exponent notation when the decimal point lies left of the fourth
    leading zero or right of the sixteenth digit, and otherwise in
    positional notation with at least one fractional digit. *)
Definition decimal_of_digits (neg : bool) (c q : Z) : Decimal :=
  let decpt := ndigits c + q in
  let sgn := if neg then -1 else 1 in
  if (decpt <=? -4) || (16 <? decpt) then mkDec (sgn * c) q
  else if 0 <=? q then mkDec (sgn * c * 10 ^ (q + 1)) (-1)
  else mkDec (sgn * c) q.

(** Infinities and NaN do not arise from the quotients taken here; they are
    sent to zero to keep the conversion total. *)
Definition Decimal_of_float (x : spec_float) : Decimal :=
  match x with
  | S754_zero _ => mkDec 0 (-1)
  | S754_finite s m e => let '(c, q) := shortest_digits m e in decimal_of_digits s c q
  | _ => mkDec 0 0
  end.

(** [float(d)] *)
Definition float_of_Decimal (d : Decimal) : spec_float :=
  b64_of_decimal (dcoef d) (dexp d).

Definition Decimal_of_int (z : Z) : Decimal := mkDec z 0.

Definition dec_add (a b : Decimal) : Decimal :=
  let m := Z.min (dexp a) (dexp b) in
  mkDec (dcoef a * 10 ^ (dexp a - m) + dcoef b * 10 ^ (dexp b - m)) m.

Definition dec_sub (a b : Decimal) : Decimal :=
  let m := Z.min (dexp a) (dexp b) in
  mkDec (dcoef a * 10 ^ (dexp a - m) - dcoef b * 10 ^ (dexp b - m)) m.

(** Numeric comparison; [Decimal('1.0') == Decimal('1.00')]. *)
Definition dec_compare (a b : Decimal) : comparison :=
  let m := Z.min (dexp a) (dexp b) in
  (dcoef a * 10 ^ (dexp a - m)) ?= (dcoef b * 10 ^ (dexp b - m)).

Definition dec_eqb (a b : Decimal) : bool :=
  match dec_compare a b with Eq => true | _ => false end.
Definition dec_ltb (a b : Decimal) : bool :=
  match dec_compare a b with Lt => true | _ => false end.
Definition dec_leb (a b : Decimal) : bool :=
  match dec_compare a b with Gt => false | _ => true end.
Definition dec_gtb (a b : Decimal) : bool := dec_ltb b a.
Definition dec_geb (a b : Decimal) : bool := dec_leb b a.

Definition dec_max (a b : Decimal) : Decimal := if dec_gtb b a then b else a.

(** A decimal with exactly two fractional digits, as [Decimal('0.00')]. *)
Definition cents (c : Z) : Decimal := mkDec c (-2).

(** The decimal is a whole number of hundredths. *)
Definition is_hundredths (d : Decimal) : bool :=
  if -2 <=? dexp d then true else dcoef d mod 10 ^ (- 2 - dexp d) =? 0.

(** ** Python numbers held by the rule parameters

    An [int], or a finite [float] given by its exact value. *)

Inductive pynum : Type :=
| PyInt (z : Z)
| PyFloat (q : Q).

(** Comparison of a decimal with an [int] or a [float] is exact. *)
Definition dec_compare_num (a : Decimal) (p : pynum) : comparison :=
  match p with
  | PyInt z => dec_compare a (Decimal_of_int z)
  | PyFloat q =>
      if 0 <=? dexp a
      then (dcoef a * 10 ^ dexp a * Zpos (Qden q)) ?= Qnum q
      else (dcoef a * Zpos (Qden q)) ?= (Qnum q * 10 ^ (- dexp a))
  end.

Definition dec_gt_num (a : Decimal) (p : pynum) : bool :=
  match dec_compare_num a p with Gt => true | _ => false end.
Definition dec_lt_num (a : Decimal) (p : pynum) : bool :=
  match dec_compare_num a p with Lt => true | _ => false end.
Definition dec_ge_num (a : Decimal) (p : pynum) : bool :=
  match dec_compare_num a p with Lt => false | _ => true end.

(** [Decimal - int] is a decimal; [Decimal - float] is not supported and
    raises [TypeError]. *)
Definition dec_sub_num (a : Decimal) (p : pynum) : result Decimal :=
  match p with
  | PyInt z => Ok (dec_sub a (Decimal_of_int z))
  | PyFloat _ => Raise TypeError
  end.

(** Round a fraction to the nearest integer, ties to even. *)
Definition round_half_even (n d : Z) : Z :=
  let f := n / d in
  match 2 * (n mod d) ?= d with
  | Lt => f
  | Gt => f + 1
  | Eq => if Z.even f then f else f + 1
  end.

(** *** The decimal context

    [a + b] on decimals is the exact sum rounded to the 28 significant
    digits of the default context, half to even. *)

Definition context_prec : Z := 28.

(** The number of digits a coefficient has too many: the least [k] from
    [k0] on with [|n| < 10 ^ (28 + k)]. *)
Fixpoint excess_digits (fuel : nat) (k0 : Z) (n : Z) : Z :=
  match fuel with
  | O => k0
  | S fuel' =>
      if Z.abs n <? 10 ^ (context_prec + k0) then k0
      else excess_digits fuel' (k0 + 1) n
  end.

Definition context_round (d : Decimal) : Decimal :=
  let k := excess_digits (Z.to_nat (Z.log2 (Z.abs (dcoef d)))) 0 (dcoef d) in
  if k =? 0 then d
  else
    let q := round_half_even (dcoef d) (10 ^ k) in
    if Z.abs q =? 10 ^ context_prec then mkDec (q / 10) (dexp d + k + 1)
    else mkDec q (dexp d + k).

(** [a + b] and [a += b] *)
Definition Decimal_add (a b : Decimal) : Decimal := context_round (dec_add a b).

(** [a * b] *)
Definition Decimal_mul (a b : Decimal) : Decimal :=
  context_round (mkDec (dcoef a * dcoef b) (dexp a + dexp b)).

(** [timedelta(hours=x)] for a float [x]: whole hours are converted
    exactly, the fractional part is multiplied in floating point, and the
    total is rounded to a whole microsecond. *)
Definition timedelta_of_float_hours (x : spec_float) : result timedelta :=
  match x with
  | S754_zero _ => Ok 0
  | S754_finite s m e =>
      let '(n, d) := b64_ratio m e in
      let ip := n / d in
      let fr := b64_of_ratio (n mod d) (Z.to_pos d) in
      let sg := if s then -1 else 1 in
      match b64_mul (b64_of_Z us_per_hour) fr with
      | S754_zero _ => Ok (sg * (ip * us_per_hour))
      | S754_finite _ pm pe =>
          let '(pn, pd) := b64_ratio pm pe in
          Ok (sg * round_half_even (ip * us_per_hour * pd + pn) pd)
      | _ => Raise OverflowError
      end
  | _ => Raise OverflowError
  end.

Definition timedelta_of_hours_num (p : pynum) : result timedelta :=
  match p with
  | PyInt z => Ok (timedelta_hours z)
  | PyFloat q => timedelta_of_float_hours (b64_of_ratio (Qnum q) (Qden q))
  end.

(** ** Elapsed hours

    [Decimal(str(duration.total_seconds() / 3600))] *)

Definition total_seconds (td : timedelta) : spec_float := b64_of_ratio td 1000000.

Definition hours_float (td : timedelta) : spec_float :=
  b64_div (total_seconds td) (b64_of_Z 3600).

Definition decimal_hours (td : timedelta) : Decimal := Decimal_of_float (hours_float td).

(** ** Data model *)

Inductive CycleType : Type :=
| SEVENTY_EIGHT      (* "70_8": 70-hour / 8-day cycle *)
| SIXTY_SEVEN        (* "60_7": 60-hour / 7-day cycle *)
| THIRTY_FOUR_HOUR.  (* "34_hour" *)

Inductive DutyStatus : Type :=
| OFF_DUTY
| SLEEPER_BERTH
| DRIVING
| ON_DUTY_NOT_DRIVING.

(** [DutyStatus.X.value] *)
Definition DutyStatus_value (s : DutyStatus) : string :=
  match s with
  | OFF_DUTY => "off_duty"
  | SLEEPER_BERTH => "sleeper_berth"
  | DRIVING => "driving"
  | ON_DUTY_NOT_DRIVING => "on_duty_not_driving"
  end.

Inductive ViolationSeverity : Type :=
| MINOR
| MAJOR
| CRITICAL.

Inductive ViolationStatus : Type :=
| PENDING
| IN_REVIEW
| RESOLVED
| DISPUTED
| ESCALATED.

Inductive TeamDrivingRole : Type :=
| DRIVER_1
| DRIVER_2
| RELIEF_DRIVER.

Definition severity_eqb (a b : ViolationSeverity) : bool :=
  match a, b with
  | MINOR, MINOR | MAJOR, MAJOR | CRITICAL, CRITICAL => true
  | _, _ => false
  end.

Definition role_eqb (a b : TeamDrivingRole) : bool :=
  match a, b with
  | DRIVER_1, DRIVER_1 | DRIVER_2, DRIVER_2 | RELIEF_DRIVER, RELIEF_DRIVER => true
  | _, _ => false
  end.

Record HOSLimits : Type := mkHOSLimits {
  max_driving_hours : Decimal;
  max_on_duty_hours : Decimal;
  min_off_duty_hours : Decimal;
  min_30_min_break : bool;
  min_sleeper_berth_hours : Decimal;
  cycle_hours : Decimal;
  cycle_days : Z;
  max_consecutive_driving_hours : Decimal;
  min_34_hour_restart_hours : Decimal
}.

(** One entry of [log_entries]: the dictionary keys the engine reads. *)
Record LogEntry : Type := mkLogEntry {
  start_time : datetime;
  end_time : option datetime;
  duty_status : string
}.

Record SleeperBerthPeriod : Type := mkSleeperBerthPeriod {
  sb_start_time : datetime;
  sb_end_time : option datetime;
  duration_hours : Decimal;
  is_valid_for_restart : bool;
  consecutive_hours : Decimal;
  split_berth_period : bool
}.

(** A violation; the free-text [description] is not represented. *)
Record Violation : Type := mkViolation {
  violation_type : string;
  severity : ViolationSeverity;
  occurred_at : option datetime;
  duration_over : option timedelta;
  status : ViolationStatus;
  resolution_notes : string;
  resolved_by : option string;
  resolved_at : option datetime;
  escalation_level : Z;
  requires_immediate_action : bool;
  compliance_impact : string
}.

(** [Violation(...)] with the dataclass defaults for the workflow fields. *)
Definition new_Violation (ty : string) (sev : ViolationSeverity)
    (at_ : option datetime) (over : option timedelta) (immediate : bool)
    (impact : string) : Violation :=
  mkViolation ty sev at_ over PENDING "" None None 0 immediate impact.

Record TeamDrivingInfo : Type := mkTeamDrivingInfo {
  team_id : string;
  driver_1_id : string;
  driver_2_id : string;
  current_driver : TeamDrivingRole;
  handoff_time : option datetime;
  handoff_location : string;
  coordination_notes : string
}.

(** The analytics that are decimal or integer valued; the float-valued
    ratios of the source only contribute the exceptions they can raise. *)
Record ComplianceAnalytics : Type := mkComplianceAnalytics {
  total_violations : Z;
  compliance_score : Decimal
}.

Record HOSStatus : Type := mkHOSStatus {
  can_drive : bool;
  can_be_on_duty : bool;
  needs_rest : bool;
  hours_used_this_cycle : Decimal;
  hours_available : Decimal;
  consecutive_off_duty_hours : Decimal;
  last_30_min_break : option datetime;
  violations : list Violation;
  cycle_type : CycleType;
  cycle_start_date : datetime;
  sleeper_berth_periods : list SleeperBerthPeriod;
  team_driving_info : option TeamDrivingInfo;
  compliance_analytics : ComplianceAnalytics
}.

(** ** Rule registry *)

Record RuleConfig : Type := mkRuleConfig {
  rule_name : string;
  rule_severity : ViolationSeverity;
  rule_enabled : bool;
  rule_parameters : list (string * pynum)
}.

Record HOSRuleEngine : Type := mkHOSRuleEngine {
  rules : list (string * RuleConfig)
}.

Definition _load_default_rules : list (string * RuleConfig) :=
  [ ("driving_limit_11_hours",
     mkRuleConfig "11-Hour Driving Limit" MAJOR true [("max_hours", PyFloat 11)]);
    ("on_duty_limit_14_hours",
     mkRuleConfig "14-Hour On-Duty Limit" MAJOR true [("max_hours", PyFloat 14)]);
    ("30_min_break_requirement",
     mkRuleConfig "30-Minute Break Requirement" MAJOR true
       [("break_threshold", PyFloat 8); ("min_break", PyFloat (1 # 2))]);
    ("cycle_hours_limit",
     mkRuleConfig "Cycle Hours Limit" CRITICAL true
       [("cycle_hours", PyFloat 70); ("cycle_days", PyInt 8)]);
    ("34_hour_restart",
     mkRuleConfig "34-Hour Restart" CRITICAL true [("min_hours", PyFloat 34)]);
    ("sleeper_berth_split",
     mkRuleConfig "Sleeper Berth Split" MINOR true
       [("min_first_period", PyFloat 2); ("min_second_period", PyFloat 2)]) ]%string.

Definition new_HOSRuleEngine : HOSRuleEngine := mkHOSRuleEngine _load_default_rules.

Definition get_all_rules (self : HOSRuleEngine) : list (string * RuleConfig) :=
  rules self.

Fixpoint dict_get {A : Type} (k : string) (d : list (string * A)) : option A :=
  match d with
  | [] => None
  | (k', v) :: rest => if String.eqb k k' then Some v else dict_get k rest
  end.

(** [rule_config['parameters'][key]] *)
Definition parameter (cfg : RuleConfig) (key : string) : result pynum :=
  match dict_get key (rule_parameters cfg) with
  | Some v => Ok v
  | None => Raise KeyError
  end.

(** ** The engine *)

Record AdvancedHOSComplianceEngine : Type := mkEngine {
  engine_cycle_type : CycleType;
  limits : HOSLimits;
  rule_engine : HOSRuleEngine
}.

Definition HOS_LIMITS (ct : CycleType) : HOSLimits :=
  match ct with
  | SEVENTY_EIGHT =>
      mkHOSLimits (cents 1100) (cents 1400) (cents 1000) true (cents 800)
        (cents 7000) 8 (cents 1100) (cents 3400)
  | SIXTY_SEVEN =>
      mkHOSLimits (cents 1100) (cents 1400) (cents 1000) true (cents 800)
        (cents 6000) 7 (cents 1100) (cents 3400)
  | THIRTY_FOUR_HOUR =>
      mkHOSLimits (cents 1100) (cents 1400) (cents 3400) true (cents 800)
        (cents 7000) 8 (cents 1100) (cents 3400)
  end.

Definition create_compliance_engine (ct : CycleType) : AdvancedHOSComplianceEngine :=
  mkEngine ct (HOS_LIMITS ct) new_HOSRuleEngine.

(** *** Sorting

    [sorted(xs, key=...)] is stable: elements with equal keys keep their
    order. *)

Fixpoint insert_by {A : Type} (key : A -> Z) (x : A) (l : list A) : list A :=
  match l with
  | [] => [x]
  | y :: rest => if key x <=? key y then x :: l else y :: insert_by key x rest
  end.

Definition sorted_by {A : Type} (key : A -> Z) (l : list A) : list A :=
  fold_right (insert_by key) [] l.

(** *** Duty status tests *)

Definition status_is (s : DutyStatus) (entry : LogEntry) : bool :=
  String.eqb (duty_status entry) (DutyStatus_value s).

(** [entry['duty_status'] in [DRIVING.value, ON_DUTY_NOT_DRIVING.value]] *)
Definition is_on_duty (entry : LogEntry) : bool :=
  status_is DRIVING entry || status_is ON_DUTY_NOT_DRIVING entry.

(** [entry['end_time'] - entry['start_time']]; subtracting from [None]
    raises [TypeError]. *)
Definition entry_duration (entry : LogEntry) : result timedelta :=
  match end_time entry with
  | Some e => Ok (e - start_time entry)
  | None => Raise TypeError
  end.

(** *** Cycle start and the 34-hour restart *)

(** The loop of [_is_valid_34_hour_restart] over [all_entries]. *)
Fixpoint nested_on_duty_scan (all_entries : list LogEntry) (st en : datetime)
  : result bool :=
  match all_entries with
  | [] => Ok true
  | entry :: rest =>
      if st <? start_time entry then
        match end_time entry with
        | None => Raise TypeError
        | Some ee =>
            if (ee <? en) && is_on_duty entry then Ok false
            else nested_on_duty_scan rest st en
        end
      else nested_on_duty_scan rest st en
  end.

Definition _is_valid_34_hour_restart (off_duty_entry : LogEntry)
    (all_entries : list LogEntry) : result bool :=
  match end_time off_duty_entry with
  | None => Ok false
  | Some en =>
      let duration := en - start_time off_duty_entry in
      if duration <? timedelta_hours 34 then Ok false
      else nested_on_duty_scan all_entries (start_time off_duty_entry) en
  end.

(** The loop of [_calculate_advanced_cycle_start] over
    [reversed(log_entries)], up to its [break]. *)
Fixpoint restart_scan (reversed_entries all_entries : list LogEntry)
  : result (option datetime) :=
  match reversed_entries with
  | [] => Ok None
  | entry :: rest =>
      if status_is OFF_DUTY entry then
        match end_time entry with
        | Some en =>
            valid <- _is_valid_34_hour_restart entry all_entries ;;
            if valid then Ok (Some en) else restart_scan rest all_entries
        | None => restart_scan rest all_entries
        end
      else restart_scan rest all_entries
  end.

Definition _calculate_advanced_cycle_start (self : AdvancedHOSComplianceEngine)
    (log_entries : list LogEntry) (current_time : datetime) : result datetime :=
  match log_entries with
  | [] => Ok (current_time - timedelta_days (cycle_days (limits self)))
  | _ =>
      let cycle_start := current_time - timedelta_days (cycle_days (limits self)) in
      found <- restart_scan (rev log_entries) log_entries ;;
      let cycle_start := match found with Some en => en | None => cycle_start end in
      let max_cycle_start := current_time - timedelta_days (cycle_days (limits self)) in
      Ok (if cycle_start <? max_cycle_start then max_cycle_start else cycle_start)
  end.

(** *** Sleeper-berth periods *)

Definition set_split (p : SleeperBerthPeriod) : SleeperBerthPeriod :=
  mkSleeperBerthPeriod (sb_start_time p) (sb_end_time p) (duration_hours p)
    (is_valid_for_restart p) (consecutive_hours p) true.

(** [periods[i].split_berth_period = True]: the period objects are shared
    between the sorted list and the list that is returned, so the mark is
    made at the position of the object in the returned list. *)
Fixpoint mark_split (i : nat) (periods : list SleeperBerthPeriod)
  : list SleeperBerthPeriod :=
  match periods, i with
  | [], _ => []
  | p :: rest, O => set_split p :: rest
  | p :: rest, S i' => p :: mark_split i' rest
  end.

(** The test made on two periods adjacent in start-time order. *)
Definition split_pair_ok (current_end : datetime)
    (current_period next_period : SleeperBerthPeriod) : bool :=
  let time_between := sb_start_time next_period - current_end in
  if time_between <=? timedelta_hours 24 then
    let total_hours :=
      Decimal_add (duration_hours current_period) (duration_hours next_period) in
    dec_geb (duration_hours current_period) (mkDec 20 (-1))
    && dec_geb (duration_hours next_period) (mkDec 20 (-1))
    && dec_geb total_hours (mkDec 80 (-1))
  else false.

(** The loop over [range(len(sorted_periods) - 1)]; [order] lists the
    positions of the periods by start time. *)
Fixpoint split_loop (order : list nat) (periods : list SleeperBerthPeriod)
  : result (list SleeperBerthPeriod) :=
  match order with
  | i :: rest =>
      match rest with
      | j :: _ =>
          match nth_error periods i, nth_error periods j with
          | Some current_period, Some next_period =>
              match sb_end_time current_period with
              | None => Raise TypeError
              | Some current_end =>
                  if split_pair_ok current_end current_period next_period
                  then split_loop rest (mark_split j (mark_split i periods))
                  else split_loop rest periods
              end
          | _, _ => Ok periods
          end
      | [] => Ok periods
      end
  | [] => Ok periods
  end.

(** Positions of the periods in the order of [sorted(..., key=start_time)]. *)
Definition start_order (periods : list SleeperBerthPeriod) : list nat :=
  map fst
    (sorted_by (fun ip : nat * SleeperBerthPeriod => sb_start_time (snd ip))
       (combine (seq 0 (List.length periods)) periods)).

Definition _validate_split_sleeper_berth (sleeper_periods : list SleeperBerthPeriod)
  : result (list SleeperBerthPeriod) :=
  if (List.length sleeper_periods <? 2)%nat then Ok sleeper_periods
  else split_loop (start_order sleeper_periods) sleeper_periods.

Definition sleeper_period_of (self : AdvancedHOSComplianceEngine)
    (current_time : datetime) (entry : LogEntry) : SleeperBerthPeriod :=
  let duration :=
    match end_time entry with
    | Some en => en - start_time entry
    | None => current_time - start_time entry
    end in
  let hours := decimal_hours duration in
  mkSleeperBerthPeriod (start_time entry) (end_time entry) hours
    (dec_geb hours (min_34_hour_restart_hours (limits self))) hours false.

Definition _calculate_sleeper_berth_periods (self : AdvancedHOSComplianceEngine)
    (log_entries : list LogEntry) (current_time : datetime)
  : result (list SleeperBerthPeriod) :=
  let sleeper_periods :=
    map (sleeper_period_of self current_time)
      (filter (status_is SLEEPER_BERTH) log_entries) in
  _validate_split_sleeper_berth sleeper_periods.

(** *** Hour totals *)

(** [total += Decimal(str(duration.total_seconds() / 3600))] over the entries
    selected by [counted]. *)
Fixpoint hours_loop (counted : LogEntry -> bool) (entries : list LogEntry)
    (total : Decimal) : result Decimal :=
  match entries with
  | [] => Ok total
  | entry :: rest =>
      if counted entry then
        duration <- entry_duration entry ;;
        hours_loop counted rest (Decimal_add total (decimal_hours duration))
      else hours_loop counted rest total
  end.

Definition _calculate_cycle_hours (cycle_entries : list LogEntry) : result Decimal :=
  hours_loop is_on_duty cycle_entries (cents 0).

Fixpoint last_off_duty (reversed_entries : list LogEntry) : option LogEntry :=
  match reversed_entries with
  | [] => None
  | entry :: rest =>
      if status_is OFF_DUTY entry then Some entry else last_off_duty rest
  end.

Definition _calculate_consecutive_off_duty_hours (log_entries : list LogEntry)
    (current_time : datetime) : Decimal :=
  match log_entries with
  | [] => cents 0
  | _ =>
      match last_off_duty (rev log_entries) with
      | Some entry =>
          match end_time entry with
          | Some en => decimal_hours (current_time - en)
          | None => cents 0
          end
      | None => cents 0
      end
  end.

Fixpoint break_scan (min_break : timedelta) (reversed_entries : list LogEntry)
  : option datetime :=
  match reversed_entries with
  | [] => None
  | entry :: rest =>
      if status_is OFF_DUTY entry then
        match end_time entry with
        | Some en =>
            if min_break <=? en - start_time entry then Some en
            else break_scan min_break rest
        | None => break_scan min_break rest
        end
      else break_scan min_break rest
  end.

Definition _get_last_30_min_break (log_entries : list LogEntry)
    (current_time : datetime) : option datetime :=
  break_scan (timedelta_minutes 30) (rev log_entries).

Definition _calculate_driving_hours_since_break (log_entries : list LogEntry)
    (current_time : datetime) : result Decimal :=
  match _get_last_30_min_break log_entries current_time with
  | None => hours_loop (status_is DRIVING) log_entries (cents 0)
  | Some cutoff_time =>
      hours_loop
        (fun entry => status_is DRIVING entry && (cutoff_time <=? start_time entry))
        log_entries (cents 0)
  end.

Definition _calculate_on_duty_hours_since_break (cycle_entries : list LogEntry)
    (current_time : datetime) : result Decimal :=
  let last_10_hour_break := break_scan (timedelta_hours 10) (rev cycle_entries) in
  let cutoff_time :=
    match last_10_hour_break with
    | None => current_time - timedelta_hours 14
    | Some en => en
    end in
  hours_loop (fun entry => is_on_duty entry && (cutoff_time <=? start_time entry))
    cycle_entries (cents 0).

(** *** Rule checks *)

Fixpoint over_limit_loop (counted : LogEntry -> bool) (ty impact : string)
    (rule_config : RuleConfig) (max_hours : pynum) (cycle_entries : list LogEntry)
  : result (list Violation) :=
  match cycle_entries with
  | [] => Ok []
  | entry :: rest =>
      here <-
        (if counted entry then
           duration <- entry_duration entry ;;
           let hours := decimal_hours duration in
           if dec_gt_num hours max_hours then
             over <- dec_sub_num hours max_hours ;;
             duration_over <- timedelta_of_float_hours (float_of_Decimal over) ;;
             Ok [new_Violation ty (rule_severity rule_config)
                   (Some (start_time entry)) (Some duration_over) true impact]
           else Ok []
         else Ok []) ;;
      more <- over_limit_loop counted ty impact rule_config max_hours rest ;;
      Ok (here ++ more)
  end.

Definition _check_driving_limit_rule (rule_config : RuleConfig)
    (cycle_entries : list LogEntry) : result (list Violation) :=
  max_hours <- parameter rule_config "max_hours" ;;
  over_limit_loop (status_is DRIVING) "driving_over_11"
    "Driver must take 10-hour break before driving again"
    rule_config max_hours cycle_entries.

Definition _check_on_duty_limit_rule (rule_config : RuleConfig)
    (cycle_entries : list LogEntry) : result (list Violation) :=
  max_hours <- parameter rule_config "max_hours" ;;
  over_limit_loop is_on_duty "on_duty_over_14"
    "Driver must take 10-hour break before any duty"
    rule_config max_hours cycle_entries.

Definition _check_30_min_break_rule (rule_config : RuleConfig)
    (cycle_entries : list LogEntry) (current_time : datetime)
  : result (list Violation) :=
  break_threshold <- parameter rule_config "break_threshold" ;;
  min_break <- parameter rule_config "min_break" ;;
  driving_hours <- _calculate_driving_hours_since_break cycle_entries current_time ;;
  if dec_gt_num driving_hours break_threshold then
    Ok [new_Violation "no_30_min_break" (rule_severity rule_config)
          (Some current_time) None true
          "Driver must take 30-minute break before continuing to drive"]
  else Ok [].

(** [clock] is the reading of [datetime.now()].  The description of the
    violation formats [total_hours - cycle_hours], which is evaluated
    before the other fields. *)
Definition _check_cycle_hours_rule (clock : datetime) (rule_config : RuleConfig)
    (cycle_entries : list LogEntry) : result (list Violation) :=
  cycle_hours <- parameter rule_config "cycle_hours" ;;
  total_hours <- _calculate_cycle_hours cycle_entries ;;
  if dec_gt_num total_hours cycle_hours then
    excess <- dec_sub_num total_hours cycle_hours ;;
    let at_ :=
      match rev cycle_entries with
      | last :: _ => end_time last
      | [] => Some clock
      end in
    Ok [new_Violation "cycle_hours_exceeded" (rule_severity rule_config)
          at_ None true
          "Driver must take 34-hour restart or wait for cycle reset"]
  else Ok [].

Fixpoint restart_rule_loop (rule_config : RuleConfig) (min_hours : pynum)
    (cycle_entries : list LogEntry) : result (list Violation) :=
  match cycle_entries with
  | [] => Ok []
  | entry :: rest =>
      here <-
        (if status_is OFF_DUTY entry then
           match end_time entry with
           | Some en =>
               minimum <- timedelta_of_hours_num min_hours ;;
               if en - start_time entry <? minimum then
                 Ok [new_Violation "invalid_34_hour_restart"
                       (rule_severity rule_config) (Some (start_time entry)) None
                       false "Restart attempt invalid, cycle continues"]
               else Ok []
           | None => Ok []
           end
         else Ok []) ;;
      more <- restart_rule_loop rule_config min_hours rest ;;
      Ok (here ++ more)
  end.

(** The search for a valid restart among the sleeper-berth periods has no
    effect on the result; only the off-duty entries are reported. *)
Definition _check_34_hour_restart_rule (rule_config : RuleConfig)
    (cycle_entries : list LogEntry) (sleeper_berth_periods : list SleeperBerthPeriod)
  : result (list Violation) :=
  min_hours <- parameter rule_config "min_hours" ;;
  let valid_restart_found :=
    existsb (fun period => is_valid_for_restart period
                           && dec_ge_num (duration_hours period) min_hours)
      sleeper_berth_periods in
  restart_rule_loop rule_config min_hours cycle_entries.

Definition _check_sleeper_berth_split_rule (rule_config : RuleConfig)
    (sleeper_berth_periods : list SleeperBerthPeriod) : result (list Violation) :=
  min_first_period <- parameter rule_config "min_first_period" ;;
  min_second_period <- parameter rule_config "min_second_period" ;;
  match filter split_berth_period sleeper_berth_periods with
  | first_period :: second_period :: _ =>
      let first :=
        if dec_lt_num (duration_hours first_period) min_first_period then
          [new_Violation "invalid_split_berth_first" (rule_severity rule_config)
             (Some (sb_start_time first_period)) None false
             "Split berth period invalid"]
        else [] in
      let second :=
        if dec_lt_num (duration_hours second_period) min_second_period then
          [new_Violation "invalid_split_berth_second" (rule_severity rule_config)
             (Some (sb_start_time second_period)) None false
             "Split berth period invalid"]
        else [] in
      Ok (first ++ second)
  | _ => Ok []
  end.

Definition _check_rule_violation (clock : datetime) (rule_id : string)
    (rule_config : RuleConfig) (cycle_entries : list LogEntry)
    (current_time : datetime) (sleeper_berth_periods : list SleeperBerthPeriod)
  : result (list Violation) :=
  if String.eqb rule_id "driving_limit_11_hours" then
    _check_driving_limit_rule rule_config cycle_entries
  else if String.eqb rule_id "on_duty_limit_14_hours" then
    _check_on_duty_limit_rule rule_config cycle_entries
  else if String.eqb rule_id "30_min_break_requirement" then
    _check_30_min_break_rule rule_config cycle_entries current_time
  else if String.eqb rule_id "cycle_hours_limit" then
    _check_cycle_hours_rule clock rule_config cycle_entries
  else if String.eqb rule_id "34_hour_restart" then
    _check_34_hour_restart_rule rule_config cycle_entries sleeper_berth_periods
  else if String.eqb rule_id "sleeper_berth_split" then
    _check_sleeper_berth_split_rule rule_config sleeper_berth_periods
  else Ok [].

Fixpoint rules_loop (clock : datetime) (all_rules : list (string * RuleConfig))
    (cycle_entries : list LogEntry) (current_time : datetime)
    (sleeper_berth_periods : list SleeperBerthPeriod) : result (list Violation) :=
  match all_rules with
  | [] => Ok []
  | (rule_id, rule_config) :: rest =>
      rule_violations <-
        (if rule_enabled rule_config then
           _check_rule_violation clock rule_id rule_config cycle_entries
             current_time sleeper_berth_periods
         else Ok []) ;;
      more <- rules_loop clock rest cycle_entries current_time sleeper_berth_periods ;;
      Ok (rule_violations ++ more)
  end.

Definition _check_advanced_violations (self : AdvancedHOSComplianceEngine)
    (clock : datetime) (cycle_entries : list LogEntry) (current_time : datetime)
    (sleeper_berth_periods : list SleeperBerthPeriod) : result (list Violation) :=
  rules_loop clock (get_all_rules (rule_engine self)) cycle_entries current_time
    sleeper_berth_periods.

(** *** Eligibility *)

Definition is_critical (v : Violation) : bool := severity_eqb (severity v) CRITICAL.

Definition is_major_or_critical (v : Violation) : bool :=
  severity_eqb (severity v) MAJOR || severity_eqb (severity v) CRITICAL.

(** [team_driving_info] is given and its current driver is not [DRIVER_1]. *)
Definition not_current_driver (team_driving_info : option TeamDrivingInfo) : bool :=
  match team_driving_info with
  | Some info => negb (role_eqb (current_driver info) DRIVER_1)
  | None => false
  end.

Definition _can_drive_advanced (cycle_entries : list LogEntry)
    (current_time : datetime) (violations : list Violation)
    (team_driving_info : option TeamDrivingInfo) : result bool :=
  let critical_violations := filter is_critical violations in
  match critical_violations with
  | _ :: _ => Ok false
  | [] =>
      if not_current_driver team_driving_info then Ok false
      else
        driving_hours <- _calculate_driving_hours_since_break cycle_entries current_time ;;
        if dec_ge_num driving_hours (PyInt 11) then Ok false
        else
          on_duty_hours <- _calculate_on_duty_hours_since_break cycle_entries current_time ;;
          if dec_ge_num on_duty_hours (PyInt 14) then Ok false
          else Ok true
  end.

Definition _can_be_on_duty_advanced (cycle_entries : list LogEntry)
    (current_time : datetime) (violations : list Violation)
    (team_driving_info : option TeamDrivingInfo) : result bool :=
  let critical_violations := filter is_critical violations in
  match critical_violations with
  | _ :: _ => Ok false
  | [] =>
      on_duty_hours <- _calculate_on_duty_hours_since_break cycle_entries current_time ;;
      if dec_ge_num on_duty_hours (PyInt 14) then Ok false
      else Ok true
  end.

Definition _needs_rest_advanced (cycle_entries : list LogEntry)
    (current_time : datetime) (violations : list Violation) : result bool :=
  let major_violations := filter is_major_or_critical violations in
  match major_violations with
  | _ :: _ => Ok true
  | [] =>
      driving_hours <- _calculate_driving_hours_since_break cycle_entries current_time ;;
      on_duty_hours <- _calculate_on_duty_hours_since_break cycle_entries current_time ;;
      if dec_ge_num driving_hours (PyInt 10) || dec_ge_num on_duty_hours (PyInt 13)
      then Ok true
      else Ok false
  end.

(** *** Analytics *)

Definition penalty (v : Violation) : Z :=
  match severity v with
  | CRITICAL => 20
  | MAJOR => 10
  | MINOR => 5
  end.

(** [restart_count / days_span] divides by zero when the first entry starts
    less than a day after [current_time]; the daily totals subtract
    [start_time] from [end_time] for every entry. *)
Definition _calculate_compliance_analytics (log_entries : list LogEntry)
    (violations : list Violation) (current_time : datetime)
  : result ComplianceAnalytics :=
  let total := Z.of_nat (List.length violations) in
  let penalty_points := fold_left (fun acc v => acc + penalty v) violations 0 in
  let score := dec_max (cents 0) (dec_sub (cents 10000) (Decimal_of_int penalty_points)) in
  _ <- match log_entries with
       | [] => Ok tt
       | first :: _ =>
           let days_span := td_days (current_time - start_time first) + 1 in
           if days_span =? 0 then Raise ZeroDivisionError else Ok tt
       end ;;
  _ <- fold_left
         (fun acc entry => _ <- acc ;; _ <- entry_duration entry ;; Ok tt)
         log_entries (Ok tt) ;;
  Ok (mkComplianceAnalytics total score).

(** The recommendations recompute the cycle start and the cycle hours.  Of
    the advisory dictionary only [optimal_restart_time] is represented, the
    one entry that is computed with datetime arithmetic:
    [current_time + timedelta(hours=1)], taken when the cycle hours reach
    seven tenths of the limit. *)
Definition _get_advanced_restart_recommendations (self : AdvancedHOSComplianceEngine)
    (log_entries : list LogEntry) (current_time : datetime)
    (sleeper_berth_periods : list SleeperBerthPeriod) : result (option datetime) :=
  cycle_start <- _calculate_advanced_cycle_start self log_entries current_time ;;
  let cycle_entries := filter (fun entry => cycle_start <=? start_time entry) log_entries in
  cycle_hours_ <- _calculate_cycle_hours cycle_entries ;;
  if dec_geb cycle_hours_ (Decimal_mul (cycle_hours (limits self)) (mkDec 7 (-1)))
  then Ok (Some (current_time + timedelta_hours 1))
  else Ok None.

(** *** The evaluation

    [clock] is the reading of the system clock, used when [current_time]
    is not given. *)
Definition calculate_advanced_hos_status (self : AdvancedHOSComplianceEngine)
    (clock : datetime) (log_entries : list LogEntry)
    (current_time : option datetime) (team_driving_info : option TeamDrivingInfo)
  : result HOSStatus :=
  let current_time := match current_time with Some t => t | None => clock end in
  let sorted_entries := sorted_by start_time log_entries in
  cycle_start <- _calculate_advanced_cycle_start self sorted_entries current_time ;;
  sleeper_berth_periods <-
    _calculate_sleeper_berth_periods self sorted_entries current_time ;;
  let cycle_entries :=
    filter (fun entry => cycle_start <=? start_time entry) sorted_entries in
  hours_used <- _calculate_cycle_hours cycle_entries ;;
  let hours_available := dec_sub (cycle_hours (limits self)) hours_used in
  violations <-
    _check_advanced_violations self clock cycle_entries current_time
      sleeper_berth_periods ;;
  let consecutive_off_duty :=
    _calculate_consecutive_off_duty_hours sorted_entries current_time in
  let last_30_min_break := _get_last_30_min_break sorted_entries current_time in
  can_drive <-
    _can_drive_advanced cycle_entries current_time violations team_driving_info ;;
  can_be_on_duty <-
    _can_be_on_duty_advanced cycle_entries current_time violations team_driving_info ;;
  needs_rest <- _needs_rest_advanced cycle_entries current_time violations ;;
  compliance_analytics <-
    _calculate_compliance_analytics sorted_entries violations current_time ;;
  _ <- _get_advanced_restart_recommendations self sorted_entries current_time
         sleeper_berth_periods ;;
  Ok (mkHOSStatus can_drive can_be_on_duty needs_rest hours_used hours_available
        consecutive_off_duty last_30_min_break violations (engine_cycle_type self)
        cycle_start sleeper_berth_periods team_driving_info compliance_analytics).

(** ** Violation resolution workflow *)

Definition status_eqb (a b : ViolationStatus) : bool :=
  match a, b with
  | PENDING, PENDING | IN_REVIEW, IN_REVIEW | RESOLVED, RESOLVED
  | DISPUTED, DISPUTED | ESCALATED, ESCALATED => true
  | _, _ => false
  end.

Record ViolationResolutionWorkflow : Type := mkWorkflow {
  workflow_steps : list (ViolationStatus * list string)
}.

Definition new_ViolationResolutionWorkflow : ViolationResolutionWorkflow :=
  mkWorkflow
    [ (PENDING, ["acknowledge"; "dispute"; "escalate"]);
      (IN_REVIEW, ["approve"; "reject"; "request_info"]);
      (DISPUTED, ["review"; "approve"; "reject"]);
      (ESCALATED, ["review"; "approve"; "reject"]);
      (RESOLVED, ["reopen"]) ]%string.

(** [self.workflow_steps.get(status, [])] *)
Fixpoint steps_get (st : ViolationStatus)
    (steps : list (ViolationStatus * list string)) : list string :=
  match steps with
  | [] => []
  | (k, actions) :: rest => if status_eqb st k then actions else steps_get st rest
  end.

Definition allowed (self : ViolationResolutionWorkflow) (st : ViolationStatus)
    (action : string) : bool :=
  existsb (String.eqb action) (steps_get st (workflow_steps self)).

(** The calls mutate the violation they are given: they return their
    boolean result together with the violation as it is after the call.
    [clock] is the reading of [timezone.now()]. *)
Definition resolve_violation (self : ViolationResolutionWorkflow) (clock : datetime)
    (violation : Violation) (resolution_notes_ : string) (resolved_by_ : string)
    (action : string) : bool * Violation :=
  if negb (allowed self (status violation) action) then
    (* ValidationError, caught by the enclosing try *)
    (false, violation)
  else
    (true,
     mkViolation (violation_type violation) (severity violation)
       (occurred_at violation) (duration_over violation)
       RESOLVED resolution_notes_ (Some resolved_by_) (Some clock)
       (escalation_level violation) (requires_immediate_action violation)
       (compliance_impact violation)).

Definition newline : string := String (ascii_of_nat 10) EmptyString.

Definition escalate_violation (self : ViolationResolutionWorkflow)
    (violation : Violation) (escalation_reason : string) : bool * Violation :=
  (true,
   mkViolation (violation_type violation) (severity violation)
     (occurred_at violation) (duration_over violation)
     ESCALATED
     (resolution_notes violation ++ newline ++ "Escalated: " ++ escalation_reason)%string
     (resolved_by violation) (resolved_at violation)
     (escalation_level violation + 1) (requires_immediate_action violation)
     (compliance_impact violation)).

(** ** Log-entry validation *)

(** A dictionary as [validate_log_entry] receives it: a key may be absent
    ([None]), present with the value [None] ([Some None]) or present with
    a value. *)
Record RawEntry : Type := mkRawEntry {
  raw_start_time : option (option datetime);
  raw_end_time : option (option datetime);
  raw_duty_status : option (option string)
}.

Definition raw_of_entry (entry : LogEntry) : RawEntry :=
  mkRawEntry (Some (Some (start_time entry))) (Some (end_time entry))
    (Some (Some (duty_status entry))).

Definition missing {A : Type} (field : option (option A)) : bool :=
  match field with
  | Some (Some _) => false
  | _ => true
  end.

Definition valid_statuses : list string :=
  map DutyStatus_value [OFF_DUTY; SLEEPER_BERTH; DRIVING; ON_DUTY_NOT_DRIVING].

Definition validate_log_entry (entry : RawEntry) : bool * list string :=
  let e1 := if missing (raw_start_time entry)
            then ["Missing required field: start_time"%string] else [] in
  let e2 := if missing (raw_end_time entry)
            then ["Missing required field: end_time"%string] else [] in
  let e3 := if missing (raw_duty_status entry)
            then ["Missing required field: duty_status"%string] else [] in
  let e4 :=
    match raw_start_time entry, raw_end_time entry with
    | Some (Some st), Some (Some en) =>
        if en <=? st then ["Start time must be before end time"%string] else []
    | _, _ => []
    end in
  let e5 :=
    match raw_duty_status entry with
    | Some (Some s) =>
        if existsb (String.eqb s) valid_statuses then []
        else [("Invalid duty status: " ++ s)%string]
    | Some None => ["Invalid duty status: None"%string]
    | None => []
    end in
  let errors := e1 ++ e2 ++ e3 ++ e4 ++ e5 in
  (match errors with [] => true | _ => false end, errors).

(** * Vocabulary of the specification *)

(** The evaluation time: [current_time], or the clock when it is omitted. *)
Definition effective_time (clock : datetime) (current_time : option datetime)
  : datetime :=
  match current_time with
  | Some t => t
  | None => clock
  end.

(** The instant is one a [datetime] can hold.  The functions above count
    on the unbounded line of microseconds; Python raises [OverflowError]
    where it is asked for a [datetime] outside these bounds (at
    [current_time - timedelta(days=cycle_days)],
    [current_time - timedelta(hours=14)] and
    [current_time + timedelta(hours=1)]), so a statement that promises a
    result says which instants have to be representable. *)
Definition representable (t : datetime) : Prop := datetime_min <= t <= datetime_max.

(** The days of the cycle window and the cycle hours, by cycle type. *)
Definition window_days (ct : CycleType) : Z :=
  match ct with
  | SIXTY_SEVEN => 7
  | SEVENTY_EIGHT | THIRTY_FOUR_HOUR => 8
  end.

Definition full_cycle_hours (ct : CycleType) : Decimal :=
  match ct with
  | SIXTY_SEVEN => cents 6000
  | SEVENTY_EIGHT | THIRTY_FOUR_HOUR => cents 7000
  end.

Definition has_end (entry : LogEntry) : bool :=
  match end_time entry with
  | Some _ => true
  | None => false
  end.

(** The invariant of a duty interval: an interval that has an end begins
    before it. *)
Definition well_formed_entry (entry : LogEntry) : Prop :=
  match end_time entry with
  | Some en => start_time entry < en
  | None => True
  end.

Definition valid_interval_set (entries : list LogEntry) : Prop :=
  Forall well_formed_entry entries.

(** A malformed interval: the end is missing, or not after the start. *)
Definition malformed (entry : LogEntry) : Prop :=
  match end_time entry with
  | Some en => en <= start_time entry
  | None => True
  end.

(** [x] is an on-duty interval lying strictly inside ([st], [en]). *)
Definition nested_on_duty (st en : datetime) (x : LogEntry) : Prop :=
  is_on_duty x = true /\ st < start_time x /\
  exists ee, end_time x = Some ee /\ ee < en.

(** An off-duty interval that qualifies as a restart: it lasts 34 hours or
    more and no on-duty interval of the log is strictly nested in it. *)
Definition off_duty_restart (entries : list LogEntry) (e : LogEntry) (en : datetime)
  : Prop :=
  status_is OFF_DUTY e = true /\ end_time e = Some en /\
  timedelta_hours 34 <= en - start_time e /\
  forall x, In x entries -> ~ nested_on_duty (start_time e) en x.

(** The boolean forms of the two notions above, for closed intervals. *)
Definition is_nested_on_duty (st en : datetime) (x : LogEntry) : bool :=
  (st <? start_time x)
  && match end_time x with
     | Some ee => (ee <? en) && is_on_duty x
     | None => false
     end.

Definition is_restart (entries : list LogEntry) (e : LogEntry) : bool :=
  status_is OFF_DUTY e
  && match end_time e with
     | Some en =>
         (timedelta_hours 34 <=? en - start_time e)
         && negb (existsb (is_nested_on_duty (start_time e) en) entries)
     | None => false
     end.

(** The interval stays within the limits of a shift as the rules measure
    them: a driving interval lasts at most 11 hours, a driving or on-duty
    interval at most 14. *)
Definition within_shift_limits (entry : LogEntry) : bool :=
  match end_time entry with
  | Some en =>
      let hours := decimal_hours (en - start_time entry) in
      negb (status_is DRIVING entry && dec_gt_num hours (PyFloat 11))
      && negb (is_on_duty entry && dec_gt_num hours (PyFloat 14))
  | None => true
  end.

(** Total of the elapsed hours of a list of closed intervals: the hours
    are added one after the other to [Decimal('0.00')], every sum in the
    decimal context. *)
Definition sum_hours (entries : list LogEntry) : Decimal :=
  fold_left
    (fun total entry =>
       match end_time entry with
       | Some en => Decimal_add total (decimal_hours (en - start_time entry))
       | None => total
       end)
    entries (cents 0).






(** The period at a position, if there is one, has an end. *)
Definition closed_at (periods : list SleeperBerthPeriod) (i : nat) : Prop :=
  forall p, nth_error periods i = Some p -> sb_end_time p <> None.

(** Everything of a period but its split mark. *)
Definition period_core (p : SleeperBerthPeriod)
  : datetime * option datetime * Decimal * bool * Decimal :=
  (sb_start_time p, sb_end_time p, duration_hours p, is_valid_for_restart p,
   consecutive_hours p).

(** The pair at positions [i] and [j] passes the test of the loop. *)
Definition pair_ok (periods : list SleeperBerthPeriod) (i j : nat) : bool :=
  match nth_error periods i, nth_error periods j with
  | Some current_period, Some next_period =>
      match sb_end_time current_period with
      | Some current_end => split_pair_ok current_end current_period next_period
      | None => false
      end
  | _, _ => false
  end.

(** Position [x] belongs to a pair of [order] that passes the test. *)
Fixpoint marked_by (order : list nat) (periods : list SleeperBerthPeriod) (x : nat)
  : bool :=
  match order with
  | i :: rest =>
      match rest with
      | j :: _ =>
          (pair_ok periods i j && (Nat.eqb x i || Nat.eqb x j))
          || marked_by rest periods x
      | [] => false
      end
  | [] => false
  end.

Definition forall_upto (n : nat) (P : Z -> bool) : bool :=
  forallb P (map Z.of_nat (seq 0 (S n))).

(** The elapsed hours of [k] quarters of an hour are [k * 0.25]. *)
(** For an interval of [m] minutes: its decimal hours reach 34.00 exactly
    when it lasts 34 hours. *)
Definition flag_agrees (m : Z) : bool :=
  Bool.eqb (dec_leb (cents 3400) (decimal_hours (timedelta_minutes m)))
           (timedelta_hours 34 <=? timedelta_minutes m).

Definition quarter_hours_exact (k : Z) : bool :=
  let hours := decimal_hours (k * timedelta_minutes 15) in
  dec_eqb hours (cents (25 * k)) && is_hundredths hours.

(** The 11-hour rule with its threshold held as an [int]. *)
Definition driving_rule_int : RuleConfig :=
  mkRuleConfig "11-Hour Driving Limit" MAJOR true [("max_hours"%string, PyInt 11)].

(** ** Sample logs *)

Definition sample_now : datetime := 1700000000000000.

Definition entry_of (st en : datetime) (s : DutyStatus) : LogEntry :=
  mkLogEntry st (Some en) (DutyStatus_value s).

(** One driving interval of twelve hours, ending now. *)
Definition driving_12h (now : datetime) : list LogEntry :=
  [entry_of (now - timedelta_hours 12) now DRIVING].

(** Seven on-duty days of nine hours inside the 7-day window: 63 hours. *)
Definition on_duty_63h : list LogEntry :=
  map (fun i =>
         entry_of (sample_now - timedelta_days 7 + timedelta_days i)
           (sample_now - timedelta_days 7 + timedelta_days i + timedelta_hours 9)
           ON_DUTY_NOT_DRIVING)
    [0; 1; 2; 3; 4; 5; 6].

(** Thirty-six hours off duty, ended two hours ago. *)
Definition off_duty_36h : LogEntry :=
  entry_of (sample_now - timedelta_hours 38) (sample_now - timedelta_hours 2) OFF_DUTY.

(** An earlier rest of thirty-six hours. *)
Definition earlier_off_duty_36h : LogEntry :=
  entry_of (sample_now - timedelta_hours 80) (sample_now - timedelta_hours 44) OFF_DUTY.

(** Two hours of driving after the rest. *)
Definition drive_after_rest : LogEntry :=
  entry_of (sample_now - timedelta_hours 2) sample_now DRIVING.

(** Thirty-six hours in the sleeper berth, before the rest. *)
Definition sleeper_36h : LogEntry :=
  entry_of (sample_now - timedelta_hours 80) (sample_now - timedelta_hours 44)
    SLEEPER_BERTH.

(** The rest, the drive after it and the sleeper-berth time before it. *)
Definition rest_log : list LogEntry := [off_duty_36h; drive_after_rest; sleeper_36h].

(** An interval whose end lies before its start. *)
Definition backwards_entry : LogEntry :=
  entry_of (sample_now - timedelta_hours 3) (sample_now - timedelta_hours 5) OFF_DUTY.

(** An interval without end. *)
Definition open_entry : LogEntry :=
  mkLogEntry (sample_now - timedelta_hours 3) None (DutyStatus_value OFF_DUTY).

(** Twenty minutes of driving. *)
Definition driving_20min : LogEntry :=
  entry_of (sample_now - timedelta_hours 1)
    (sample_now - timedelta_hours 1 + timedelta_minutes 20) DRIVING.

(** Sleeper-berth periods of three and of five hours, seven hours apart. *)
Definition berth_3h : SleeperBerthPeriod :=
  mkSleeperBerthPeriod (sample_now - timedelta_hours 30)
    (Some (sample_now - timedelta_hours 27)) (mkDec 30 (-1)) false (mkDec 30 (-1)) false.

Definition berth_5h : SleeperBerthPeriod :=
  mkSleeperBerthPeriod (sample_now - timedelta_hours 20)
    (Some (sample_now - timedelta_hours 15)) (mkDec 50 (-1)) false (mkDec 50 (-1)) false.



Definition resolved_violation : Violation :=
  mkViolation "no_30_min_break" MAJOR (Some sample_now) None RESOLVED
    "break taken" (Some "dispatcher"%string) (Some sample_now) 0 true
    "Driver must take 30-minute break before continuing to drive".

(** * The rest of the module *)

(** ** Rule registry operations *)

(** [d[k] = v]: an existing key keeps its place, a new key goes last. *)
Fixpoint dict_set {A : Type} (k : string) (v : A) (d : list (string * A))
  : list (string * A) :=
  match d with
  | [] => [(k, v)]
  | (k', v') :: rest =>
      if String.eqb k k' then (k, v) :: rest else (k', v') :: dict_set k v rest
  end.

Definition dict_keys {A : Type} (d : list (string * A)) : list string := map fst d.

(** The registry operations return their boolean result with the registry
    as it is after the call. *)
Definition add_custom_rule (self : HOSRuleEngine) (rule_id : string)
    (rule_config : RuleConfig) : bool * HOSRuleEngine :=
  (true, mkHOSRuleEngine (dict_set rule_id rule_config (rules self))).

(** The [updates] dictionary of [update_rule]: the keys it may carry. *)
Record RuleUpdates : Type := mkRuleUpdates {
  upd_name : option string;
  upd_severity : option ViolationSeverity;
  upd_enabled : option bool;
  upd_parameters : option (list (string * pynum))
}.

Definition or_else {A : Type} (o : option A) (a : A) : A :=
  match o with
  | Some x => x
  | None => a
  end.

(** [rule_config.update(updates)]: given keys replace the old values, the
    [parameters] dictionary as a whole. *)
Definition apply_updates (rule_config : RuleConfig) (updates : RuleUpdates)
  : RuleConfig :=
  mkRuleConfig (or_else (upd_name updates) (rule_name rule_config))
    (or_else (upd_severity updates) (rule_severity rule_config))
    (or_else (upd_enabled updates) (rule_enabled rule_config))
    (or_else (upd_parameters updates) (rule_parameters rule_config)).

(** [self.rules[rule_id].update(updates)] changes the stored dictionary in
    place.  The registry here holds values: every registered dictionary
    counts as an object of its own, as the dictionaries of
    [_load_default_rules] are.  The registry with dictionaries that may be
    shared is [Shared.HOSRuleEngine] below. *)
Definition update_rule (self : HOSRuleEngine) (rule_id : string)
    (updates : RuleUpdates) : bool * HOSRuleEngine :=
  match dict_get rule_id (rules self) with
  | None => (false, self)
  | Some rule_config =>
      (true,
       mkHOSRuleEngine
         (dict_set rule_id (apply_updates rule_config updates) (rules self)))
  end.

Definition get_rule (self : HOSRuleEngine) (rule_id : string) : option RuleConfig :=
  dict_get rule_id (rules self).

(** *** The registry with shared dictionaries

    [self.rules] maps ids to dictionary objects.  [add_custom_rule] stores
    the object it is given, [get_rule] hands it out, and [update_rule]
    changes the object found under the id in place, so that the change
    shows under every id that holds the same object.  The objects live in
    a store and are addressed by numbers. *)
Module Shared.

Record HOSRuleEngine : Type := mkHOSRuleEngine {
  objects : nat -> RuleConfig;    (* the dictionaries, by address *)
  rules : list (string * nat)     (* [self.rules] *)
}.

(** [self.rules[rule_id] = rule_config] *)
Definition add_custom_rule (self : HOSRuleEngine) (rule_id : string)
    (rule_config : nat) : bool * HOSRuleEngine :=
  (true, mkHOSRuleEngine (objects self) (dict_set rule_id rule_config (rules self))).

(** [self.rules[rule_id].update(updates)] *)
Definition update_rule (self : HOSRuleEngine) (rule_id : string)
    (updates : RuleUpdates) : bool * HOSRuleEngine :=
  match dict_get rule_id (rules self) with
  | None => (false, self)
  | Some address =>
      (true,
       mkHOSRuleEngine
         (fun a => if Nat.eqb a address then apply_updates (objects self a) updates
                   else objects self a)
         (rules self))
  end.

(** [self.rules.get(rule_id)]: the dictionary as it is now. *)
Definition get_rule (self : HOSRuleEngine) (rule_id : string) : option RuleConfig :=
  option_map (objects self) (dict_get rule_id (rules self)).

(** The registry with every dictionary read out. *)
Definition contents (self : HOSRuleEngine) : list (string * RuleConfig) :=
  map (fun rule => (fst rule, objects self (snd rule))) (rules self).

End Shared.

(** A registry in which one dictionary, at address 0, is registered under
    two ids. *)
Definition twice_registered : Shared.HOSRuleEngine :=
  Shared.mkHOSRuleEngine
    (fun _ => mkRuleConfig "Night Driving" MINOR true [("max_hours"%string, PyFloat 4)])
    [("night_driving"%string, 0%nat); ("night_rule"%string, 0%nat)].

(** [{'enabled': False}] *)
Definition switch_off : RuleUpdates := mkRuleUpdates None None (Some false) None.

(** ** Team driving coordination *)

Record TeamDrivingCoordinator : Type := mkCoordinator {
  active_teams : list (string * TeamDrivingInfo)
}.

Definition new_TeamDrivingCoordinator : TeamDrivingCoordinator := mkCoordinator [].

Definition create_team (self : TeamDrivingCoordinator) (team_id_ : string)
    (driver_1_id_ driver_2_id_ : string) : bool * TeamDrivingCoordinator :=
  (true,
   mkCoordinator
     (dict_set team_id_
        (mkTeamDrivingInfo team_id_ driver_1_id_ driver_2_id_ DRIVER_1 None "" "")
        (active_teams self))).

(** The team object is changed in place; [clock] is the reading of
    [timezone.now()]. *)
Definition handoff_driving (self : TeamDrivingCoordinator) (clock : datetime)
    (team_id_ : string) (handoff_location_ : string) (notes : string)
  : bool * TeamDrivingCoordinator :=
  match dict_get team_id_ (active_teams self) with
  | None => (false, self)   (* ValidationError, caught *)
  | Some team_info =>
      let next_driver :=
        if role_eqb (current_driver team_info) DRIVER_1 then DRIVER_2 else DRIVER_1 in
      (true,
       mkCoordinator
         (dict_set team_id_
            (mkTeamDrivingInfo (team_id team_info) (driver_1_id team_info)
               (driver_2_id team_info) next_driver (Some clock)
               handoff_location_ notes)
            (active_teams self)))
  end.

Definition get_team_status (self : TeamDrivingCoordinator) (team_id_ : string)
  : option TeamDrivingInfo :=
  dict_get team_id_ (active_teams self).

(** ** Sequences of workflow calls *)

(** One [resolve_violation] call: clock reading, notes, user and action. *)
Definition resolution_call : Type := datetime * string * string * string.

Definition apply_resolution (self : ViolationResolutionWorkflow) (v : Violation)
    (call : resolution_call) : Violation :=
  let '(clock, notes, who, action) := call in
  snd (resolve_violation self clock v notes who action).

Definition apply_resolutions (self : ViolationResolutionWorkflow) (v : Violation)
    (calls : list resolution_call) : Violation :=
  fold_left (apply_resolution self) calls v.

Definition apply_escalations (self : ViolationResolutionWorkflow) (v : Violation)
    (reasons : list string) : Violation :=
  fold_left (fun v reason => snd (escalate_violation self v reason)) reasons v.

(** ** Vocabulary of the further properties *)

(** An off-duty interval with an end, shorter than [minimum]. *)
Definition short_off_duty (minimum : timedelta) (entry : LogEntry) : bool :=
  status_is OFF_DUTY entry
  && match end_time entry with
     | Some en => en - start_time entry <? minimum
     | None => false
     end.

(** The violation reported for a short off-duty interval. *)
Definition restart_violation (sev : ViolationSeverity) (entry : LogEntry) : Violation :=
  new_Violation "invalid_34_hour_restart" sev (Some (start_time entry)) None false
    "Restart attempt invalid, cycle continues".

(** An off-duty interval with an end that lasts [minimum] or more. *)
Definition is_break (minimum : timedelta) (entry : LogEntry) : bool :=
  status_is OFF_DUTY entry
  && match end_time entry with
     | Some en => minimum <=? en - start_time entry
     | None => false
     end.




(** The two kinds of violation a default engine returns. *)
Definition reported_kind (v : Violation) : Prop :=
  (violation_type v = "no_30_min_break"%string /\ severity v = MAJOR)
  \/ (violation_type v = "invalid_34_hour_restart"%string /\ severity v = CRITICAL).

(** The registry entries read by the split rule are the default ones. *)
Definition split_rule_default : RuleConfig :=
  mkRuleConfig "Sleeper Berth Split" MINOR true
    [("min_first_period"%string, PyFloat 2); ("min_second_period"%string, PyFloat 2)].

Definition restart_rule_default : RuleConfig :=
  mkRuleConfig "34-Hour Restart" CRITICAL true [("min_hours"%string, PyFloat 34)].

(** A validated dictionary: every key holds a value. *)
Definition raw_complete (entry : RawEntry) : Prop :=
  exists st en s,
    raw_start_time entry = Some (Some st)
    /\ raw_end_time entry = Some (Some en)
    /\ raw_duty_status entry = Some (Some s)
    /\ st < en
    /\ In s valid_statuses.



(** The number of violations of one severity. *)
Definition count_severity (s : ViolationSeverity) (vs : list Violation) : Z :=
  Z.of_nat (List.length (filter (fun v => severity_eqb (severity v) s) vs)).

(** ** More sample data *)

Definition lunch_break : LogEntry :=
  entry_of (sample_now - timedelta_hours 5) (sample_now - timedelta_hours 4) OFF_DUTY.

Definition morning_drive : LogEntry :=
  entry_of (sample_now - timedelta_hours 8) (sample_now - timedelta_hours 5) DRIVING.

Definition tomorrow_entry : LogEntry :=
  entry_of (sample_now + timedelta_hours 2) (sample_now + timedelta_hours 4) OFF_DUTY.

Definition sample_team : TeamDrivingCoordinator :=
  snd (create_team new_TeamDrivingCoordinator "T1" "alice" "bob").

(** The update that switches a rule off, and the registry with every rule
    switched off through [update_rule]. *)
Definition disable : RuleUpdates := mkRuleUpdates None None (Some false) None.

Definition silence (self : HOSRuleEngine) : HOSRuleEngine :=
  fold_left (fun registry rule_id => snd (update_rule registry rule_id disable))
    (dict_keys (rules self)) self.

Definition silenced_engine : AdvancedHOSComplianceEngine :=
  mkEngine SEVENTY_EIGHT (HOS_LIMITS SEVENTY_EIGHT) (silence new_HOSRuleEngine).

Definition custom_rule : RuleConfig :=
  mkRuleConfig "Night Driving" MINOR true [("max_hours"%string, PyInt 4)].

(** * Properties *)

(** ** The result monad *)

Lemma bind_ok {A B : Type} (c : result A) (k : A -> result B) (b : B) :
  bind c k = Ok b -> exists a, c = Ok a /\ k a = Ok b.
Proof.
  destruct c as [a | e]; simpl; intros H.
  - exists a; split; [reflexivity | exact H].
  - discriminate H.
Qed.

Lemma bind_raise {A B : Type} (c : result A) (k : A -> result B) (e : exn) :
  c = Raise e -> bind c k = Raise e.
Proof. intros ->; reflexivity. Qed.

Ltac inv_bind H :=
  let a := fresh "a" in
  let Ha := fresh "Ha" in
  apply bind_ok in H; destruct H as [a [Ha H]].

(** ** Lists *)

Lemma filter_nil_existsb {A : Type} (f : A -> bool) (l : list A) :
  filter f l = [] <-> existsb f l = false.
Proof.
  induction l as [| x l IH]; simpl.
  - split; reflexivity.
  - destruct (f x); simpl.
    + split; discriminate.
    + exact IH.
Qed.

Lemma filter_cons_existsb {A : Type} (f : A -> bool) (l : list A) (x : A) (r : list A) :
  filter f l = x :: r -> existsb f l = true.
Proof.
  intros H. destruct (existsb f l) eqn:E; [reflexivity |].
  apply filter_nil_existsb in E. rewrite E in H. discriminate H.
Qed.

(** ** C3: the empty log *)

(** C3, as the engine has it.  For the empty interval list, evaluated at
    a time from which the cycle window can be counted back (the evaluation
    time and the instant [cycle_days] before it are datetimes), the
    evaluation returns a status with [can_be_on_duty = true],
    [needs_rest = false], no violation, no hours used and
    [hours_available] equal to the cycle's hours: 70.00 for the 70/8 cycle,
    60.00 for the 60/7 cycle.  [can_drive] is true exactly when no
    team-driving information is given or its current driver is
    [DRIVER_1]. *)
Theorem C3_empty_log (ct : CycleType) (clock : datetime)
    (current_time : option datetime) (team : option TeamDrivingInfo) :
  let now := effective_time clock current_time in
  representable now ->
  representable (now - timedelta_days (window_days ct)) ->
  exists st,
    calculate_advanced_hos_status (create_compliance_engine ct) clock []
      current_time team = Ok st
    /\ (can_drive st = true
        <-> team = None
            \/ exists info, team = Some info /\ current_driver info = DRIVER_1)
    /\ can_be_on_duty st = true
    /\ needs_rest st = false
    /\ violations st = []
    /\ hours_used_this_cycle st = cents 0
    /\ hours_available st = full_cycle_hours ct
    /\ full_cycle_hours SEVENTY_EIGHT = cents 7000
    /\ cycle_start_date st = now - timedelta_days (window_days ct).
Proof.
  intros now _ _.
  destruct team as [info |].
  - exists (mkHOSStatus (role_eqb (current_driver info) DRIVER_1) true false
              (cents 0) (full_cycle_hours ct) (cents 0) None [] ct
              (now - timedelta_days (window_days ct)) [] (Some info)
              (mkComplianceAnalytics 0 (cents 10000))).
    split.
    + destruct ct; destruct info as [t d1 d2 [] ht hl cn]; reflexivity.
    + cbn [can_drive can_be_on_duty needs_rest violations hours_used_this_cycle
            hours_available cycle_start_date].
      repeat split; try reflexivity.
      * intros H. right. exists info. split; [reflexivity |].
        destruct (current_driver info); [reflexivity | discriminate H ..].
      * intros [H | (info' & H & Hd)]; [discriminate H |].
        injection H as <-. rewrite Hd. reflexivity.
  - exists (mkHOSStatus true true false (cents 0) (full_cycle_hours ct) (cents 0)
              None [] ct (now - timedelta_days (window_days ct)) [] None
              (mkComplianceAnalytics 0 (cents 10000))).
    split; [destruct ct; reflexivity |].
    cbn [can_drive can_be_on_duty needs_rest violations hours_used_this_cycle
          hours_available cycle_start_date].
    repeat split; try reflexivity. intros _. left. reflexivity.
Qed.

Lemma C3_empty_log_now :
  representable sample_now
  /\ representable (sample_now - timedelta_days 8)
  /\ exists st,
       calculate_advanced_hos_status (create_compliance_engine SEVENTY_EIGHT) 0 []
         (Some sample_now) None = Ok st
       /\ can_drive st = true /\ can_be_on_duty st = true /\ needs_rest st = false
       /\ violations st = [] /\ hours_available st = cents 7000.
Proof.
  assert (H1 : representable sample_now)
    by (vm_compute; split; discriminate).
  assert (H2 : representable (sample_now - timedelta_days 8))
    by (vm_compute; split; discriminate).
  split; [exact H1 |]. split; [exact H2 |].
  destruct (C3_empty_log SEVENTY_EIGHT 0 (Some sample_now) None H1 H2)
    as (st & Hst & Hd & Ho & Hn & Hv & _ & Ha & _).
  exists st. split; [exact Hst |].
  split; [apply Hd; left; reflexivity |].
  repeat split; assumption.
Defined.

(** The claim as it is written fails when team-driving information names
    the second driver as the current one: the empty log is evaluated, and
    [can_drive] is false. *)
Lemma C3_empty_log_second_driver :
  exists st,
    calculate_advanced_hos_status (create_compliance_engine SEVENTY_EIGHT) 0 []
      (Some sample_now)
      (Some (mkTeamDrivingInfo "T1" "alice" "bob" DRIVER_2 None "" "")) = Ok st
    /\ can_drive st = false
    /\ can_be_on_duty st = true /\ needs_rest st = false /\ violations st = [].
Proof. eexists. split; [reflexivity |]. repeat split; reflexivity. Qed.

(** ** C2: twelve hours of driving *)

Lemma decimal_hours_12 : decimal_hours 43200000000 = mkDec 120 (-1).
Proof. vm_compute. reflexivity. Qed.

Lemma duration_12h (now : datetime) : now - (now - 43200000000) = 43200000000.
Proof. lia. Qed.

(** With the threshold of the default rule, the float [11.0], the check of
    a 12-hour driving interval stops at [hours - max_hours]. *)
Lemma driving_limit_12h (now : datetime) (cfg : RuleConfig) :
  parameter cfg "max_hours" = Ok (PyFloat 11) ->
  _check_driving_limit_rule cfg (driving_12h now) = Raise TypeError.
Proof.
  intros Hp. unfold _check_driving_limit_rule. rewrite Hp.
  unfold driving_12h, entry_of. simpl.
  unfold entry_duration; simpl.
  rewrite duration_12h, decimal_hours_12. reflexivity.
Qed.

(** Held as an [int], the same threshold yields the one violation the rule
    is written to report, one hour over. *)
Lemma driving_limit_12h_int (now : datetime) :
  _check_driving_limit_rule driving_rule_int (driving_12h now)
  = Ok [new_Violation "driving_over_11" MAJOR (Some (now - timedelta_hours 12))
          (Some (timedelta_hours 1)) true
          "Driver must take 10-hour break before driving again"].
Proof.
  unfold _check_driving_limit_rule, driving_12h, entry_of. simpl.
  unfold entry_duration; simpl.
  rewrite duration_12h, decimal_hours_12. reflexivity.
Qed.

(** C2. A single driving interval of 12 continuous hours should yield
    exactly one [driving_over_11] violation, one hour over, and
    [can_drive = false].  The evaluation instead raises [TypeError], at
    every evaluation time and for every cycle type: the rule compares the
    decimal hours with the float threshold 11.0 and then subtracts the
    float from the decimal. *)
Theorem C2_driving_12h_raises (ct : CycleType) (clock now : datetime)
    (team : option TeamDrivingInfo) :
  calculate_advanced_hos_status (create_compliance_engine ct) clock (driving_12h now)
    (Some now) team = Raise TypeError.
Proof.
  unfold calculate_advanced_hos_status.
  assert (Hs : sorted_by start_time (driving_12h now) = driving_12h now) by reflexivity.
  rewrite Hs.
  assert (Hcs : _calculate_advanced_cycle_start (create_compliance_engine ct)
                  (driving_12h now) now
                = Ok (now - timedelta_days (cycle_days (HOS_LIMITS ct)))).
  { unfold _calculate_advanced_cycle_start, driving_12h. simpl rev.
    change (restart_scan _ _) with (@Ok (option datetime) None).
    simpl. rewrite Z.ltb_irrefl. reflexivity. }
  rewrite Hcs. cbn [bind].
  assert (Hsb : _calculate_sleeper_berth_periods (create_compliance_engine ct)
                  (driving_12h now) now = Ok []) by reflexivity.
  rewrite Hsb. cbn [bind].
  assert (Hf : filter (fun entry => now - timedelta_days (cycle_days (HOS_LIMITS ct))
                                     <=? start_time entry) (driving_12h now)
               = driving_12h now).
  { unfold driving_12h, entry_of. simpl.
    replace (_ <=? _) with true; [reflexivity |].
    symmetry. apply Z.leb_le.
    destruct ct; simpl; unfold timedelta_days, us_per_day; lia. }
  rewrite Hf.
  assert (Hu : _calculate_cycle_hours (driving_12h now) = Ok (mkDec 1200 (-2))).
  { unfold _calculate_cycle_hours, driving_12h, entry_of. simpl.
    unfold entry_duration; simpl.
    rewrite duration_12h, decimal_hours_12. reflexivity. }
  rewrite Hu. cbn [bind].
  assert (Hv : _check_advanced_violations (create_compliance_engine ct) clock
                 (driving_12h now) now [] = Raise TypeError).
  { unfold _check_advanced_violations.
    change (get_all_rules (rule_engine (create_compliance_engine ct)))
      with _load_default_rules.
    unfold _load_default_rules.
    cbn [rules_loop rule_enabled].
    change (_check_rule_violation clock "driving_limit_11_hours" ?c ?e ?n ?p)
      with (_check_driving_limit_rule c e).
    rewrite driving_limit_12h by reflexivity.
    reflexivity. }
  rewrite Hv. reflexivity.
Qed.

(** ** The workflow: C6 and C10 *)

(** [resolve_violation] consults the allow-list of the current status: an
    action outside it fails and leaves the violation as it was. *)
Lemma resolve_violation_guard (self : ViolationResolutionWorkflow) (clock : datetime)
    (v : Violation) (notes who action : string) :
  allowed self (status v) action = false ->
  resolve_violation self clock v notes who action = (false, v).
Proof. intros H. unfold resolve_violation. rewrite H. reflexivity. Qed.

(** From [PENDING], [resolve] is refused and [acknowledge], [dispute] and
    [escalate] are accepted. *)
Lemma pending_actions (clock : datetime) (v : Violation) (notes who : string) :
  status v = PENDING ->
  resolve_violation new_ViolationResolutionWorkflow clock v notes who "resolve"
  = (false, v)
  /\ fst (resolve_violation new_ViolationResolutionWorkflow clock v notes who
            "acknowledge") = true
  /\ fst (resolve_violation new_ViolationResolutionWorkflow clock v notes who
            "escalate") = true
  /\ fst (escalate_violation new_ViolationResolutionWorkflow v notes) = true.
Proof.
  intros H. unfold resolve_violation. rewrite H. repeat split; reflexivity.
Qed.

(** C6. An action outside the allow-list of the current status should fail
    and leave the violation untouched.  [escalate_violation] does not
    consult the allow-list: on a [RESOLVED] violation, whose only allowed
    action is [reopen], it succeeds, moves the violation to [ESCALATED],
    raises its escalation level and appends to its notes. *)
Theorem C6_escalate_violation_unchecked :
  allowed new_ViolationResolutionWorkflow (status resolved_violation) "escalate" = false
  /\ exists v',
       escalate_violation new_ViolationResolutionWorkflow resolved_violation
         "late report" = (true, v')
       /\ status v' = ESCALATED
       /\ escalation_level v' = 1
       /\ resolution_notes v' = ("break taken" ++ newline ++ "Escalated: late report")%string
       /\ v' <> resolved_violation.
Proof.
  split; [reflexivity |].
  eexists; split; [reflexivity |].
  repeat split; try reflexivity.
  intros H; discriminate H.
Qed.



(** ** C9: the driving decision *)


(** ** C8: elapsed hours *)

Lemma forall_upto_spec (n : nat) (P : Z -> bool) :
  forall_upto n P = true -> forall k, 0 <= k <= Z.of_nat n -> P k = true.
Proof.
  unfold forall_upto. intros H k Hk.
  rewrite forallb_forall in H. apply H.
  rewrite <- (Z2Nat.id k) by lia.
  apply in_map. apply in_seq. lia.
Qed.

(** C8, as the engine has it.  Elapsed hours are the binary64 quotient
    [total_seconds() / 3600] read back through [str] into a decimal.  For
    every span that is a whole number of quarter hours, up to the eight
    days of the longest cycle window, the result is exact and is a whole
    number of hundredths. *)
Theorem C8_quarter_hours_exact (k : Z) :
  0 <= k <= 768 ->
  dec_eqb (decimal_hours (k * timedelta_minutes 15)) (cents (25 * k)) = true
  /\ is_hundredths (decimal_hours (k * timedelta_minutes 15)) = true.
Proof.
  intros Hk.
  assert (H : quarter_hours_exact k = true).
  { apply (forall_upto_spec 768); [vm_compute; reflexivity | exact Hk]. }
  unfold quarter_hours_exact in H. apply andb_prop in H. exact H.
Qed.

Lemma C8_twelve_hours :
  0 <= 48 <= 768
  /\ dec_eqb (decimal_hours (48 * timedelta_minutes 15)) (cents (25 * 48)) = true
  /\ is_hundredths (decimal_hours (48 * timedelta_minutes 15)) = true.
Proof.
  split; [lia |]. apply (C8_quarter_hours_exact 48). lia.
Defined.

(** Twenty minutes of driving give a cycle total of 0.3333333333333333,
    sixteen fractional digits; and 0.36 seconds, exactly 0.0001 hours, come
    out as 0.00009999999999999999 after the two float divisions. *)
Lemma C8_not_two_digits :
  _calculate_cycle_hours [driving_20min] = Ok (mkDec 3333333333333333 (-16))
  /\ is_hundredths (mkDec 3333333333333333 (-16)) = false
  /\ decimal_hours 360000 = mkDec 9999999999999999 (-20)
  /\ dec_eqb (decimal_hours 360000) (mkDec 1 (-4)) = false.
Proof. repeat split; vm_compute; reflexivity. Qed.

(** ** Stable sorting by a key *)

Section SortedBy.
Context {A : Type} (key : A -> Z).

Lemma insert_by_perm (x : A) (l : list A) :
  Permutation (insert_by key x l) (x :: l).
Proof.
  induction l as [| y l IH]; simpl.
  - apply Permutation_refl.
  - destruct (key x <=? key y).
    + apply Permutation_refl.
    + apply perm_trans with (y :: x :: l).
      * apply perm_skip. exact IH.
      * apply perm_swap.
Qed.

Lemma sorted_by_perm (l : list A) : Permutation (sorted_by key l) l.
Proof.
  induction l as [| x l IH]; simpl.
  - apply perm_nil.
  - apply perm_trans with (x :: sorted_by key l).
    + apply insert_by_perm.
    + apply perm_skip. exact IH.
Qed.

Lemma sorted_by_In (l : list A) (x : A) : In x (sorted_by key l) <-> In x l.
Proof.
  split; apply Permutation_in.
  - apply sorted_by_perm.
  - apply Permutation_sym, sorted_by_perm.
Qed.

Lemma insert_by_sorted (x : A) (l : list A) :
  StronglySorted (fun a b => key a <= key b) l ->
  StronglySorted (fun a b => key a <= key b) (insert_by key x l).
Proof.
  induction 1 as [| y l Hl IH Hy]; simpl.
  - constructor; constructor.
  - destruct (key x <=? key y) eqn:E.
    + apply Z.leb_le in E. constructor.
      * constructor; assumption.
      * constructor; [exact E |].
        eapply Forall_impl; [| exact Hy]. simpl. intros; lia.
    + apply Z.leb_gt in E. constructor; [exact IH |].
      apply (Permutation_Forall (Permutation_sym (insert_by_perm x l))).
      constructor; [lia | exact Hy].
Qed.

Lemma sorted_by_sorted (l : list A) :
  StronglySorted (fun a b => key a <= key b) (sorted_by key l).
Proof.
  induction l as [| x l IH]; simpl.
  - constructor.
  - apply insert_by_sorted. exact IH.
Qed.
End SortedBy.

(** Stability: among elements with equal keys, the order they came in
    (given by [idx]) is kept. *)
Section Stable.
Context {A : Type} (key : A -> Z) (idx : A -> nat).



End Stable.


(** ** Decimal arithmetic *)

Lemma pow10_pos (k : Z) : 0 <= k -> 0 < 10 ^ k.
Proof. intros; apply Z.pow_pos_nonneg; lia. Qed.

Lemma pow10_split (a b : Z) : 0 <= a -> 0 <= b -> 10 ^ (a + b) = 10 ^ a * 10 ^ b.
Proof. intros; apply Z.pow_add_r; assumption. Qed.

(** Adding back what was subtracted gives the minuend. *)
Lemma dec_add_sub (c u : Decimal) : dec_compare (dec_add u (dec_sub c u)) c = Eq.
Proof.
  unfold dec_compare, dec_add, dec_sub. simpl.
  set (m := Z.min (dexp c) (dexp u)).
  assert (Hm1 : Z.min (dexp u) m = m) by (unfold m; lia).
  assert (Hm2 : Z.min m (dexp c) = m) by (unfold m; lia).
  rewrite Hm1, Hm2, !Z.sub_diag. simpl (10 ^ 0).
  apply Z.compare_eq_iff. ring.
Qed.

(** The difference is negative exactly when the subtrahend is larger. *)
Lemma dec_sub_negative (c u : Decimal) :
  dec_ltb (dec_sub c u) (cents 0) = dec_gtb u c.
Proof.
  unfold dec_gtb, dec_ltb, dec_compare, dec_sub, cents. simpl.
  set (m := Z.min (dexp c) (dexp u)).
  set (x := dcoef c * 10 ^ (dexp c - m)).
  set (y := dcoef u * 10 ^ (dexp u - m)).
  assert (Hp : 0 < 10 ^ (m - Z.min m (-2))) by (apply pow10_pos; lia).
  destruct (Z.compare_spec ((x - y) * 10 ^ (m - Z.min m (-2))) 0) as [H | H | H];
    destruct (Z.compare_spec x y) as [H' | H' | H']; try reflexivity; nia.
Qed.

(** ** The steps of an evaluation that returns *)

Lemma evaluation_steps (self : AdvancedHOSComplianceEngine) (clock : datetime)
    (entries : list LogEntry) (current_time : option datetime)
    (team : option TeamDrivingInfo) (st : HOSStatus) :
  calculate_advanced_hos_status self clock entries current_time team = Ok st ->
  let now := effective_time clock current_time in
  let sorted_entries := sorted_by start_time entries in
  let cycle_entries :=
    filter (fun entry => cycle_start_date st <=? start_time entry) sorted_entries in
  _calculate_advanced_cycle_start self sorted_entries now = Ok (cycle_start_date st)
  /\ _calculate_sleeper_berth_periods self sorted_entries now
     = Ok (sleeper_berth_periods st)
  /\ _calculate_cycle_hours cycle_entries = Ok (hours_used_this_cycle st)
  /\ hours_available st
     = dec_sub (cycle_hours (limits self)) (hours_used_this_cycle st)
  /\ _check_advanced_violations self clock cycle_entries now
       (sleeper_berth_periods st) = Ok (violations st)
  /\ _can_drive_advanced cycle_entries now (violations st) team = Ok (can_drive st)
  /\ _calculate_compliance_analytics sorted_entries (violations st) now
     = Ok (compliance_analytics st).
Proof.
  unfold calculate_advanced_hos_status, effective_time. intros H.
  inv_bind H. inv_bind H. inv_bind H. inv_bind H. inv_bind H. inv_bind H.
  inv_bind H. inv_bind H. inv_bind H.
  injection H as <-. simpl.
  repeat split; assumption.
Qed.

(** ** C1: hours used and hours available *)

(** C1, as the engine has it.  For every valid interval set and every
    engine, the status returned by the evaluation satisfies
    [hours_used_this_cycle + hours_available == cycle_hours];
    [hours_available] is the plain difference
    [cycle_hours - hours_used_this_cycle], which is not clamped: it is
    negative exactly when the hours used exceed the cycle hours. *)
Theorem C1_conservation (self : AdvancedHOSComplianceEngine) (clock : datetime)
    (entries : list LogEntry) (current_time : option datetime)
    (team : option TeamDrivingInfo) (st : HOSStatus) :
  valid_interval_set entries ->
  calculate_advanced_hos_status self clock entries current_time team = Ok st ->
  dec_eqb (dec_add (hours_used_this_cycle st) (hours_available st))
    (cycle_hours (limits self)) = true
  /\ hours_available st
     = dec_sub (cycle_hours (limits self)) (hours_used_this_cycle st)
  /\ dec_ltb (hours_available st) (cents 0)
     = dec_gtb (hours_used_this_cycle st) (cycle_hours (limits self)).
Proof.
  intros _ H. apply evaluation_steps in H.
  destruct H as (_ & _ & _ & Ha & _).
  rewrite Ha. repeat split.
  - unfold dec_eqb. rewrite dec_add_sub. reflexivity.
  - apply dec_sub_negative.
Qed.

Lemma on_duty_63h_valid : valid_interval_set on_duty_63h.
Proof. repeat constructor. Qed.

Lemma on_duty_63h_status :
  calculate_advanced_hos_status (create_compliance_engine SIXTY_SEVEN) 0
    on_duty_63h (Some sample_now) None
  = Ok (mkHOSStatus true true false (cents 6300) (cents (-300)) (cents 0) None []
          SIXTY_SEVEN (sample_now - timedelta_days 7) [] None
          (mkComplianceAnalytics 0 (cents 10000))).
Proof. vm_compute. reflexivity. Qed.

Lemma C1_conservation_63h :
  valid_interval_set on_duty_63h
  /\ calculate_advanced_hos_status (create_compliance_engine SIXTY_SEVEN) 0
       on_duty_63h (Some sample_now) None
     = Ok (mkHOSStatus true true false (cents 6300) (cents (-300)) (cents 0) None []
             SIXTY_SEVEN (sample_now - timedelta_days 7) [] None
             (mkComplianceAnalytics 0 (cents 10000)))
  /\ dec_eqb (dec_add (cents 6300) (cents (-300))) (cents 6000) = true
  /\ cents (-300) = dec_sub (cents 6000) (cents 6300)
  /\ dec_ltb (cents (-300)) (cents 0) = dec_gtb (cents 6300) (cents 6000).
Proof.
  split; [exact on_duty_63h_valid |].
  split; [exact on_duty_63h_status |].
  exact (C1_conservation (create_compliance_engine SIXTY_SEVEN) 0 on_duty_63h
           (Some sample_now) None _ on_duty_63h_valid on_duty_63h_status).
Defined.

(** Seven on-duty days of nine hours in the 60-hour cycle: the set is
    valid, the evaluation returns, and [hours_available] is -3.00. *)
Lemma C1_hours_available_negative :
  valid_interval_set on_duty_63h
  /\ exists st,
       calculate_advanced_hos_status (create_compliance_engine SIXTY_SEVEN) 0
         on_duty_63h (Some sample_now) None = Ok st
       /\ hours_used_this_cycle st = cents 6300
       /\ hours_available st = cents (-300)
       /\ dec_ltb (hours_available st) (cents 0) = true.
Proof.
  split; [exact on_duty_63h_valid |].
  eexists; split; [exact on_duty_63h_status |].
  repeat split.
Qed.

(** ** C7: malformed intervals *)

Lemma daily_totals_closed (entries : list LogEntry) (acc : result unit) :
  fold_left (fun acc entry => _ <- acc ;; _ <- entry_duration entry ;; Ok tt)
    entries acc = Ok tt ->
  acc = Ok tt /\ Forall (fun e => has_end e = true) entries.
Proof.
  revert acc. induction entries as [| e l IH]; simpl; intros acc H.
  - split; [exact H | constructor].
  - apply IH in H. destruct H as [H Hl].
    destruct acc as [[] | x]; [| discriminate H].
    unfold entry_duration in H. simpl in H.
    destruct (end_time e) as [en |] eqn:Ee; [| discriminate H].
    split; [reflexivity |].
    constructor; [unfold has_end; rewrite Ee; reflexivity | exact Hl].
Qed.

(** The analytics are computed only when every interval has an end. *)
Lemma analytics_closed (entries : list LogEntry) (vs : list Violation)
    (now : datetime) (an : ComplianceAnalytics) :
  _calculate_compliance_analytics entries vs now = Ok an ->
  Forall (fun e => has_end e = true) entries.
Proof.
  unfold _calculate_compliance_analytics. intros H.
  inv_bind H. inv_bind H.
  destruct a0. apply daily_totals_closed in Ha0. apply Ha0.
Qed.

(** An evaluation that returns was given closed intervals only. *)
Lemma evaluation_closed (self : AdvancedHOSComplianceEngine) (clock : datetime)
    (entries : list LogEntry) (current_time : option datetime)
    (team : option TeamDrivingInfo) (st : HOSStatus) :
  calculate_advanced_hos_status self clock entries current_time team = Ok st ->
  Forall (fun e => has_end e = true) entries.
Proof.
  intros H. apply evaluation_steps in H.
  destruct H as (_ & _ & _ & _ & _ & _ & Han).
  apply analytics_closed in Han.
  apply (Permutation_Forall (sorted_by_perm start_time entries)). exact Han.
Qed.

Lemma validate_rejects_malformed (e : LogEntry) :
  malformed e -> fst (validate_log_entry (raw_of_entry e)) = false.
Proof.
  unfold malformed, validate_log_entry, raw_of_entry. simpl.
  destruct (end_time e) as [en |]; simpl; intros H.
  - apply Z.leb_le in H. rewrite H. reflexivity.
  - reflexivity.
Qed.

(** C7, as the engine has it.  The helper [validate_log_entry] reports a
    malformed interval (a missing end, or an end not after the start) as
    invalid.  The evaluation does not call it and has no error value of its
    own: for an input list that contains an interval without end it
    produces no status, whatever the other intervals are. *)
Theorem C7_malformed_intervals (self : AdvancedHOSComplianceEngine) (clock : datetime)
    (entries : list LogEntry) (current_time : option datetime)
    (team : option TeamDrivingInfo) (e : LogEntry) :
  In e entries ->
  malformed e ->
  fst (validate_log_entry (raw_of_entry e)) = false
  /\ (end_time e = None ->
      returns (calculate_advanced_hos_status self clock entries current_time team)
      = false).
Proof.
  intros Hin Hm. split; [apply validate_rejects_malformed; exact Hm |].
  intros Hend.
  destruct (calculate_advanced_hos_status self clock entries current_time team)
    as [st | x] eqn:E; [| reflexivity].
  apply evaluation_closed in E.
  rewrite Forall_forall in E. specialize (E e Hin).
  unfold has_end in E. rewrite Hend in E. discriminate E.
Qed.

Lemma C7_open_interval :
  In open_entry [drive_after_rest; open_entry]
  /\ malformed open_entry
  /\ fst (validate_log_entry (raw_of_entry open_entry)) = false
  /\ (end_time open_entry = None ->
      returns (calculate_advanced_hos_status (create_compliance_engine SEVENTY_EIGHT)
                 0 [drive_after_rest; open_entry] (Some sample_now) None)
      = false).
Proof.
  split; [right; left; reflexivity |].
  split; [exact I |].
  apply (C7_malformed_intervals (create_compliance_engine SEVENTY_EIGHT) 0
           [drive_after_rest; open_entry] (Some sample_now) None open_entry).
  - right; left; reflexivity.
  - exact I.
Defined.

(** An interval that ends two hours before it starts is evaluated like any
    other: a status comes back.  An interval without end makes the
    evaluation raise [TypeError]. *)
Lemma C7_backwards_interval_evaluated :
  malformed backwards_entry
  /\ (exists st,
        calculate_advanced_hos_status (create_compliance_engine SEVENTY_EIGHT) 0
          [backwards_entry] (Some sample_now) None = Ok st)
  /\ malformed open_entry
  /\ calculate_advanced_hos_status (create_compliance_engine SEVENTY_EIGHT) 0
       [open_entry] (Some sample_now) None = Raise TypeError.
Proof.
  split; [vm_compute; discriminate |].
  split; [eexists; vm_compute; reflexivity |].
  split; [exact I | vm_compute; reflexivity].
Qed.

(** ** C5: split sleeper-berth periods *)

Lemma mark_split_core (i : nat) (periods : list SleeperBerthPeriod) :
  map period_core (mark_split i periods) = map period_core periods.
Proof.
  revert i. induction periods as [| p l IH]; intros [| i]; simpl;
    try reflexivity.
  rewrite IH. reflexivity.
Qed.

Lemma nth_error_mark_split (i x : nat) (periods : list SleeperBerthPeriod) :
  nth_error (mark_split i periods) x
  = if Nat.eqb x i then option_map set_split (nth_error periods x)
    else nth_error periods x.
Proof.
  revert i x. induction periods as [| p l IH]; intros i x.
  - destruct i, x; simpl; try reflexivity.
    destruct (Nat.eqb x i); reflexivity.
  - destruct i as [| i]; destruct x as [| x]; simpl; try reflexivity.
    apply IH.
Qed.

Lemma core_nth (ps qs : list SleeperBerthPeriod) (x : nat) :
  map period_core ps = map period_core qs ->
  option_map period_core (nth_error ps x) = option_map period_core (nth_error qs x).
Proof.
  intros H. rewrite <- !nth_error_map. rewrite H. reflexivity.
Qed.

Lemma core_fields (p q : SleeperBerthPeriod) :
  period_core p = period_core q ->
  sb_start_time p = sb_start_time q
  /\ sb_end_time p = sb_end_time q
  /\ duration_hours p = duration_hours q
  /\ is_valid_for_restart p = is_valid_for_restart q.
Proof.
  unfold period_core. intros H. inversion H. repeat split; assumption.
Qed.

Lemma split_pair_ok_core (ce : datetime) (c c' n n' : SleeperBerthPeriod) :
  period_core c = period_core c' -> period_core n = period_core n' ->
  split_pair_ok ce c n = split_pair_ok ce c' n'.
Proof.
  intros Hc Hn.
  apply core_fields in Hc. destruct Hc as (_ & _ & Hc & _).
  apply core_fields in Hn. destruct Hn as (Hn1 & _ & Hn & _).
  unfold split_pair_ok. rewrite Hc, Hn, Hn1. reflexivity.
Qed.

Lemma pair_ok_core (ps qs : list SleeperBerthPeriod) (i j : nat) :
  map period_core ps = map period_core qs -> pair_ok ps i j = pair_ok qs i j.
Proof.
  intros H. unfold pair_ok.
  pose proof (core_nth ps qs i H) as Hi. pose proof (core_nth ps qs j H) as Hj.
  destruct (nth_error ps i) as [c |], (nth_error qs i) as [c' |];
    try discriminate Hi; [| reflexivity].
  destruct (nth_error ps j) as [n |], (nth_error qs j) as [n' |];
    try discriminate Hj; [| reflexivity].
  assert (Hi' : period_core c = period_core c') by (simpl in Hi; congruence).
  assert (Hj' : period_core n = period_core n') by (simpl in Hj; congruence).
  destruct (core_fields c c' Hi') as (_ & He & _).
  rewrite He. destruct (sb_end_time c'); [| reflexivity].
  apply split_pair_ok_core; assumption.
Qed.

Lemma marked_by_core (order : list nat) (ps qs : list SleeperBerthPeriod) (x : nat) :
  map period_core ps = map period_core qs ->
  marked_by order ps x = marked_by order qs x.
Proof.
  intros H. induction order as [| i rest IH]; [reflexivity |].
  simpl. destruct rest as [| j rest']; [reflexivity |].
  rewrite IH, (pair_ok_core ps qs i j H). reflexivity.
Qed.

Lemma split_loop_step (i j : nat) (rest : list nat)
    (periods : list SleeperBerthPeriod) :
  split_loop (i :: j :: rest) periods
  = match nth_error periods i, nth_error periods j with
    | Some current_period, Some next_period =>
        match sb_end_time current_period with
        | None => Raise TypeError
        | Some current_end =>
            if split_pair_ok current_end current_period next_period
            then split_loop (j :: rest) (mark_split j (mark_split i periods))
            else split_loop (j :: rest) periods
        end
    | _, _ => Ok periods
    end.
Proof. reflexivity. Qed.

Lemma closed_at_core (ps qs : list SleeperBerthPeriod) (i : nat) :
  map period_core ps = map period_core qs -> closed_at ps i -> closed_at qs i.
Proof.
  intros H Hc q Hq. pose proof (core_nth ps qs i H) as Hi. rewrite Hq in Hi.
  destruct (nth_error ps i) as [p |] eqn:Ep; [| discriminate Hi].
  simpl in Hi. assert (Hpq : period_core p = period_core q) by congruence.
  destruct (core_fields p q Hpq) as (_ & He & _). rewrite <- He.
  apply Hc. exact Ep.
Qed.

(** The loop reads the end of every period but the last of [order].  When
    those periods have one it does not fail; it keeps everything but the
    marks, and marks exactly the positions of the pairs that pass. *)
Lemma split_loop_spec (order : list nat) :
  forall periods,
    Forall (fun i => (i < List.length periods)%nat) order ->
    Forall (closed_at periods) (removelast order) ->
    exists result,
      split_loop order periods = Ok result
      /\ map period_core result = map period_core periods
      /\ forall x,
           option_map split_berth_period (nth_error result x)
           = option_map (fun p => split_berth_period p || marked_by order periods x)
               (nth_error periods x).
Proof.
  induction order as [| i rest IH]; intros periods Hr Hc.
  - exists periods. simpl. repeat split.
    intros x. destruct (nth_error periods x); simpl; [rewrite orb_false_r |];
      reflexivity.
  - destruct rest as [| j rest'].
    + exists periods. simpl. repeat split.
      intros x. destruct (nth_error periods x); simpl; [rewrite orb_false_r |];
        reflexivity.
    + assert (Hi : (i < List.length periods)%nat) by (inversion Hr; assumption).
      assert (Hr' : Forall (fun i => (i < List.length periods)%nat) (j :: rest'))
        by (inversion Hr; assumption).
      assert (Hj : (j < List.length periods)%nat) by (inversion Hr'; assumption).
      destruct (nth_error periods i) as [c |] eqn:Ec;
        [| apply nth_error_None in Ec; lia].
      destruct (nth_error periods j) as [n |] eqn:En;
        [| apply nth_error_None in En; lia].
      change (removelast (i :: j :: rest'))
        with (i :: removelast (j :: rest')) in Hc.
      assert (Hce : sb_end_time c <> None)
        by (inversion Hc as [| ? ? Hci _]; subst; apply Hci; exact Ec).
      assert (Hc' : Forall (closed_at periods) (removelast (j :: rest')))
        by (inversion Hc; assumption).
      destruct (sb_end_time c) as [ce |] eqn:Ece; [| contradiction].
      assert (Hpo : pair_ok periods i j = split_pair_ok ce c n).
      { unfold pair_ok. rewrite Ec, En, Ece. reflexivity. }
      rewrite split_loop_step, Ec, En, Ece.
      destruct (split_pair_ok ce c n) eqn:Eok.
      * set (marked := mark_split j (mark_split i periods)).
        assert (Hcore : map period_core marked = map period_core periods).
        { unfold marked. rewrite !mark_split_core. reflexivity. }
        destruct (IH marked) as (result & Hres & Hrc & Hrf).
        { eapply Forall_impl; [| exact Hr']. simpl. intros a Ha.
          rewrite <- (length_map period_core), Hcore, length_map. exact Ha. }
        { eapply Forall_impl; [| exact Hc']. intros a Ha.
          apply (closed_at_core periods); [symmetry; exact Hcore | exact Ha]. }
        exists result. split; [exact Hres |]. split; [congruence |].
        intros x. rewrite Hrf.
        rewrite (marked_by_core (j :: rest') marked periods x Hcore).
        unfold marked. rewrite !nth_error_mark_split.
        cbn [marked_by]. rewrite Hpo.
        destruct (Nat.eqb x j) eqn:Exj; destruct (Nat.eqb x i) eqn:Exi;
          destruct (nth_error periods x) as [p |]; simpl;
          rewrite ?orb_true_r, ?orb_false_r; reflexivity.
      * destruct (IH periods Hr' Hc') as (result & Hres & Hrc & Hrf).
        exists result. split; [exact Hres |]. split; [exact Hrc |].
        intros x. rewrite Hrf. cbn [marked_by]. rewrite Hpo. reflexivity.
Qed.

(** *** The order of the periods *)

Lemma map_fst_combine_seq {B : Type} (l : list B) (s : nat) :
  map fst (combine (seq s (List.length l)) l) = seq s (List.length l).
Proof.
  revert s. induction l as [| b l IH]; intros s; simpl; [reflexivity |].
  rewrite IH. reflexivity.
Qed.


(** [start_order] lists every position once. *)
Lemma start_order_perm (periods : list SleeperBerthPeriod) :
  Permutation (start_order periods) (seq 0 (List.length periods)).
Proof.
  unfold start_order.
  rewrite <- (map_fst_combine_seq periods 0) at 2.
  apply Permutation_map. apply sorted_by_perm.
Qed.

Lemma start_order_range (periods : list SleeperBerthPeriod) :
  Forall (fun i => (i < List.length periods)%nat) (start_order periods).
Proof.
  apply (Permutation_Forall (Permutation_sym (start_order_perm periods))).
  apply Forall_forall. intros i Hi. apply in_seq in Hi. lia.
Qed.





(** *** Marks and adjacent pairs *)





(** *** The test of the loop is the test of the specification *)

Lemma dec_compare_rescale (c e : Z) (a : Decimal) :
  dec_compare (mkDec (c * 10) (e - 1)) a = dec_compare (mkDec c e) a.
Proof.
  unfold dec_compare. simpl.
  destruct (Z_le_gt_dec (dexp a) (e - 1)) as [H | H].
  - rewrite !Z.min_r by lia.
    replace (c * 10 ^ (e - dexp a)) with (c * 10 * 10 ^ (e - 1 - dexp a));
      [reflexivity |].
    replace (e - dexp a) with (1 + (e - 1 - dexp a)) by lia.
    rewrite pow10_split by lia. change (10 ^ 1) with 10. ring.
  - rewrite !Z.min_l by lia.
    rewrite !Z.sub_diag. change (10 ^ 0) with 1.
    replace (dexp a - (e - 1)) with (1 + (dexp a - e)) by lia.
    rewrite pow10_split by lia. change (10 ^ 1) with 10.
    set (y := 10 ^ (dexp a - e)).
    destruct (Z.compare_spec (c * 10 * 1) (dcoef a * (10 * y)));
      destruct (Z.compare_spec (c * 1) (dcoef a * y)); try reflexivity; lia.
Qed.



Lemma validate_is_loop (periods : list SleeperBerthPeriod) :
  _validate_split_sleeper_berth periods
  = split_loop (start_order periods) periods.
Proof.
  unfold _validate_split_sleeper_berth.
  destruct periods as [| p [| q l]]; reflexivity.
Qed.

(** The validation of closed periods returns them with their marks only
    changed. *)
Lemma closed_everywhere (periods : list SleeperBerthPeriod) (l : list nat) :
  Forall (fun p => sb_end_time p <> None) periods -> Forall (closed_at periods) l.
Proof.
  intros Hc. apply Forall_forall. intros i _ p Hp.
  rewrite Forall_forall in Hc. apply Hc. eapply nth_error_In; exact Hp.
Qed.

Lemma validate_split_core (periods : list SleeperBerthPeriod) :
  Forall (fun p => sb_end_time p <> None) periods ->
  exists result,
    _validate_split_sleeper_berth periods = Ok result
    /\ map period_core result = map period_core periods.
Proof.
  intros Hc. rewrite validate_is_loop.
  destruct (split_loop_spec (start_order periods) periods
              (start_order_range periods) (closed_everywhere periods _ Hc))
    as (result & H1 & H2 & _).
  exists result. auto.
Qed.






(** The periods of three and of five hours are both marked, also when
    derived from the log by the evaluation. *)
Lemma three_and_five_hours_marked :
  _validate_split_sleeper_berth [berth_3h; berth_5h]
  = Ok [set_split berth_3h; set_split berth_5h]
  /\ _calculate_sleeper_berth_periods (create_compliance_engine SEVENTY_EIGHT)
       [entry_of (sample_now - timedelta_hours 30) (sample_now - timedelta_hours 27)
          SLEEPER_BERTH;
        entry_of (sample_now - timedelta_hours 20) (sample_now - timedelta_hours 15)
          SLEEPER_BERTH] sample_now
     = Ok [set_split berth_3h; set_split berth_5h].
Proof. split; vm_compute; reflexivity. Qed.

(** ** C4: the 34-hour restart *)

Lemma nested_scan_closed (all_entries : list LogEntry) (st en : datetime) :
  Forall (fun e => has_end e = true) all_entries ->
  nested_on_duty_scan all_entries st en
  = Ok (negb (existsb (is_nested_on_duty st en) all_entries)).
Proof.
  induction 1 as [| x l Hx _ IH]; simpl; [reflexivity |].
  unfold is_nested_on_duty at 1. unfold has_end in Hx.
  destruct (st <? start_time x); simpl; [| exact IH].
  destruct (end_time x) as [ee |]; [| discriminate Hx].
  destruct ((ee <? en) && is_on_duty x); simpl; [reflexivity | exact IH].
Qed.

Lemma restart_scan_closed (all_entries reversed_entries : list LogEntry) :
  Forall (fun e => has_end e = true) all_entries ->
  restart_scan reversed_entries all_entries
  = Ok match find (is_restart all_entries) reversed_entries with
       | Some e => end_time e
       | None => None
       end.
Proof.
  intros Hc. induction reversed_entries as [| e l IH]; simpl; [reflexivity |].
  unfold is_restart at 1, _is_valid_34_hour_restart.
  destruct (status_is OFF_DUTY e); simpl; [| exact IH].
  destruct (end_time e) as [en |] eqn:Ee; [| exact IH].
  rewrite Z.leb_antisym.
  destruct (en - start_time e <? _); simpl; [exact IH |].
  rewrite (nested_scan_closed all_entries (start_time e) en Hc). simpl.
  destruct (existsb _ all_entries); simpl; [exact IH |].
  rewrite Ee. reflexivity.
Qed.

Lemma find_first {A : Type} (P : A -> bool) (l : list A) (r : A) :
  find P l = Some r ->
  exists before after,
    l = before ++ r :: after /\ P r = true /\ Forall (fun x => P x = false) before.
Proof.
  induction l as [| x l IH]; simpl; [discriminate |].
  destruct (P x) eqn:Px.
  - intros H. injection H as <-. exists [], l. repeat split; [exact Px | constructor].
  - intros H. destruct (IH H) as (before & after & -> & Hr & Hb).
    exists (x :: before), after. repeat split; [exact Hr |].
    constructor; assumption.
Qed.

Lemma find_none_all {A : Type} (P : A -> bool) (l : list A) :
  find P l = None -> Forall (fun x => P x = false) l.
Proof.
  induction l as [| x l IH]; simpl; [constructor |].
  destruct (P x) eqn:Px; [discriminate |].
  intros H. constructor; [exact Px | exact (IH H)].
Qed.

Lemma existsb_In_equiv {A : Type} (f : A -> bool) (l m : list A) :
  (forall x, In x l <-> In x m) -> existsb f l = existsb f m.
Proof.
  intros H.
  destruct (existsb f l) eqn:El; destruct (existsb f m) eqn:Em; try reflexivity.
  - apply existsb_exists in El. destruct El as (x & Hx & Hf).
    assert (Ht : existsb f m = true) by (apply existsb_exists; exists x; split;
      [apply H; exact Hx | exact Hf]).
    congruence.
  - apply existsb_exists in Em. destruct Em as (x & Hx & Hf).
    assert (Ht : existsb f l = true) by (apply existsb_exists; exists x; split;
      [apply H; exact Hx | exact Hf]).
    congruence.
Qed.

Lemma is_nested_on_duty_iff (st en : datetime) (x : LogEntry) :
  is_nested_on_duty st en x = true <-> nested_on_duty st en x.
Proof.
  unfold is_nested_on_duty, nested_on_duty. split.
  - intros H. apply andb_prop in H. destruct H as [H1 H2].
    destruct (end_time x) as [ee |]; [| discriminate H2].
    apply andb_prop in H2. destruct H2 as [H2 H3].
    split; [exact H3 |]. split; [apply Z.ltb_lt; exact H1 |].
    exists ee. split; [reflexivity | apply Z.ltb_lt; exact H2].
  - intros (H3 & H1 & ee & -> & H2).
    apply Z.ltb_lt in H1, H2. rewrite H1, H2, H3. reflexivity.
Qed.

(** The test of the scan is the restart of the specification. *)
Lemma is_restart_iff (entries sorted_entries : list LogEntry) (e : LogEntry) :
  (forall x, In x sorted_entries <-> In x entries) ->
  is_restart sorted_entries e = true
  <-> exists en, off_duty_restart entries e en.
Proof.
  intros Hin. unfold is_restart, off_duty_restart.
  split.
  - intros H. apply andb_prop in H. destruct H as [Hs H].
    destruct (end_time e) as [en |]; [| discriminate H].
    rewrite (existsb_In_equiv _ sorted_entries entries Hin) in H.
    apply andb_prop in H. destruct H as [Hd Hn].
    exists en. split; [exact Hs |]. split; [reflexivity |].
    split; [apply Z.leb_le; exact Hd |].
    intros x Hx Hnest. apply is_nested_on_duty_iff in Hnest.
    apply negb_true_iff in Hn.
    assert (Ht : existsb (is_nested_on_duty (start_time e) en) entries = true)
      by (apply existsb_exists; exists x; auto).
    congruence.
  - intros (en & Hs & -> & Hd & Hn). rewrite Hs, andb_true_l.
    rewrite (existsb_In_equiv _ sorted_entries entries Hin).
    apply Z.leb_le in Hd. rewrite Hd, andb_true_l. apply negb_true_iff.
    destruct (existsb _ entries) eqn:E; [| reflexivity].
    apply existsb_exists in E. destruct E as (x & Hx & Hnest).
    apply is_nested_on_duty_iff in Hnest. exfalso. exact (Hn x Hx Hnest).
Qed.

Lemma sorted_before (key : LogEntry -> Z) (before after : list LogEntry)
    (r x : LogEntry) :
  StronglySorted (fun a b => key a <= key b) (before ++ r :: after) ->
  In x before -> key x <= key r.
Proof.
  induction before as [| b before IH]; simpl; intros Hs Hx; [contradiction |].
  inversion Hs as [| ? ? Hs' Hb]; subst.
  destruct Hx as [-> | Hx].
  - rewrite Forall_forall in Hb. apply Hb. apply in_or_app. right. left. reflexivity.
  - apply IH; assumption.
Qed.

(** The cycle starts at the end of the most recent restart, or at the
    beginning of the window when that is later. *)
Lemma cycle_start_most_recent (self : AdvancedHOSComplianceEngine)
    (entries : list LogEntry) (now : datetime) (e : LogEntry) (en : datetime) :
  Forall (fun x => has_end x = true) entries ->
  In e entries ->
  off_duty_restart entries e en ->
  (forall e' en', In e' entries -> off_duty_restart entries e' en' ->
                  start_time e' < start_time e \/ e' = e) ->
  _calculate_advanced_cycle_start self (sorted_by start_time entries) now
  = Ok (Z.max en (now - timedelta_days (cycle_days (limits self)))).
Proof.
  intros Hc He Hr Hlast.
  set (s := sorted_by start_time entries).
  assert (Hin : forall x, In x s <-> In x entries) by (intros x; apply sorted_by_In).
  assert (Hcs : Forall (fun x => has_end x = true) s).
  { apply (Permutation_Forall (Permutation_sym (sorted_by_perm start_time entries))).
    exact Hc. }
  assert (Hes : is_restart s e = true)
    by (apply (is_restart_iff entries s e Hin); exists en; exact Hr).
  unfold _calculate_advanced_cycle_start.
  destruct s as [| x0 s0] eqn:Es.
  { exfalso. apply (proj2 (Hin e)) in He. exact He. }
  rewrite <- Es in *. rewrite (restart_scan_closed s (rev s) Hcs).
  cbn [bind].
  destruct (find (is_restart s) (rev s)) as [r |] eqn:Ef.
  - apply find_first in Ef. destruct Ef as (before & after & Hrev & Hr' & Hb).
    assert (Hs : s = rev after ++ r :: rev before).
    { rewrite <- (rev_involutive s), Hrev, rev_app_distr. simpl.
      rewrite <- app_assoc. reflexivity. }
    assert (Hrin : In r entries).
    { apply Hin. rewrite Hs. apply in_or_app. right. left. reflexivity. }
    assert (Hre : r = e).
    { apply (is_restart_iff entries s r Hin) in Hr'. destruct Hr' as (en' & Hr').
      destruct (Hlast r en' Hrin Hr') as [Hlt | Heq]; [| exact Heq].
      exfalso.
      assert (Hpos : In e (rev after) \/ e = r \/ In e (rev before)).
      { apply (proj2 (Hin e)) in He. rewrite Hs in He.
        apply in_app_or in He. destruct He as [He | [He | He]]; auto. }
      destruct Hpos as [Hp | [Hp | Hp]].
      - pose proof (sorted_by_sorted start_time entries) as Hsorted.
        fold s in Hsorted. rewrite Hs in Hsorted.
        pose proof (sorted_before start_time _ _ r e Hsorted Hp). lia.
      - subst. lia.
      - apply in_rev in Hp. rewrite Forall_forall in Hb.
        specialize (Hb e Hp). congruence. }
    subst r. destruct Hr as (_ & Hend & _). rewrite Hend.
    f_equal. destruct (en <? _) eqn:E; [apply Z.ltb_lt in E | apply Z.ltb_ge in E]; lia.
  - apply find_none_all in Ef. rewrite Forall_forall in Ef.
    assert (Hf : is_restart s e = false).
    { apply Ef. apply in_rev. rewrite rev_involutive. apply Hin. exact He. }
    congruence.
Qed.

Lemma hours_loop_sum (counted : LogEntry -> bool) (entries : list LogEntry) :
  forall total d,
    hours_loop counted entries total = Ok d ->
    d = fold_left
          (fun total entry =>
             match end_time entry with
             | Some en => Decimal_add total (decimal_hours (en - start_time entry))
             | None => total
             end)
          (filter counted entries) total.
Proof.
  induction entries as [| e l IH]; simpl; intros total d H.
  - injection H as <-. reflexivity.
  - destruct (counted e); [| exact (IH _ _ H)].
    unfold entry_duration in H. simpl.
    destruct (end_time e); [| discriminate H].
    simpl in H. exact (IH _ _ H).
Qed.

(** The hours used are the hours of the on-duty intervals handed over. *)
Lemma cycle_hours_sum (cycle_entries : list LogEntry) (d : Decimal) :
  _calculate_cycle_hours cycle_entries = Ok d ->
  d = sum_hours (filter is_on_duty cycle_entries).
Proof. apply hours_loop_sum. Qed.

Lemma off_duty_36h_restart (others : list LogEntry) :
  Forall (fun x => ~ nested_on_duty (start_time off_duty_36h)
                      (sample_now - timedelta_hours 2) x) others ->
  off_duty_restart (off_duty_36h :: others) off_duty_36h
    (sample_now - timedelta_hours 2).
Proof.
  intros Ho. split; [reflexivity |]. split; [reflexivity |].
  split; [vm_compute; discriminate |].
  intros x [<- | Hx].
  - intros (Hon & _). discriminate Hon.
  - rewrite Forall_forall in Ho. apply Ho. exact Hx.
Qed.

Lemma drive_after_rest_not_nested :
  ~ nested_on_duty (start_time off_duty_36h) (sample_now - timedelta_hours 2)
      drive_after_rest.
Proof.
  intros (_ & _ & ee & Hee & Hlt). injection Hee as <-.
  vm_compute in Hlt. discriminate Hlt.
Qed.

Lemma rest_then_drive_status :
  calculate_advanced_hos_status (create_compliance_engine SEVENTY_EIGHT) 0
    [off_duty_36h; drive_after_rest] (Some sample_now) None
  = Ok (mkHOSStatus true true false (cents 200) (cents 6800) (mkDec 20 (-1))
          (Some (sample_now - timedelta_hours 2)) [] SEVENTY_EIGHT
          (sample_now - timedelta_hours 2) [] None
          (mkComplianceAnalytics 0 (cents 10000))).
Proof. vm_compute. reflexivity. Qed.

(** Every sleeper-berth interval of the log gives one period, in the
    order of the log, with the interval's start and end and the decimal
    hours between them; the period is valid for a restart when those hours
    reach the minimum of the limits. *)
Lemma sleeper_periods_match (self : AdvancedHOSComplianceEngine)
    (log_entries : list LogEntry) (now : datetime)
    (periods : list SleeperBerthPeriod) :
  Forall (fun e => has_end e = true) log_entries ->
  _calculate_sleeper_berth_periods self log_entries now = Ok periods ->
  Forall2
    (fun p x =>
       sb_start_time p = start_time x
       /\ sb_end_time p = end_time x
       /\ (is_valid_for_restart p = true
           <-> dec_leb (min_34_hour_restart_hours (limits self)) (duration_hours p)
               = true)
       /\ forall en, end_time x = Some en ->
                     duration_hours p = decimal_hours (en - start_time x))
    periods (filter (status_is SLEEPER_BERTH) log_entries).
Proof.
  intros Hc. unfold _calculate_sleeper_berth_periods.
  set (xs := filter (status_is SLEEPER_BERTH) log_entries).
  intros H.
  assert (Hin : Forall (fun p => sb_end_time p <> None)
                  (map (sleeper_period_of self now) xs)).
  { apply Forall_forall. intros p Hp.
    apply in_map_iff in Hp. destruct Hp as (x & <- & Hx).
    apply filter_In in Hx. destruct Hx as [Hx _].
    rewrite Forall_forall in Hc. specialize (Hc x Hx). unfold has_end in Hc.
    simpl. destruct (end_time x); [discriminate | discriminate Hc]. }
  destruct (validate_split_core _ Hin) as (result & Hres & Hcore).
  rewrite Hres in H. injection H as <-. clear Hres Hin.
  revert result Hcore. induction xs as [| x xs IH]; intros result Hcore.
  - destruct result; [constructor | discriminate Hcore].
  - destruct result as [| p result]; [discriminate Hcore |].
    assert (Hpc : period_core p = period_core (sleeper_period_of self now x))
      by exact (f_equal (hd (period_core p)) Hcore).
    assert (Hrest : map period_core result
                    = map period_core (map (sleeper_period_of self now) xs))
      by exact (f_equal (@tl _) Hcore).
    constructor; [| apply IH; exact Hrest].
    destruct (core_fields _ _ Hpc) as (Hst & Hen & Hdur & Hval).
    split; [exact Hst |]. split; [exact Hen |].
    split.
    + rewrite Hval, Hdur. simpl. unfold dec_geb. reflexivity.
    + intros en Een. rewrite Hdur. simpl. rewrite Een. reflexivity.
Qed.

(** For an interval of a whole number of minutes, up to three days, the
    decimal hours reach 34.00 exactly when the interval lasts 34 hours. *)
Lemma flag_agrees_minutes (m : Z) :
  0 <= m <= 4320 ->
  dec_leb (cents 3400) (decimal_hours (timedelta_minutes m)) = true
  <-> timedelta_hours 34 <= timedelta_minutes m.
Proof.
  intros Hm.
  assert (H : flag_agrees m = true)
    by (apply (forall_upto_spec 4320); [vm_compute; reflexivity | exact Hm]).
  unfold flag_agrees in H. apply Bool.eqb_prop in H.
  rewrite H. apply Z.leb_le.
Qed.

(** C4, as the engine has it.  When the log (of closed intervals) contains
    an off-duty interval of 34 hours or more (36 hours, say) with no
    driving or on-duty interval strictly nested in it, no such interval
    starts later, and the beginning of the window, [now - cycle_days], is a
    date of the calendar, the cycle start becomes that interval's end
    time, never earlier than [now - cycle_days]; in the status returned,
    the hours used this cycle are those of the driving and on-duty
    intervals that start at or after the cycle start, added in the order
    of their start times, 0.00 when there are none.  The flag
    [is_valid_for_restart] belongs to the sleeper-berth periods: there is
    one for each sleeper-berth interval of the log, in the order of the
    start times, with the interval's start and end and the decimal hours
    between them as its duration, and it is flagged exactly when that
    duration reaches the minimum of the limits; with the minimum at 34.00,
    for an interval of a whole number of minutes up to three days, exactly
    when the interval lasts 34 hours or more. *)
Theorem C4_restart_resets_cycle (self : AdvancedHOSComplianceEngine)
    (clock : datetime) (entries : list LogEntry) (current_time : option datetime)
    (team : option TeamDrivingInfo) (e : LogEntry) (en : datetime) :
  Forall (fun x => has_end x = true) entries ->
  In e entries ->
  off_duty_restart entries e en ->
  (forall e' en', In e' entries -> off_duty_restart entries e' en' ->
                  start_time e' < start_time e \/ e' = e) ->
  let now := effective_time clock current_time in
  let window_start := now - timedelta_days (cycle_days (limits self)) in
  representable window_start ->
  let cycle_start := Z.max en window_start in
  _calculate_advanced_cycle_start self (sorted_by start_time entries) now
  = Ok cycle_start
  /\ forall st,
       calculate_advanced_hos_status self clock entries current_time team = Ok st ->
       cycle_start_date st = cycle_start
       /\ hours_used_this_cycle st
          = sum_hours
              (filter is_on_duty
                 (filter (fun x => cycle_start <=? start_time x)
                    (sorted_by start_time entries)))
       /\ ((forall x, In x entries -> is_on_duty x = true ->
                      start_time x < cycle_start) ->
           hours_used_this_cycle st = cents 0)
       /\ Forall2
            (fun p x =>
               sb_start_time p = start_time x
               /\ sb_end_time p = end_time x
               /\ (is_valid_for_restart p = true
                   <-> dec_leb (min_34_hour_restart_hours (limits self))
                         (duration_hours p) = true)
               /\ forall ee,
                    end_time x = Some ee ->
                    duration_hours p = decimal_hours (ee - start_time x)
                    /\ (min_34_hour_restart_hours (limits self) = cents 3400 ->
                        forall m,
                          0 <= m <= 4320 ->
                          ee - start_time x = timedelta_minutes m ->
                          (is_valid_for_restart p = true
                           <-> timedelta_hours 34 <= ee - start_time x)))
            (sleeper_berth_periods st)
            (filter (status_is SLEEPER_BERTH) (sorted_by start_time entries)).
Proof.
  intros Hc He Hr Hlast now window_start _ cycle_start.
  pose proof (cycle_start_most_recent self entries now e en Hc He Hr Hlast) as Hstart.
  split; [exact Hstart |].
  intros st Hst.
  apply evaluation_steps in Hst.
  destruct Hst as (Hcs & Hsb & Hu & _).
  fold now in Hcs, Hsb. rewrite Hstart in Hcs.
  injection Hcs as Hcs. fold window_start cycle_start in Hcs.
  rewrite <- Hcs in Hu. apply cycle_hours_sum in Hu.
  split; [symmetry; exact Hcs |].
  split; [exact Hu |].
  split.
  - intros Hnone. rewrite Hu.
    replace (filter is_on_duty _) with (@nil LogEntry); [reflexivity |].
    symmetry. apply filter_nil_existsb.
    destruct (existsb is_on_duty _) eqn:E; [| reflexivity].
    apply existsb_exists in E. destruct E as (x & Hx & Hon).
    apply filter_In in Hx. destruct Hx as [Hx Hge].
    apply sorted_by_In in Hx. apply Z.leb_le in Hge.
    specialize (Hnone x Hx Hon). lia.
  - assert (Hcs' : Forall (fun x => has_end x = true) (sorted_by start_time entries)).
    { apply (Permutation_Forall (Permutation_sym (sorted_by_perm start_time entries))).
      exact Hc. }
    pose proof (sleeper_periods_match self _ _ _ Hcs' Hsb) as Hp.
    eapply Forall2_impl; [| exact Hp]. simpl.
    intros p x (Hs & Hen & Hv & Hd).
    split; [exact Hs |]. split; [exact Hen |]. split; [exact Hv |].
    intros ee Hee. split; [exact (Hd ee Hee) |].
    intros Hmin m Hm Hdur.
    rewrite Hv, Hmin, (Hd ee Hee), Hdur. apply flag_agrees_minutes. exact Hm.
Qed.

Lemma rest_log_closed : Forall (fun x => has_end x = true) rest_log.
Proof. repeat constructor. Qed.

Lemma rest_log_restart :
  off_duty_restart rest_log off_duty_36h (sample_now - timedelta_hours 2).
Proof.
  apply off_duty_36h_restart. constructor; [| constructor; [| constructor]].
  - exact drive_after_rest_not_nested.
  - intros (Hon & _). discriminate Hon.
Qed.

Lemma rest_log_most_recent :
  forall e' en',
    In e' rest_log ->
    off_duty_restart rest_log e' en' ->
    start_time e' < start_time off_duty_36h \/ e' = off_duty_36h.
Proof.
  intros e' en' [<- | [<- | [<- | []]]] H; [right; reflexivity | |];
    destruct H as (H & _); discriminate H.
Qed.

Lemma rest_log_window : representable (sample_now - timedelta_days 8).
Proof. vm_compute. split; discriminate. Qed.

Lemma rest_log_status :
  calculate_advanced_hos_status (create_compliance_engine SEVENTY_EIGHT) 0
    rest_log (Some sample_now) None
  = Ok (mkHOSStatus true true false (cents 200) (cents 6800) (mkDec 20 (-1))
          (Some (sample_now - timedelta_hours 2)) [] SEVENTY_EIGHT
          (sample_now - timedelta_hours 2)
          [mkSleeperBerthPeriod (sample_now - timedelta_hours 80)
             (Some (sample_now - timedelta_hours 44)) (mkDec 360 (-1)) true
             (mkDec 360 (-1)) false]
          None (mkComplianceAnalytics 0 (cents 10000))).
Proof. vm_compute. reflexivity. Qed.

(** Thirty-six hours in the sleeper berth, thirty-six hours off duty, then
    two hours of driving: the cycle starts at the end of the off-duty
    rest, two hours are used, and the one sleeper-berth period is
    flagged. *)
Lemma C4_rest_then_drive :
  Forall (fun x => has_end x = true) rest_log
  /\ In off_duty_36h rest_log
  /\ off_duty_restart rest_log off_duty_36h (sample_now - timedelta_hours 2)
  /\ representable (sample_now - timedelta_days 8)
  /\ _calculate_advanced_cycle_start (create_compliance_engine SEVENTY_EIGHT)
       (sorted_by start_time rest_log) sample_now
     = Ok (sample_now - timedelta_hours 2)
  /\ exists st,
       calculate_advanced_hos_status (create_compliance_engine SEVENTY_EIGHT) 0
         rest_log (Some sample_now) None = Ok st
       /\ cycle_start_date st = sample_now - timedelta_hours 2
       /\ hours_used_this_cycle st = cents 200
       /\ exists p,
            sleeper_berth_periods st = [p]
            /\ sb_start_time p = start_time sleeper_36h
            /\ sb_end_time p = end_time sleeper_36h
            /\ is_valid_for_restart p = true.
Proof.
  split; [exact rest_log_closed |].
  split; [left; reflexivity |].
  split; [exact rest_log_restart |].
  split; [exact rest_log_window |].
  destruct (C4_restart_resets_cycle (create_compliance_engine SEVENTY_EIGHT) 0
              rest_log (Some sample_now) None
              off_duty_36h (sample_now - timedelta_hours 2)
              rest_log_closed (or_introl eq_refl)
              rest_log_restart rest_log_most_recent rest_log_window)
    as (Hstart & Hst).
  split; [exact Hstart |].
  eexists. split; [exact rest_log_status |].
  destruct (Hst _ rest_log_status) as (H1 & H2 & _ & H4).
  split; [exact H1 |]. split; [exact H2 |].
  eexists. split; [reflexivity |].
  repeat split; reflexivity.
Defined.

(** A single rest of 36 hours resets the cycle, yet nothing is flagged
    [is_valid_for_restart]: the evaluation derives no sleeper-berth period
    from an off-duty interval.  And of two such rests, the cycle starts at
    the end of the later one, not of the earlier one. *)
Lemma C4_off_duty_rest_not_flagged :
  off_duty_restart [off_duty_36h] off_duty_36h (sample_now - timedelta_hours 2)
  /\ (exists st,
        calculate_advanced_hos_status (create_compliance_engine SEVENTY_EIGHT) 0
          [off_duty_36h] (Some sample_now) None = Ok st
        /\ cycle_start_date st = sample_now - timedelta_hours 2
        /\ sleeper_berth_periods st = []
        /\ ~ exists p, In p (sleeper_berth_periods st)
                       /\ is_valid_for_restart p = true)
  /\ off_duty_restart [earlier_off_duty_36h; off_duty_36h] earlier_off_duty_36h
       (sample_now - timedelta_hours 44)
  /\ (exists st,
        calculate_advanced_hos_status (create_compliance_engine SEVENTY_EIGHT) 0
          [earlier_off_duty_36h; off_duty_36h] (Some sample_now) None = Ok st
        /\ cycle_start_date st <> sample_now - timedelta_hours 44).
Proof.
  split; [apply off_duty_36h_restart; constructor |].
  split.
  { eexists. split; [vm_compute; reflexivity |].
    split; [reflexivity |]. split; [reflexivity |].
    intros (p & Hp & _). exact Hp. }
  split.
  { split; [reflexivity |]. split; [reflexivity |].
    split; [vm_compute; discriminate |].
    intros x [<- | [<- | []]] (Hon & _); discriminate Hon. }
  eexists. split; [vm_compute; reflexivity |].
  vm_compute. discriminate.
Qed.

(** ** When the evaluation returns *)
















(** * Further properties of the module *)

(** ** Comparisons of decimals with numbers *)

Lemma dec_compare_int (a : Decimal) (z : Z) :
  dec_compare_num a (PyInt z)
  = (dcoef a * 10 ^ (dexp a - Z.min (dexp a) 0) ?= z * 10 ^ (0 - Z.min (dexp a) 0)).
Proof. reflexivity. Qed.

Lemma dec_ge_num_int_mono (a : Decimal) (z1 z2 : Z) :
  z1 <= z2 ->
  dec_ge_num a (PyInt z2) = true -> dec_ge_num a (PyInt z1) = true.
Proof.
  intros Hz. unfold dec_ge_num. rewrite !dec_compare_int.
  assert (Hp : 0 < 10 ^ (0 - Z.min (dexp a) 0)) by (apply pow10_pos; lia).
  set (x := dcoef a * 10 ^ (dexp a - Z.min (dexp a) 0)) in *.
  set (p := 10 ^ (0 - Z.min (dexp a) 0)) in *.
  destruct (Z.compare_spec x (z2 * p)); destruct (Z.compare_spec x (z1 * p));
    try reflexivity; try discriminate; nia.
Qed.

(** Comparing with the float of a whole number is comparing with the
    number. *)
Lemma dec_compare_float_int (a : Decimal) (z : Z) :
  dec_compare_num a (PyFloat (inject_Z z)) = dec_compare_num a (PyInt z).
Proof.
  rewrite dec_compare_int. unfold dec_compare_num. cbn [Qnum Qden inject_Z].
  destruct (0 <=? dexp a) eqn:E.
  - apply Z.leb_le in E. rewrite Z.min_r by lia.
    replace (dexp a - 0) with (dexp a) by lia.
    replace (0 - 0) with 0 by lia. change (10 ^ 0) with 1.
    f_equal; ring.
  - apply Z.leb_gt in E. rewrite Z.min_l by lia.
    replace (dexp a - dexp a) with 0 by lia.
    replace (0 - dexp a) with (- dexp a) by lia. change (10 ^ 0) with 1.
    f_equal; ring.
Qed.

Lemma dec_compare_antisym (a b : Decimal) :
  dec_compare b a = CompOpp (dec_compare a b).
Proof.
  unfold dec_compare. rewrite (Z.min_comm (dexp b) (dexp a)).
  apply Z.compare_antisym.
Qed.

(** ** Eligibility *)

Lemma critical_is_major_or_critical (vs : list Violation) :
  existsb is_critical vs = true -> existsb is_major_or_critical vs = true.
Proof.
  intros H. apply existsb_exists in H. destruct H as (v & Hv & Hc).
  apply existsb_exists. exists v. split; [exact Hv |].
  unfold is_major_or_critical. unfold is_critical in Hc. rewrite Hc.
  apply orb_true_r.
Qed.

(** [can_be_on_duty] is false exactly when a critical violation is present
    or the on-duty hours since the last 10-hour break reach 14; the
    team-driving information plays no part in it. *)
Theorem can_be_on_duty_decision (cycle_entries : list LogEntry)
    (current_time : datetime) (vs : list Violation)
    (team : option TeamDrivingInfo) (o : Decimal) :
  _calculate_on_duty_hours_since_break cycle_entries current_time = Ok o ->
  _can_be_on_duty_advanced cycle_entries current_time vs team
  = Ok (negb (existsb is_critical vs || dec_ge_num o (PyInt 14))).
Proof.
  intros Ho. unfold _can_be_on_duty_advanced.
  destruct (filter is_critical vs) as [| v r] eqn:Hc.
  - apply filter_nil_existsb in Hc. rewrite Hc, Ho. simpl.
    destruct (dec_ge_num o (PyInt 14)); reflexivity.
  - apply filter_cons_existsb in Hc. rewrite Hc. reflexivity.
Qed.

Lemma can_be_on_duty_after_rest :
  _calculate_on_duty_hours_since_break [off_duty_36h; drive_after_rest] sample_now
  = Ok (mkDec 200 (-2))
  /\ _can_be_on_duty_advanced [off_duty_36h; drive_after_rest] sample_now [] None
     = Ok true.
Proof.
  split; [vm_compute; reflexivity |].
  apply (can_be_on_duty_decision [off_duty_36h; drive_after_rest] sample_now []
           None (mkDec 200 (-2))).
  vm_compute; reflexivity.
Defined.

(** [needs_rest] is true exactly when a major or critical violation is
    present, or the driving hours since the last break reach 10, or the
    on-duty hours since the last 10-hour break reach 13. *)
Theorem needs_rest_decision (cycle_entries : list LogEntry)
    (current_time : datetime) (vs : list Violation) (d o : Decimal) :
  _calculate_driving_hours_since_break cycle_entries current_time = Ok d ->
  _calculate_on_duty_hours_since_break cycle_entries current_time = Ok o ->
  _needs_rest_advanced cycle_entries current_time vs
  = Ok (existsb is_major_or_critical vs
        || dec_ge_num d (PyInt 10) || dec_ge_num o (PyInt 13)).
Proof.
  intros Hd Ho. unfold _needs_rest_advanced.
  destruct (filter is_major_or_critical vs) as [| v r] eqn:Hc.
  - apply filter_nil_existsb in Hc. rewrite Hc, Hd, Ho. simpl.
    destruct (_ || _); reflexivity.
  - apply filter_cons_existsb in Hc. rewrite Hc. reflexivity.
Qed.

Lemma needs_rest_after_rest :
  _calculate_driving_hours_since_break [off_duty_36h; drive_after_rest] sample_now
  = Ok (mkDec 200 (-2))
  /\ _calculate_on_duty_hours_since_break [off_duty_36h; drive_after_rest] sample_now
     = Ok (mkDec 200 (-2))
  /\ _needs_rest_advanced [off_duty_36h; drive_after_rest] sample_now [] = Ok false.
Proof.
  split; [vm_compute; reflexivity |].
  split; [vm_compute; reflexivity |].
  apply (needs_rest_decision [off_duty_36h; drive_after_rest] sample_now []
           (mkDec 200 (-2)) (mkDec 200 (-2))); vm_compute; reflexivity.
Defined.

(** The three flags of an evaluation that returns. *)
Lemma evaluation_flags (self : AdvancedHOSComplianceEngine) (clock : datetime)
    (entries : list LogEntry) (current_time : option datetime)
    (team : option TeamDrivingInfo) (st : HOSStatus) :
  calculate_advanced_hos_status self clock entries current_time team = Ok st ->
  let now := effective_time clock current_time in
  let cycle_entries :=
    filter (fun entry => cycle_start_date st <=? start_time entry)
      (sorted_by start_time entries) in
  _can_drive_advanced cycle_entries now (violations st) team = Ok (can_drive st)
  /\ _can_be_on_duty_advanced cycle_entries now (violations st) team
     = Ok (can_be_on_duty st)
  /\ _needs_rest_advanced cycle_entries now (violations st) = Ok (needs_rest st)
  /\ team_driving_info st = team
  /\ cycle_type st = engine_cycle_type self.
Proof.
  unfold calculate_advanced_hos_status, effective_time. intros H.
  inv_bind H. inv_bind H. inv_bind H. inv_bind H. inv_bind H. inv_bind H.
  inv_bind H. inv_bind H. inv_bind H.
  injection H as <-. simpl.
  repeat split; assumption.
Qed.

Lemma flags_consistent (cycle_entries : list LogEntry) (now : datetime)
    (vs : list Violation) (team : option TeamDrivingInfo) (b1 b2 b3 : bool) :
  _can_drive_advanced cycle_entries now vs team = Ok b1 ->
  _can_be_on_duty_advanced cycle_entries now vs team = Ok b2 ->
  _needs_rest_advanced cycle_entries now vs = Ok b3 ->
  (b1 = true -> b2 = true)
  /\ (b2 = false -> b3 = true)
  /\ (b1 = false -> not_current_driver team = false -> b3 = true).
Proof.
  unfold _can_drive_advanced, _can_be_on_duty_advanced, _needs_rest_advanced.
  destruct (filter is_critical vs) as [| v r] eqn:Hc.
  - (* no critical violation *)
    destruct (_calculate_on_duty_hours_since_break cycle_entries now) as [o | y];
      cbn [bind]; [| intros _ H2; discriminate H2].
    pose proof (dec_ge_num_int_mono o 13 14 ltac:(lia)) as Ho.
    destruct (filter is_major_or_critical vs) as [| w q] eqn:Hm.
    + destruct (_calculate_driving_hours_since_break cycle_entries now) as [d | x];
        cbn [bind]; [| intros _ _ H3; discriminate H3].
      pose proof (dec_ge_num_int_mono d 10 11 ltac:(lia)) as Hd.
      destruct (not_current_driver team);
        destruct (dec_ge_num d (PyInt 11)); destruct (dec_ge_num o (PyInt 14));
        destruct (dec_ge_num d (PyInt 10)); destruct (dec_ge_num o (PyInt 13));
        simpl; intros H1 H2 H3;
        injection H1 as <-; injection H2 as <-; injection H3 as <-;
        repeat split; intros; try congruence;
        try (discriminate (Hd eq_refl)); try (discriminate (Ho eq_refl)).
    + destruct (not_current_driver team).
      * destruct (dec_ge_num o (PyInt 14)); simpl;
          intros H1 H2 H3; injection H1 as <-; injection H2 as <-;
          injection H3 as <-; repeat split; congruence.
      * destruct (_calculate_driving_hours_since_break cycle_entries now) as [d | x];
          cbn [bind]; [| intros H1; discriminate H1].
        destruct (dec_ge_num d (PyInt 11)); destruct (dec_ge_num o (PyInt 14)); simpl;
          intros H1 H2 H3; injection H1 as <-; injection H2 as <-;
          injection H3 as <-; repeat split; congruence.
  - assert (Hm : existsb is_major_or_critical vs = true)
      by (apply critical_is_major_or_critical; eapply filter_cons_existsb; exact Hc).
    destruct (filter is_major_or_critical vs) as [| w q] eqn:Hf.
    + apply filter_nil_existsb in Hf. congruence.
    + intros H1 H2 H3. injection H1 as <-. injection H2 as <-. injection H3 as <-.
      repeat split; congruence.
Qed.

(** In every status returned: a driver who can drive can be on duty; a
    driver who cannot be on duty needs rest; and a driver who cannot drive
    for a reason other than the team's current driver needs rest. *)
Theorem eligibility_consistent (self : AdvancedHOSComplianceEngine) (clock : datetime)
    (entries : list LogEntry) (current_time : option datetime)
    (team : option TeamDrivingInfo) (st : HOSStatus) :
  calculate_advanced_hos_status self clock entries current_time team = Ok st ->
  (can_drive st = true -> can_be_on_duty st = true)
  /\ (can_be_on_duty st = false -> needs_rest st = true)
  /\ (can_drive st = false -> not_current_driver team = false ->
      needs_rest st = true).
Proof.
  intros H. apply evaluation_flags in H. destruct H as (H1 & H2 & H3 & _).
  exact (flags_consistent _ _ _ _ _ _ _ H1 H2 H3).
Qed.

Lemma eligibility_consistent_after_rest :
  exists st,
    calculate_advanced_hos_status (create_compliance_engine SEVENTY_EIGHT) 0
      [off_duty_36h; drive_after_rest] (Some sample_now) None = Ok st
    /\ (can_drive st = true -> can_be_on_duty st = true)
    /\ (can_be_on_duty st = false -> needs_rest st = true)
    /\ (can_drive st = false -> not_current_driver None = false ->
        needs_rest st = true).
Proof.
  eexists. split; [exact rest_then_drive_status |].
  exact (eligibility_consistent _ _ _ _ _ _ rest_then_drive_status).
Defined.

(** ** The cycle start *)

Lemma restart_scan_found (all_entries reversed_entries : list LogEntry)
    (en : datetime) :
  restart_scan reversed_entries all_entries = Ok (Some en) ->
  exists e, In e reversed_entries /\ status_is OFF_DUTY e = true
            /\ end_time e = Some en /\ timedelta_hours 34 <= en - start_time e.
Proof.
  induction reversed_entries as [| e l IH]; simpl; [discriminate |].
  destruct (status_is OFF_DUTY e) eqn:Es.
  - destruct (end_time e) as [t |] eqn:Ee.
    + unfold _is_valid_34_hour_restart. rewrite Ee.
      destruct (t - start_time e <? timedelta_hours 34) eqn:Ed; cbn [bind].
      * intros H. destruct (IH H) as (x & Hx & Hr). exists x. auto.
      * destruct (nested_on_duty_scan all_entries (start_time e) t) as [[] | x];
          cbn [bind].
        -- intros H. injection H as <-. exists e.
           apply Z.ltb_ge in Ed. auto.
        -- intros H. destruct (IH H) as (y & Hy & Hr). exists y. auto.
        -- discriminate.
    + intros H. destruct (IH H) as (x & Hx & Hr). exists x. auto.
  - intros H. destruct (IH H) as (x & Hx & Hr). exists x. auto.
Qed.

(** Whenever the cycle start is computed, it is not earlier than
    [now - cycle_days]; it is that instant or the end of an off-duty
    interval of the log that lasts 34 hours or more. *)
Theorem cycle_start_bounds (self : AdvancedHOSComplianceEngine)
    (log_entries : list LogEntry) (now cs : datetime) :
  _calculate_advanced_cycle_start self log_entries now = Ok cs ->
  now - timedelta_days (cycle_days (limits self)) <= cs
  /\ (cs = now - timedelta_days (cycle_days (limits self))
      \/ exists e, In e log_entries /\ status_is OFF_DUTY e = true
                   /\ end_time e = Some cs
                   /\ timedelta_hours 34 <= cs - start_time e).
Proof.
  unfold _calculate_advanced_cycle_start.
  destruct log_entries as [| e0 l] eqn:E.
  - intros H. injection H as <-. split; [lia | left; reflexivity].
  - rewrite <- E. intros H. inv_bind H. injection H as <-.
    destruct a as [en |].
    + destruct (en <? _) eqn:Elt.
      * split; [lia | left; reflexivity].
      * apply Z.ltb_ge in Elt. split; [exact Elt |]. right.
        apply restart_scan_found in Ha. destruct Ha as (x & Hx & Hr).
        exists x. split; [apply in_rev; exact Hx | exact Hr].
    + rewrite Z.ltb_irrefl. split; [lia | left; reflexivity].
Qed.

Lemma cycle_start_bounds_after_rest :
  _calculate_advanced_cycle_start (create_compliance_engine SEVENTY_EIGHT)
    [off_duty_36h; drive_after_rest] sample_now = Ok (sample_now - timedelta_hours 2)
  /\ sample_now - timedelta_days 8 <= sample_now - timedelta_hours 2.
Proof.
  split; [vm_compute; reflexivity |].
  apply (cycle_start_bounds (create_compliance_engine SEVENTY_EIGHT)
           [off_duty_36h; drive_after_rest] sample_now).
  vm_compute; reflexivity.
Defined.

Lemma restart_scan_no_break (all_entries reversed_entries : list LogEntry) :
  Forall (fun e => is_break (timedelta_hours 34) e = false) reversed_entries ->
  restart_scan reversed_entries all_entries = Ok None.
Proof.
  induction 1 as [| e l He _ IH]; simpl; [reflexivity |].
  unfold is_break in He.
  destruct (status_is OFF_DUTY e); [| exact IH].
  destruct (end_time e) as [t |] eqn:Ee; [| exact IH].
  unfold _is_valid_34_hour_restart. rewrite Ee.
  rewrite andb_true_l, Z.leb_antisym in He. apply negb_false_iff in He.
  rewrite He. exact IH.
Qed.

(** A log without an off-duty interval of 34 hours or more has its cycle
    start at [now - cycle_days], provided that instant is a datetime; open
    intervals do not disturb this. *)
Theorem cycle_start_without_restart (self : AdvancedHOSComplianceEngine)
    (log_entries : list LogEntry) (now : datetime) :
  representable (now - timedelta_days (cycle_days (limits self))) ->
  Forall (fun e => is_break (timedelta_hours 34) e = false) log_entries ->
  _calculate_advanced_cycle_start self log_entries now
  = Ok (now - timedelta_days (cycle_days (limits self))).
Proof.
  intros _ H. unfold _calculate_advanced_cycle_start.
  destruct log_entries as [| e0 l] eqn:E; [reflexivity |].
  rewrite <- E in *. rewrite restart_scan_no_break.
  - cbn [bind]. rewrite Z.ltb_irrefl. reflexivity.
  - apply Forall_forall. intros x Hx. apply in_rev in Hx.
    rewrite Forall_forall in H. apply H. exact Hx.
Qed.

Lemma cycle_start_without_restart_lunch :
  representable (sample_now - timedelta_days 7)
  /\ Forall (fun e => is_break (timedelta_hours 34) e = false)
       [morning_drive; lunch_break; open_entry]
  /\ _calculate_advanced_cycle_start (create_compliance_engine SIXTY_SEVEN)
       [morning_drive; lunch_break; open_entry] sample_now
     = Ok (sample_now - timedelta_days 7).
Proof.
  assert (Hr : representable (sample_now - timedelta_days 7))
    by (vm_compute; split; discriminate).
  assert (H : Forall (fun e => is_break (timedelta_hours 34) e = false)
                [morning_drive; lunch_break; open_entry])
    by (repeat constructor).
  split; [exact Hr |]. split; [exact H |].
  exact (cycle_start_without_restart (create_compliance_engine SIXTY_SEVEN) _
           sample_now Hr H).
Defined.

(** ** The 34-hour restart rule *)

Lemma restart_rule_loop_value (cfg : RuleConfig) (entries : list LogEntry) :
  restart_rule_loop cfg (PyFloat 34) entries
  = Ok (map (restart_violation (rule_severity cfg))
          (filter (short_off_duty (timedelta_hours 34)) entries)).
Proof.
  induction entries as [| e l IH]; [reflexivity |].
  cbn [restart_rule_loop filter]. rewrite IH.
  assert (Hs : short_off_duty (timedelta_hours 34) e
               = status_is OFF_DUTY e
                 && match end_time e with
                    | Some en => en - start_time e <? timedelta_hours 34
                    | None => false
                    end) by reflexivity.
  rewrite Hs. clear Hs.
  destruct (status_is OFF_DUTY e); [| reflexivity].
  destruct (end_time e) as [en |]; [| reflexivity].
  change (timedelta_of_hours_num (PyFloat 34)) with (@Ok timedelta (timedelta_hours 34)).
  cbn [bind andb].
  destruct (en - start_time e <? timedelta_hours 34); reflexivity.
Qed.

(** With the threshold of 34.0 hours the restart rule reports every
    off-duty interval of the cycle entries that has an end and is shorter
    than 34 hours, one violation each in the order of the entries, at the
    start of the interval; it reports nothing else, whatever the
    sleeper-berth periods are. *)
Theorem restart_rule_reports_short_breaks (cfg : RuleConfig)
    (cycle_entries : list LogEntry) (periods : list SleeperBerthPeriod) :
  parameter cfg "min_hours" = Ok (PyFloat 34) ->
  _check_34_hour_restart_rule cfg cycle_entries periods
  = Ok (map (restart_violation (rule_severity cfg))
          (filter (short_off_duty (timedelta_hours 34)) cycle_entries)).
Proof.
  intros Hp. unfold _check_34_hour_restart_rule. rewrite Hp. cbn [bind].
  apply restart_rule_loop_value.
Qed.

Lemma restart_rule_reports_lunch :
  parameter restart_rule_default "min_hours" = Ok (PyFloat 34)
  /\ _check_34_hour_restart_rule restart_rule_default
       [morning_drive; lunch_break] []
     = Ok [restart_violation CRITICAL lunch_break].
Proof.
  split; [reflexivity |].
  exact (restart_rule_reports_short_breaks restart_rule_default
           [morning_drive; lunch_break] [] eq_refl).
Defined.

(** ** What a default engine reports *)

(** With a float threshold the limit check either returns no violation or
    raises: every counted interval is then closed and within the
    threshold. *)
Lemma over_limit_loop_float (counted : LogEntry -> bool) (ty impact : string)
    (cfg : RuleConfig) (q : Q) (entries : list LogEntry) (vs : list Violation) :
  over_limit_loop counted ty impact cfg (PyFloat q) entries = Ok vs ->
  vs = []
  /\ Forall
       (fun e => counted e = true ->
                 exists en, end_time e = Some en
                            /\ dec_gt_num (decimal_hours (en - start_time e))
                                 (PyFloat q) = false)
       entries.
Proof.
  revert vs. induction entries as [| e l IH]; intros vs H.
  - injection H as <-. split; [reflexivity | constructor].
  - cbn [over_limit_loop] in H. inv_bind H. inv_bind H. injection H as <-.
    destruct (IH _ Ha0) as [-> Hl].
    destruct (counted e) eqn:Ec.
    + unfold entry_duration in Ha.
      destruct (end_time e) as [en |] eqn:Ee; [| cbn [bind] in Ha; discriminate Ha].
      cbn [bind] in Ha.
      destruct (dec_gt_num (decimal_hours (en - start_time e)) (PyFloat q)) eqn:Eg.
      * cbn [dec_sub_num bind] in Ha. discriminate Ha.
      * injection Ha as <-. split; [reflexivity |].
        constructor; [| exact Hl]. intros _. exists en. auto.
    + injection Ha as <-. split; [reflexivity |].
      constructor; [intros Hf; rewrite Ec in Hf; discriminate Hf | exact Hl].
Qed.

Lemma split_loop_marked_long (order : list nat) :
  forall periods result,
    split_loop order periods = Ok result ->
    Forall (fun p => split_berth_period p = true ->
                     dec_geb (duration_hours p) (mkDec 20 (-1)) = true) periods ->
    Forall (fun p => split_berth_period p = true ->
                     dec_geb (duration_hours p) (mkDec 20 (-1)) = true) result.
Proof.
  induction order as [| i rest IH]; intros periods result H Hp.
  - injection H as <-. exact Hp.
  - destruct rest as [| j rest'].
    + injection H as <-. exact Hp.
    + rewrite split_loop_step in H.
      destruct (nth_error periods i) as [c |] eqn:Ec;
        [| injection H as <-; exact Hp].
      destruct (nth_error periods j) as [n |] eqn:En;
        [| injection H as <-; exact Hp].
      destruct (sb_end_time c) as [ce |]; [| discriminate H].
      destruct (split_pair_ok ce c n) eqn:Eok; [| exact (IH _ _ H Hp)].
      apply (IH _ _ H).
      unfold split_pair_ok in Eok.
      destruct (_ <=? _); [| discriminate Eok].
      apply andb_prop in Eok. destruct Eok as [Eok _].
      apply andb_prop in Eok. destruct Eok as [Hc Hn].
      apply Forall_forall. intros p Hin Hs.
      apply In_nth_error in Hin. destruct Hin as [x Hx].
      rewrite !nth_error_mark_split in Hx.
      rewrite Forall_forall in Hp.
      destruct (Nat.eqb x j) eqn:Exj.
      * apply Nat.eqb_eq in Exj. subst x.
        destruct (Nat.eqb j i) eqn:Eji.
        -- apply Nat.eqb_eq in Eji. subst j. rewrite Ec in Hx. simpl in Hx.
           injection Hx as <-. exact Hc.
        -- rewrite En in Hx. simpl in Hx. injection Hx as <-. exact Hn.
      * destruct (Nat.eqb x i) eqn:Exi.
        -- apply Nat.eqb_eq in Exi. subst x. rewrite Ec in Hx. simpl in Hx.
           injection Hx as <-. exact Hc.
        -- apply Hp; [eapply nth_error_In; exact Hx | exact Hs].
Qed.

Lemma at_least_two_not_below (d : Decimal) :
  dec_geb d (mkDec 20 (-1)) = true -> dec_lt_num d (PyFloat 2) = false.
Proof.
  unfold dec_geb, dec_leb, dec_lt_num.
  change (mkDec 20 (-1)) with (mkDec (2 * 10) (0 - 1)).
  rewrite dec_compare_rescale.
  change (PyFloat 2) with (PyFloat (inject_Z 2)).
  rewrite dec_compare_float_int.
  change (dec_compare_num d (PyInt 2)) with (dec_compare d (mkDec 2 0)).
  rewrite (dec_compare_antisym (mkDec 2 0) d).
  destruct (dec_compare (mkDec 2 0) d); simpl; congruence.
Qed.

Lemma split_rule_marks (self : AdvancedHOSComplianceEngine)
    (log_entries : list LogEntry) (now : datetime)
    (periods : list SleeperBerthPeriod) (cfg : RuleConfig) :
  parameter cfg "min_first_period" = Ok (PyFloat 2) ->
  parameter cfg "min_second_period" = Ok (PyFloat 2) ->
  _calculate_sleeper_berth_periods self log_entries now = Ok periods ->
  Forall (fun p => split_berth_period p = true ->
                   dec_geb (duration_hours p) (mkDec 20 (-1)) = true) periods
  /\ _check_sleeper_berth_split_rule cfg periods = Ok [].
Proof.
  intros H1 H2 H. unfold _calculate_sleeper_berth_periods in H.
  rewrite validate_is_loop in H.
  apply split_loop_marked_long in H.
  2:{ apply Forall_forall. intros p Hp Hs.
      apply in_map_iff in Hp. destruct Hp as (x & <- & _). discriminate Hs. }
  split; [exact H |].
  unfold _check_sleeper_berth_split_rule. rewrite H1, H2. cbn [bind].
  destruct (filter split_berth_period periods) as [| p [| q r]] eqn:Ef;
    try reflexivity.
  assert (Hp : In p (filter split_berth_period periods))
    by (rewrite Ef; left; reflexivity).
  assert (Hq : In q (filter split_berth_period periods))
    by (rewrite Ef; right; left; reflexivity).
  apply filter_In in Hp, Hq. rewrite Forall_forall in H.
  rewrite (at_least_two_not_below _ (H p (proj1 Hp) (proj2 Hp))).
  rewrite (at_least_two_not_below _ (H q (proj1 Hq) (proj2 Hq))).
  reflexivity.
Qed.

(** The periods the evaluation derives from a log are marked as a split
    only when they last 2 hours or more, so the split rule, which looks
    for marked periods shorter than 2 hours, reports nothing on them. *)
Theorem split_rule_never_fires (self : AdvancedHOSComplianceEngine)
    (log_entries : list LogEntry) (now : datetime)
    (periods : list SleeperBerthPeriod) (cfg : RuleConfig) :
  parameter cfg "min_first_period" = Ok (PyFloat 2) ->
  parameter cfg "min_second_period" = Ok (PyFloat 2) ->
  _calculate_sleeper_berth_periods self log_entries now = Ok periods ->
  Forall (fun p => split_berth_period p = true ->
                   dec_geb (duration_hours p) (mkDec 20 (-1)) = true) periods
  /\ _check_sleeper_berth_split_rule cfg periods = Ok [].
Proof. apply split_rule_marks. Qed.

Lemma split_rule_never_fires_on_pair :
  parameter split_rule_default "min_first_period" = Ok (PyFloat 2)
  /\ parameter split_rule_default "min_second_period" = Ok (PyFloat 2)
  /\ _calculate_sleeper_berth_periods (create_compliance_engine SEVENTY_EIGHT)
       [entry_of (sample_now - timedelta_hours 30) (sample_now - timedelta_hours 27)
          SLEEPER_BERTH;
        entry_of (sample_now - timedelta_hours 20) (sample_now - timedelta_hours 15)
          SLEEPER_BERTH] sample_now
     = Ok [set_split berth_3h; set_split berth_5h]
  /\ _check_sleeper_berth_split_rule split_rule_default
       [set_split berth_3h; set_split berth_5h] = Ok [].
Proof.
  split; [reflexivity |]. split; [reflexivity |].
  split; [exact (proj2 three_and_five_hours_marked) |].
  exact (proj2 (split_rule_never_fires (create_compliance_engine SEVENTY_EIGHT) _
                  sample_now _ split_rule_default eq_refl eq_refl
                  (proj2 three_and_five_hours_marked))).
Defined.

Lemma rules_loop_cons (clock : datetime) (rule_id : string) (cfg : RuleConfig)
    (rest : list (string * RuleConfig)) (cycle_entries : list LogEntry)
    (now : datetime) (periods : list SleeperBerthPeriod) (vs : list Violation) :
  rules_loop clock ((rule_id, cfg) :: rest) cycle_entries now periods = Ok vs ->
  exists here more,
    (if rule_enabled cfg
     then _check_rule_violation clock rule_id cfg cycle_entries now periods
     else Ok []) = Ok here
    /\ rules_loop clock rest cycle_entries now periods = Ok more
    /\ vs = here ++ more.
Proof.
  intros H. cbn [rules_loop] in H. inv_bind H. inv_bind H. injection H as <-.
  eauto.
Qed.

(** The violations of a default engine, rule by rule. *)
Lemma default_violations_inv (ct : CycleType) (clock : datetime)
    (cycle_entries : list LogEntry) (now : datetime)
    (periods : list SleeperBerthPeriod) (vs : list Violation) :
  _check_advanced_violations (create_compliance_engine ct) clock cycle_entries
    now periods = Ok vs ->
  exists d used split_vs,
    _calculate_driving_hours_since_break cycle_entries now = Ok d
    /\ _calculate_cycle_hours cycle_entries = Ok used
    /\ dec_gt_num used (PyFloat 70) = false
    /\ _check_sleeper_berth_split_rule split_rule_default periods = Ok split_vs
    /\ Forall (fun e => has_end e = true /\ within_shift_limits e = true)
         (filter is_on_duty cycle_entries)
    /\ vs = (if dec_gt_num d (PyFloat 8)
             then [new_Violation "no_30_min_break" MAJOR (Some now) None true
                     "Driver must take 30-minute break before continuing to drive"]
             else [])
            ++ map (restart_violation CRITICAL)
                 (filter (short_off_duty (timedelta_hours 34)) cycle_entries)
            ++ split_vs.
Proof.
  unfold _check_advanced_violations.
  change (get_all_rules (rule_engine (create_compliance_engine ct)))
    with _load_default_rules.
  unfold _load_default_rules.
  intros H.
  apply rules_loop_cons in H. destruct H as (v1 & r1 & H1 & H & ->).
  apply rules_loop_cons in H. destruct H as (v2 & r2 & H2 & H & ->).
  apply rules_loop_cons in H. destruct H as (v3 & r3 & H3 & H & ->).
  apply rules_loop_cons in H. destruct H as (v4 & r4 & H4 & H & ->).
  apply rules_loop_cons in H. destruct H as (v5 & r5 & H5 & H & ->).
  apply rules_loop_cons in H. destruct H as (v6 & r6 & H6 & H & ->).
  injection H as <-. cbn [rule_enabled] in H1, H2, H3, H4, H5, H6.
  (* driving limit *)
  change (_check_driving_limit_rule
            (mkRuleConfig "11-Hour Driving Limit" MAJOR true
               [("max_hours"%string, PyFloat 11)]) cycle_entries = Ok v1) in H1.
  unfold _check_driving_limit_rule in H1.
  change (parameter _ "max_hours") with (@Ok pynum (PyFloat 11)) in H1.
  cbn [bind] in H1. apply over_limit_loop_float in H1. destruct H1 as [-> Hd].
  (* on-duty limit *)
  change (_check_on_duty_limit_rule
            (mkRuleConfig "14-Hour On-Duty Limit" MAJOR true
               [("max_hours"%string, PyFloat 14)]) cycle_entries = Ok v2) in H2.
  unfold _check_on_duty_limit_rule in H2.
  change (parameter _ "max_hours") with (@Ok pynum (PyFloat 14)) in H2.
  cbn [bind] in H2. apply over_limit_loop_float in H2. destruct H2 as [-> Ho].
  (* break *)
  change (_check_30_min_break_rule
            (mkRuleConfig "30-Minute Break Requirement" MAJOR true
               [("break_threshold"%string, PyFloat 8);
                ("min_break"%string, PyFloat (1 # 2))]) cycle_entries now
          = Ok v3) in H3.
  unfold _check_30_min_break_rule in H3.
  inv_bind H3. cbv in Ha. injection Ha as <-.
  inv_bind H3. clear Ha a.
  inv_bind H3. rename a into d.
  (* cycle hours *)
  change (_check_cycle_hours_rule clock
            (mkRuleConfig "Cycle Hours Limit" CRITICAL true
               [("cycle_hours"%string, PyFloat 70);
                ("cycle_days"%string, PyInt 8)]) cycle_entries = Ok v4) in H4.
  unfold _check_cycle_hours_rule in H4.
  inv_bind H4. cbv in Ha0. injection Ha0 as <-.
  inv_bind H4. rename a into used.
  destruct (dec_gt_num used (PyFloat 70)) eqn:Emax;
    [cbn [dec_sub_num bind] in H4; discriminate H4 |].
  injection H4 as <-.
  (* restart *)
  change (_check_34_hour_restart_rule restart_rule_default cycle_entries periods
          = Ok v5) in H5.
  change (_check_sleeper_berth_split_rule split_rule_default periods = Ok v6) in H6.
  unfold _check_34_hour_restart_rule in H5.
  change (parameter _ "min_hours") with (@Ok pynum (PyFloat 34)) in H5.
  cbn [bind] in H5. rewrite restart_rule_loop_value in H5.
  injection H5 as <-.
  exists d, used, v6.
  split; [assumption |]. split; [assumption |]. split; [exact Emax |].
  split; [exact H6 |].
  split.
  - apply Forall_forall. intros e He. apply filter_In in He. destruct He as [He Hon].
    rewrite Forall_forall in Hd, Ho.
    destruct (Ho e He Hon) as (en & Hen & H14).
    unfold has_end, within_shift_limits. rewrite Hen.
    split; [reflexivity |]. rewrite H14, Hon. simpl.
    destruct (status_is DRIVING e) eqn:Edr; [| reflexivity].
    destruct (Hd e He Edr) as (en' & Hen' & H11).
    rewrite Hen in Hen'. injection Hen' as <-. rewrite H11. reflexivity.
  - destruct (dec_gt_num d (PyFloat 8)); injection H3 as <-;
      simpl; rewrite ?app_nil_r; reflexivity.
Qed.

(** ** What a returned status of a default engine tells *)

Lemma default_evaluation_inv (ct : CycleType) (clock : datetime)
    (entries : list LogEntry) (current_time : option datetime)
    (team : option TeamDrivingInfo) (st : HOSStatus) :
  calculate_advanced_hos_status (create_compliance_engine ct) clock entries
    current_time team = Ok st ->
  let now := effective_time clock current_time in
  let cycle_entries :=
    filter (fun entry => cycle_start_date st <=? start_time entry)
      (sorted_by start_time entries) in
  exists d,
    _calculate_driving_hours_since_break cycle_entries now = Ok d
    /\ dec_gt_num (hours_used_this_cycle st) (PyFloat 70) = false
    /\ Forall (fun e => has_end e = true /\ within_shift_limits e = true)
         (filter is_on_duty cycle_entries)
    /\ violations st
       = (if dec_gt_num d (PyFloat 8)
          then [new_Violation "no_30_min_break" MAJOR (Some now) None true
                  "Driver must take 30-minute break before continuing to drive"]
          else [])
         ++ map (restart_violation CRITICAL)
              (filter (short_off_duty (timedelta_hours 34)) cycle_entries).
Proof.
  intros H now cycle_entries.
  destruct (evaluation_steps _ _ _ _ _ _ H) as (_ & Hp & Hu & _ & Hv & _).
  fold now in Hp, Hv. fold cycle_entries in Hu, Hv.
  apply default_violations_inv in Hv.
  destruct Hv as (d & used & split_vs & Hd & Hused & Hmax & Hsplit & Hlim & Hvs).
  rewrite Hu in Hused. injection Hused as <-.
  destruct (split_rule_marks _ _ _ _ split_rule_default eq_refl eq_refl Hp)
    as [_ Hnone].
  rewrite Hnone in Hsplit. injection Hsplit as <-.
  rewrite app_nil_r in Hvs.
  exists d. repeat split; assumption.
Qed.

(** A default engine returns only two kinds of violation: the missing
    30-minute break, once, when more than 8 hours were driven since the
    last break, and one invalid restart for every closed off-duty interval
    of the cycle window shorter than 34 hours, in the order of their
    starts.  No driving-limit, on-duty-limit, cycle-hours or split
    violation is ever part of a returned status. *)
Theorem default_engine_violations (ct : CycleType) (clock : datetime)
    (entries : list LogEntry) (current_time : option datetime)
    (team : option TeamDrivingInfo) (st : HOSStatus) :
  calculate_advanced_hos_status (create_compliance_engine ct) clock entries
    current_time team = Ok st ->
  let now := effective_time clock current_time in
  let cycle_entries :=
    filter (fun entry => cycle_start_date st <=? start_time entry)
      (sorted_by start_time entries) in
  (exists d,
     _calculate_driving_hours_since_break cycle_entries now = Ok d
     /\ violations st
        = (if dec_gt_num d (PyFloat 8)
           then [new_Violation "no_30_min_break" MAJOR (Some now) None true
                   "Driver must take 30-minute break before continuing to drive"]
           else [])
          ++ map (restart_violation CRITICAL)
               (filter (short_off_duty (timedelta_hours 34)) cycle_entries))
  /\ Forall reported_kind (violations st).
Proof.
  intros H now cycle_entries.
  destruct (default_evaluation_inv _ _ _ _ _ _ H) as (d & Hd & _ & _ & Hvs).
  fold now in Hd, Hvs. fold cycle_entries in Hd, Hvs.
  split; [exists d; split; assumption |].
  rewrite Hvs. apply Forall_app. split.
  - destruct (dec_gt_num d (PyFloat 8)); [| constructor].
    constructor; [| constructor]. left. split; reflexivity.
  - apply Forall_forall. intros v Hv. apply in_map_iff in Hv.
    destruct Hv as (e & <- & _). right. split; reflexivity.
Qed.

(** A returned status of a default engine means that every on-duty
    interval of the cycle window is closed and within the 11-hour driving
    and 14-hour on-duty limits, and that the hours used do not exceed 70;
    for the cycle types of 70 hours the hours available are then not
    negative. *)
Theorem returned_status_within_limits (ct : CycleType) (clock : datetime)
    (entries : list LogEntry) (current_time : option datetime)
    (team : option TeamDrivingInfo) (st : HOSStatus) :
  calculate_advanced_hos_status (create_compliance_engine ct) clock entries
    current_time team = Ok st ->
  (forall e, In e entries -> is_on_duty e = true ->
             cycle_start_date st <= start_time e ->
             has_end e = true /\ within_shift_limits e = true)
  /\ dec_gt_num (hours_used_this_cycle st) (PyFloat 70) = false
  /\ (ct <> SIXTY_SEVEN -> dec_ltb (hours_available st) (cents 0) = false).
Proof.
  intros H.
  destruct (default_evaluation_inv _ _ _ _ _ _ H) as (d & _ & Hmax & Hlim & _).
  split; [| split].
  - intros e He Hon Hle. rewrite Forall_forall in Hlim. apply Hlim.
    apply filter_In. split; [| exact Hon].
    apply filter_In. split; [apply sorted_by_In; exact He |].
    apply Z.leb_le. exact Hle.
  - exact Hmax.
  - intros Hct.
    destruct (evaluation_steps _ _ _ _ _ _ H) as (_ & _ & _ & Ha & _).
    rewrite Ha, dec_sub_negative.
    assert (Hc : cycle_hours (limits (create_compliance_engine ct)) = cents 7000)
      by (destruct ct; [reflexivity | contradiction Hct; reflexivity | reflexivity]).
    rewrite Hc. unfold dec_gtb, dec_ltb.
    change (cents 7000) with (mkDec (700 * 10) (-1 - 1)).
    rewrite dec_compare_rescale.
    change (mkDec 700 (-1)) with (mkDec (70 * 10) (0 - 1)).
    rewrite dec_compare_rescale.
    unfold dec_gt_num in Hmax.
    change (PyFloat 70) with (PyFloat (inject_Z 70)) in Hmax.
    rewrite dec_compare_float_int in Hmax.
    change (dec_compare_num (hours_used_this_cycle st) (PyInt 70))
      with (dec_compare (hours_used_this_cycle st) (mkDec 70 0)) in Hmax.
    rewrite (dec_compare_antisym (mkDec 70 0) (hours_used_this_cycle st)) in Hmax.
    destruct (dec_compare (mkDec 70 0) (hours_used_this_cycle st));
      simpl in *; congruence.
Qed.

(** A closed off-duty interval of the cycle window that is shorter than 34
    hours, a lunch break for instance, is reported as a critical invalid
    restart; a status returned by a default engine for such a log forbids
    driving and on-duty work and asks for rest. *)
Theorem short_rest_blocks_driver (ct : CycleType) (clock : datetime)
    (entries : list LogEntry) (current_time : option datetime)
    (team : option TeamDrivingInfo) (st : HOSStatus) (e : LogEntry) :
  calculate_advanced_hos_status (create_compliance_engine ct) clock entries
    current_time team = Ok st ->
  In e entries ->
  short_off_duty (timedelta_hours 34) e = true ->
  cycle_start_date st <= start_time e ->
  In (restart_violation CRITICAL e) (violations st)
  /\ can_drive st = false /\ can_be_on_duty st = false /\ needs_rest st = true.
Proof.
  intros H He Hshort Hle.
  destruct (default_evaluation_inv _ _ _ _ _ _ H) as (d & _ & _ & _ & Hvs).
  assert (Hin : In (restart_violation CRITICAL e) (violations st)).
  { rewrite Hvs. apply in_or_app. right. apply in_map.
    apply filter_In. split; [| exact Hshort].
    apply filter_In. split; [apply sorted_by_In; exact He |].
    apply Z.leb_le. exact Hle. }
  split; [exact Hin |].
  assert (Hc : existsb is_critical (violations st) = true)
    by (apply existsb_exists; exists (restart_violation CRITICAL e);
        split; [exact Hin | reflexivity]).
  assert (Hm : existsb is_major_or_critical (violations st) = true)
    by (apply existsb_exists; exists (restart_violation CRITICAL e);
        split; [exact Hin | reflexivity]).
  destruct (evaluation_flags _ _ _ _ _ _ H) as (H1 & H2 & H3 & _).
  unfold _can_drive_advanced in H1. unfold _can_be_on_duty_advanced in H2.
  unfold _needs_rest_advanced in H3.
  destruct (filter is_critical (violations st)) eqn:Ec.
  { apply filter_nil_existsb in Ec. congruence. }
  destruct (filter is_major_or_critical (violations st)) eqn:Em.
  { apply filter_nil_existsb in Em. congruence. }
  injection H1 as <-. injection H2 as <-. injection H3 as <-.
  repeat split; reflexivity.
Qed.

Lemma drive_then_lunch_status :
  calculate_advanced_hos_status (create_compliance_engine SEVENTY_EIGHT) 0
    [lunch_break; morning_drive] (Some sample_now) None
  = Ok (mkHOSStatus false false true (cents 300) (cents 6700) (mkDec 40 (-1))
          (Some (sample_now - timedelta_hours 4))
          [restart_violation CRITICAL lunch_break] SEVENTY_EIGHT
          (sample_now - timedelta_days 8) [] None
          (mkComplianceAnalytics 1 (cents 8000))).
Proof. vm_compute. reflexivity. Qed.

Lemma default_engine_violations_lunch :
  exists st,
    calculate_advanced_hos_status (create_compliance_engine SEVENTY_EIGHT) 0
      [lunch_break; morning_drive] (Some sample_now) None = Ok st
    /\ (exists d,
          _calculate_driving_hours_since_break
            (filter (fun entry => cycle_start_date st <=? start_time entry)
               (sorted_by start_time [lunch_break; morning_drive]))
            sample_now = Ok d
          /\ violations st
             = (if dec_gt_num d (PyFloat 8)
                then [new_Violation "no_30_min_break" MAJOR (Some sample_now) None
                        true
                        "Driver must take 30-minute break before continuing to drive"]
                else [])
               ++ map (restart_violation CRITICAL)
                    (filter (short_off_duty (timedelta_hours 34))
                       (filter (fun entry => cycle_start_date st <=? start_time entry)
                          (sorted_by start_time [lunch_break; morning_drive]))))
    /\ Forall reported_kind (violations st).
Proof.
  eexists. split; [exact drive_then_lunch_status |].
  exact (default_engine_violations _ _ _ _ _ _ drive_then_lunch_status).
Defined.

Lemma returned_status_within_limits_lunch :
  exists st,
    calculate_advanced_hos_status (create_compliance_engine SEVENTY_EIGHT) 0
      [lunch_break; morning_drive] (Some sample_now) None = Ok st
    /\ (forall e, In e [lunch_break; morning_drive] -> is_on_duty e = true ->
                  cycle_start_date st <= start_time e ->
                  has_end e = true /\ within_shift_limits e = true)
    /\ dec_gt_num (hours_used_this_cycle st) (PyFloat 70) = false
    /\ (SEVENTY_EIGHT <> SIXTY_SEVEN ->
        dec_ltb (hours_available st) (cents 0) = false).
Proof.
  eexists. split; [exact drive_then_lunch_status |].
  exact (returned_status_within_limits _ _ _ _ _ _ drive_then_lunch_status).
Defined.

Lemma short_rest_blocks_driver_lunch :
  exists st,
    calculate_advanced_hos_status (create_compliance_engine SEVENTY_EIGHT) 0
      [lunch_break; morning_drive] (Some sample_now) None = Ok st
    /\ In lunch_break [lunch_break; morning_drive]
    /\ short_off_duty (timedelta_hours 34) lunch_break = true
    /\ cycle_start_date st <= start_time lunch_break
    /\ In (restart_violation CRITICAL lunch_break) (violations st)
    /\ can_drive st = false /\ can_be_on_duty st = false /\ needs_rest st = true.
Proof.
  eexists. split; [exact drive_then_lunch_status |].
  assert (Hin : In lunch_break [lunch_break; morning_drive])
    by (left; reflexivity).
  assert (Hs : short_off_duty (timedelta_hours 34) lunch_break = true)
    by reflexivity.
  assert (Hle : sample_now - timedelta_days 8 <= start_time lunch_break)
    by (vm_compute; discriminate).
  split; [exact Hin |]. split; [exact Hs |]. split; [exact Hle |].
  exact (short_rest_blocks_driver _ _ _ _ _ _ _ drive_then_lunch_status Hin Hs Hle).
Defined.

(** ** Analytics *)

Lemma score_value (p : Z) :
  0 <= p ->
  dec_max (cents 0) (dec_sub (cents 10000) (Decimal_of_int p))
  = cents (Z.max 0 (10000 - 100 * p)).
Proof.
  intros Hp.
  assert (Hs : dec_sub (cents 10000) (Decimal_of_int p) = cents (10000 - 100 * p)).
  { unfold dec_sub, cents, Decimal_of_int. cbn [dcoef dexp].
    change (Z.min (-2) 0) with (-2). change (10 ^ (-2 - -2)) with 1.
    change (10 ^ (0 - -2)) with 100. f_equal. lia. }
  rewrite Hs. unfold dec_max, dec_gtb, dec_ltb, dec_compare, cents.
  cbn [dcoef dexp]. change (Z.min (-2) (-2)) with (-2).
  change (10 ^ (-2 - -2)) with 1. rewrite !Z.mul_1_r.
  destruct (0 ?= 10000 - 100 * p) eqn:E.
  - apply Z.compare_eq in E. f_equal. lia.
  - rewrite Z.compare_lt_iff in E. f_equal. lia.
  - rewrite Z.compare_gt_iff in E. f_equal. lia.
Qed.

Lemma dec_leb_cents (a b : Z) : dec_leb (cents a) (cents b) = (a <=? b).
Proof.
  unfold dec_leb, dec_compare, cents. cbn [dcoef dexp].
  change (Z.min (-2) (-2)) with (-2). change (10 ^ (-2 - -2)) with 1.
  rewrite !Z.mul_1_r. unfold Z.leb. reflexivity.
Qed.

Lemma penalty_sum_counts (vs : list Violation) (a : Z) :
  fold_left (fun acc v => acc + penalty v) vs a
  = a + 20 * count_severity CRITICAL vs + 10 * count_severity MAJOR vs
    + 5 * count_severity MINOR vs.
Proof.
  revert a. induction vs as [| v vs IH]; intros a.
  - unfold count_severity. simpl. lia.
  - cbn [fold_left]. rewrite IH. unfold count_severity, penalty.
    cbn [filter]. destruct (severity v); cbn [severity_eqb List.length]; lia.
Qed.

Lemma count_severity_total (vs : list Violation) :
  count_severity CRITICAL vs + count_severity MAJOR vs + count_severity MINOR vs
  = Z.of_nat (List.length vs).
Proof.
  unfold count_severity. induction vs as [| v vs IH]; [reflexivity |].
  cbn [filter]. destruct (severity v); cbn [severity_eqb List.length]; lia.
Qed.

(** The compliance score of every returned status is 100 minus 20 points
    for every critical, 10 for every major and 5 for every minor violation
    of that status, but never below 0: it lies between 0.00 and 100.00, and
    it is 100.00 exactly when the status has no violation. *)
Theorem compliance_score_value (self : AdvancedHOSComplianceEngine)
    (clock : datetime) (entries : list LogEntry) (current_time : option datetime)
    (team : option TeamDrivingInfo) (st : HOSStatus) :
  calculate_advanced_hos_status self clock entries current_time team = Ok st ->
  let score := compliance_score (compliance_analytics st) in
  let points :=
    20 * count_severity CRITICAL (violations st)
    + 10 * count_severity MAJOR (violations st)
    + 5 * count_severity MINOR (violations st) in
  score = cents (Z.max 0 (100 * (100 - points)))
  /\ dec_leb (cents 0) score = true
  /\ dec_leb score (cents 10000) = true
  /\ (score = cents 10000 <-> violations st = []).
Proof.
  intros H score points.
  destruct (evaluation_steps _ _ _ _ _ _ H) as (_ & _ & _ & _ & _ & _ & Ha).
  unfold _calculate_compliance_analytics in Ha.
  inv_bind Ha. inv_bind Ha. injection Ha as Ha.
  assert (Hsum := penalty_sum_counts (violations st) 0).
  assert (Htot := count_severity_total (violations st)).
  assert (Hc : 0 <= count_severity CRITICAL (violations st))
    by (unfold count_severity; lia).
  assert (Hm : 0 <= count_severity MAJOR (violations st))
    by (unfold count_severity; lia).
  assert (Hn : 0 <= count_severity MINOR (violations st))
    by (unfold count_severity; lia).
  assert (Hscore : score = cents (Z.max 0 (100 * (100 - points)))).
  { unfold score. rewrite <- Ha. cbn [compliance_score].
    rewrite score_value by (rewrite Hsum; lia).
    rewrite Hsum. unfold points. f_equal. lia. }
  split; [exact Hscore |].
  rewrite Hscore, !dec_leb_cents.
  split; [apply Z.leb_le; lia |].
  split; [apply Z.leb_le; unfold points; lia |].
  split.
  - intros Heq. apply (f_equal dcoef) in Heq. unfold cents in Heq.
    cbn [dcoef] in Heq.
    destruct (violations st) as [| v r]; [reflexivity |].
    cbn [List.length] in Htot. unfold points in Heq. lia.
  - intros Hnil. unfold points. rewrite Hnil. reflexivity.
Qed.

Lemma compliance_score_value_lunch :
  exists st,
    calculate_advanced_hos_status (create_compliance_engine SEVENTY_EIGHT) 0
      [lunch_break; morning_drive] (Some sample_now) None = Ok st
    /\ count_severity CRITICAL (violations st) = 1
    /\ count_severity MAJOR (violations st) = 0
    /\ count_severity MINOR (violations st) = 0
    /\ compliance_score (compliance_analytics st) = cents 8000.
Proof.
  eexists. split; [exact drive_then_lunch_status |].
  split; [reflexivity |]. split; [reflexivity |]. split; [reflexivity |].
  exact (proj1 (compliance_score_value _ _ _ _ _ _ drive_then_lunch_status)).
Defined.

Lemma sorted_head_min (key : LogEntry -> Z) (l : list LogEntry) (first : LogEntry)
    (rest : list LogEntry) :
  sorted_by key l = first :: rest ->
  forall x, In x l -> key first <= key x.
Proof.
  intros Hs x Hx. apply (sorted_by_In key) in Hx.
  assert (Hsorted := sorted_by_sorted key l). rewrite Hs in Hsorted, Hx.
  inversion Hsorted as [| ? ? _ Hall]; subst.
  destruct Hx as [<- | Hx]; [lia |].
  rewrite Forall_forall in Hall. apply Hall. exact Hx.
Qed.

(** A log whose earliest interval starts after the evaluation time, by a
    day or less, cannot be evaluated: the restart frequency divides by a
    day span of zero, so the analytics raise [ZeroDivisionError] and no
    status is returned. *)
Theorem future_first_entry_raises (self : AdvancedHOSComplianceEngine)
    (clock : datetime) (entries : list LogEntry) (current_time : option datetime)
    (team : option TeamDrivingInfo) (e : LogEntry) :
  let now := effective_time clock current_time in
  In e entries ->
  (forall e', In e' entries -> start_time e <= start_time e') ->
  now < start_time e <= now + timedelta_days 1 ->
  (forall vs,
     _calculate_compliance_analytics (sorted_by start_time entries) vs now
     = Raise ZeroDivisionError)
  /\ (forall st,
        calculate_advanced_hos_status self clock entries current_time team
        <> Ok st).
Proof.
  intros now He Hmin Hfut.
  assert (Hz : forall vs,
             _calculate_compliance_analytics (sorted_by start_time entries) vs now
             = Raise ZeroDivisionError).
  { intros vs. unfold _calculate_compliance_analytics.
    destruct (sorted_by start_time entries) as [| first rest] eqn:Es.
    - apply (sorted_by_In start_time) in He. rewrite Es in He. contradiction He.
    - assert (Hle := sorted_head_min start_time entries first rest Es e He).
      assert (Hin : In first entries)
        by (apply (sorted_by_In start_time); rewrite Es; left; reflexivity).
      apply Hmin in Hin.
      assert (Hd : td_days (now - start_time first) = -1).
      { unfold td_days. unfold timedelta_days in Hfut.
        symmetry. apply (Z.div_unique _ _ _ (now - start_time first + us_per_day)).
        - left. unfold us_per_day in *. lia.
        - lia. }
      rewrite Hd. reflexivity. }
  split; [exact Hz |].
  intros st H.
  destruct (evaluation_steps _ _ _ _ _ _ H) as (_ & _ & _ & _ & _ & _ & Ha).
  fold now in Ha. rewrite Hz in Ha. discriminate Ha.
Qed.

Lemma future_first_entry_raises_tomorrow :
  In tomorrow_entry [tomorrow_entry]
  /\ (forall e', In e' [tomorrow_entry] ->
                 start_time tomorrow_entry <= start_time e')
  /\ sample_now < start_time tomorrow_entry <= sample_now + timedelta_days 1
  /\ (forall vs,
        _calculate_compliance_analytics (sorted_by start_time [tomorrow_entry]) vs
          sample_now = Raise ZeroDivisionError)
  /\ (forall st,
        calculate_advanced_hos_status (create_compliance_engine SEVENTY_EIGHT) 0
          [tomorrow_entry] (Some sample_now) None <> Ok st).
Proof.
  assert (Hin : In tomorrow_entry [tomorrow_entry]) by (left; reflexivity).
  assert (Hmin : forall e', In e' [tomorrow_entry] ->
                            start_time tomorrow_entry <= start_time e')
    by (intros e' [<- | []]; lia).
  assert (Hfut : sample_now < start_time tomorrow_entry
                 <= sample_now + timedelta_days 1)
    by (vm_compute; split; [reflexivity | discriminate]).
  split; [exact Hin |]. split; [exact Hmin |]. split; [exact Hfut |].
  exact (future_first_entry_raises (create_compliance_engine SEVENTY_EIGHT) 0
           [tomorrow_entry] (Some sample_now) None tomorrow_entry Hin Hmin Hfut).
Defined.

(** ** The last break and the time since the last rest *)

Lemma last_off_duty_find (reversed_entries : list LogEntry) :
  last_off_duty reversed_entries = find (status_is OFF_DUTY) reversed_entries.
Proof.
  induction reversed_entries as [| e l IH]; simpl; [reflexivity |].
  destruct (status_is OFF_DUTY e); [reflexivity | exact IH].
Qed.

Lemma break_scan_find (min_break : timedelta) (reversed_entries : list LogEntry) :
  break_scan min_break reversed_entries
  = match find (is_break min_break) reversed_entries with
    | Some e => end_time e
    | None => None
    end.
Proof.
  induction reversed_entries as [| e l IH]; [reflexivity |].
  cbn [break_scan find]. unfold is_break at 1.
  destruct (status_is OFF_DUTY e); [| rewrite andb_false_l; exact IH].
  rewrite andb_true_l.
  destruct (end_time e) as [en |] eqn:Ee; [| exact IH].
  destruct (min_break <=? en - start_time e); [symmetry; exact Ee | exact IH].
Qed.

(** Searching a log sorted by start time from its end finds, among the
    intervals that satisfy the test, one with the latest start. *)
Lemma find_last_sorted (P : LogEntry -> bool) (entries : list LogEntry) :
  match find P (rev (sorted_by start_time entries)) with
  | Some e =>
      In e entries /\ P e = true
      /\ forall e', In e' entries -> P e' = true -> start_time e' <= start_time e
  | None => forall e, In e entries -> P e = false
  end.
Proof.
  destruct (find P (rev (sorted_by start_time entries))) as [e |] eqn:Ef.
  - apply find_first in Ef. destruct Ef as (before & after & Hl & He & Hb).
    assert (Hs : sorted_by start_time entries = rev after ++ e :: rev before).
    { rewrite <- (rev_involutive (sorted_by start_time entries)), Hl.
      rewrite rev_app_distr. simpl. rewrite <- app_assoc. reflexivity. }
    split; [| split].
    + apply (sorted_by_In start_time). rewrite Hs. apply in_or_app.
      right. left. reflexivity.
    + exact He.
    + intros e' Hin HP. apply (sorted_by_In start_time) in Hin.
      rewrite Hs in Hin. apply in_app_or in Hin.
      destruct Hin as [Hin | [<- | Hin]].
      * apply (sorted_before start_time (rev after) (rev before) e e');
          [| exact Hin].
        rewrite <- Hs. apply sorted_by_sorted.
      * lia.
      * rewrite Forall_forall in Hb. apply in_rev in Hin.
        rewrite (Hb e' Hin) in HP. discriminate HP.
  - apply find_none_all in Ef. rewrite Forall_forall in Ef.
    intros e He. apply Ef. apply in_rev. rewrite rev_involutive.
    apply (sorted_by_In start_time). exact He.
Qed.

Lemma evaluation_breaks (self : AdvancedHOSComplianceEngine) (clock : datetime)
    (entries : list LogEntry) (current_time : option datetime)
    (team : option TeamDrivingInfo) (st : HOSStatus) :
  calculate_advanced_hos_status self clock entries current_time team = Ok st ->
  let now := effective_time clock current_time in
  last_30_min_break st
  = _get_last_30_min_break (sorted_by start_time entries) now
  /\ consecutive_off_duty_hours st
     = _calculate_consecutive_off_duty_hours (sorted_by start_time entries) now.
Proof.
  unfold calculate_advanced_hos_status, effective_time. intros H.
  inv_bind H. inv_bind H. inv_bind H. inv_bind H. inv_bind H. inv_bind H.
  inv_bind H. inv_bind H. inv_bind H.
  injection H as <-. simpl. split; reflexivity.
Qed.

(** The last break of a returned status is the end of an off-duty interval
    of 30 minutes or more, the one with the latest start among them, and
    there is none exactly when the log has no such interval. *)
Theorem last_break_is_latest (self : AdvancedHOSComplianceEngine)
    (clock : datetime) (entries : list LogEntry) (current_time : option datetime)
    (team : option TeamDrivingInfo) (st : HOSStatus) :
  calculate_advanced_hos_status self clock entries current_time team = Ok st ->
  match last_30_min_break st with
  | Some t =>
      exists e,
        In e entries /\ is_break (timedelta_minutes 30) e = true
        /\ end_time e = Some t
        /\ forall e', In e' entries -> is_break (timedelta_minutes 30) e' = true ->
                      start_time e' <= start_time e
  | None => forall e, In e entries -> is_break (timedelta_minutes 30) e = false
  end.
Proof.
  intros H. destruct (evaluation_breaks _ _ _ _ _ _ H) as [Hb _].
  rewrite Hb. unfold _get_last_30_min_break. rewrite break_scan_find.
  assert (Hf := find_last_sorted (is_break (timedelta_minutes 30)) entries).
  destruct (find (is_break (timedelta_minutes 30))
              (rev (sorted_by start_time entries))) as [e |].
  - destruct Hf as (Hin & HP & Hlast).
    destruct (end_time e) as [t |] eqn:Ee.
    + exists e. repeat split; assumption.
    + unfold is_break in HP. rewrite Ee, andb_false_r in HP. discriminate HP.
  - exact Hf.
Qed.

Lemma last_break_is_latest_lunch :
  exists st,
    calculate_advanced_hos_status (create_compliance_engine SEVENTY_EIGHT) 0
      [lunch_break; morning_drive] (Some sample_now) None = Ok st
    /\ match last_30_min_break st with
       | Some t =>
           exists e,
             In e [lunch_break; morning_drive]
             /\ is_break (timedelta_minutes 30) e = true
             /\ end_time e = Some t
             /\ forall e', In e' [lunch_break; morning_drive] ->
                           is_break (timedelta_minutes 30) e' = true ->
                           start_time e' <= start_time e
       | None =>
           forall e, In e [lunch_break; morning_drive] ->
                     is_break (timedelta_minutes 30) e = false
       end.
Proof.
  eexists. split; [exact drive_then_lunch_status |].
  exact (last_break_is_latest _ _ _ _ _ _ drive_then_lunch_status).
Defined.

(** [consecutive_off_duty_hours] of a returned status is the time elapsed
    between the end of the off-duty interval with the latest start and the
    evaluation time, whatever the length of that interval; it is 0.00 when
    the log has no off-duty interval. *)
Theorem consecutive_off_duty_since_rest_end (self : AdvancedHOSComplianceEngine)
    (clock : datetime) (entries : list LogEntry) (current_time : option datetime)
    (team : option TeamDrivingInfo) (st : HOSStatus) :
  calculate_advanced_hos_status self clock entries current_time team = Ok st ->
  let now := effective_time clock current_time in
  (exists e en,
     In e entries /\ status_is OFF_DUTY e = true /\ end_time e = Some en
     /\ (forall e', In e' entries -> status_is OFF_DUTY e' = true ->
                    start_time e' <= start_time e)
     /\ consecutive_off_duty_hours st = decimal_hours (now - en))
  \/ ((forall e, In e entries -> status_is OFF_DUTY e = false)
      /\ consecutive_off_duty_hours st = cents 0).
Proof.
  intros H now. destruct (evaluation_breaks _ _ _ _ _ _ H) as [_ Hc].
  fold now in Hc. rewrite Hc. clear Hc.
  assert (Hclosed := evaluation_closed _ _ _ _ _ _ H).
  unfold _calculate_consecutive_off_duty_hours. rewrite last_off_duty_find.
  assert (Hf := find_last_sorted (status_is OFF_DUTY) entries).
  destruct (find (status_is OFF_DUTY) (rev (sorted_by start_time entries)))
    as [e |] eqn:Ef.
  - destruct Hf as (Hin & HP & Hlast). left.
    rewrite Forall_forall in Hclosed. specialize (Hclosed e Hin).
    unfold has_end in Hclosed.
    destruct (end_time e) as [en |] eqn:Ee; [| discriminate Hclosed].
    exists e, en.
    destruct (sorted_by start_time entries) as [| x l] eqn:Es.
    + simpl in Ef. discriminate Ef.
    + repeat split; assumption.
  - right. split; [exact Hf |].
    destruct (sorted_by start_time entries); reflexivity.
Qed.

Lemma consecutive_off_duty_since_rest_end_lunch :
  exists st,
    calculate_advanced_hos_status (create_compliance_engine SEVENTY_EIGHT) 0
      [lunch_break; morning_drive] (Some sample_now) None = Ok st
    /\ ((exists e en,
           In e [lunch_break; morning_drive]
           /\ status_is OFF_DUTY e = true /\ end_time e = Some en
           /\ (forall e', In e' [lunch_break; morning_drive] ->
                          status_is OFF_DUTY e' = true ->
                          start_time e' <= start_time e)
           /\ consecutive_off_duty_hours st = decimal_hours (sample_now - en))
        \/ ((forall e, In e [lunch_break; morning_drive] ->
                       status_is OFF_DUTY e = false)
            /\ consecutive_off_duty_hours st = cents 0)).
Proof.
  eexists. split; [exact drive_then_lunch_status |].
  exact (consecutive_off_duty_since_rest_end _ _ _ _ _ _ drive_then_lunch_status).
Defined.

(** ** Log-entry validation *)

Lemma no_errors (errors : list string) :
  match errors with [] => true | _ => false end = true <-> errors = [].
Proof. destruct errors; split; intros H; try reflexivity; discriminate H. Qed.

(** [validate_log_entry] accepts a dictionary exactly when the three keys
    hold values, the start is before the end and the duty status is one of
    the four status values; the error list is empty exactly then. *)
Theorem validate_log_entry_accepts (entry : RawEntry) :
  (fst (validate_log_entry entry) = true <-> raw_complete entry)
  /\ (fst (validate_log_entry entry) = true <-> snd (validate_log_entry entry) = []).
Proof.
  split.
  - unfold validate_log_entry, raw_complete, missing.
    destruct entry as [[[st |] |] [[en |] |] [[s |] |]]; cbn [raw_start_time raw_end_time raw_duty_status fst app];
      try (split; [intros H; discriminate H
                  | intros (st' & en' & s' & H1 & H2 & H3 & Hr); discriminate]).
    destruct (en <=? st) eqn:Ele;
      destruct (existsb (String.eqb s) valid_statuses) eqn:Es; cbn [app];
      split; intros H; try discriminate H; try reflexivity.
    + destruct H as (st' & en' & s' & H1 & H2 & H3 & Hlt & Hin).
      injection H1 as <-. injection H2 as <-. apply Z.leb_le in Ele. lia.
    + destruct H as (st' & en' & s' & H1 & H2 & H3 & Hlt & Hin).
      injection H1 as <-. injection H2 as <-. apply Z.leb_le in Ele. lia.
    + exists st, en, s. apply Z.leb_gt in Ele.
      repeat split; try reflexivity; [lia |].
      apply existsb_exists in Es. destruct Es as (x & Hx & Hxs).
      apply String.eqb_eq in Hxs. subst x. exact Hx.
    + destruct H as (st' & en' & s' & H1 & H2 & H3 & Hlt & Hin).
      injection H3 as <-.
      assert (Ht : existsb (String.eqb s) valid_statuses = true)
        by (apply existsb_exists; exists s; split;
            [exact Hin | apply String.eqb_refl]).
      congruence.
  - unfold validate_log_entry. cbn [fst snd]. apply no_errors.
Qed.

(** ** Sequences of workflow calls *)

Lemma resolve_violation_keeps (self : ViolationResolutionWorkflow) (clock : datetime)
    (v : Violation) (notes who action : string) :
  let v' := snd (resolve_violation self clock v notes who action) in
  (status v' = status v \/ status v' = RESOLVED)
  /\ violation_type v' = violation_type v /\ severity v' = severity v
  /\ occurred_at v' = occurred_at v /\ escalation_level v' = escalation_level v.
Proof.
  unfold resolve_violation.
  destruct (negb (allowed self (status v) action)); cbn; auto 10.
Qed.

(** Whatever calls of [resolve_violation] are made, with whatever actions,
    a violation is afterwards in the status it had or resolved; a resolved
    violation stays resolved (the action reopen resolves it again); and
    the kind, the severity, the time and the escalation level never
    change. *)
Theorem resolutions_keep_or_resolve (self : ViolationResolutionWorkflow)
    (v : Violation) (calls : list resolution_call) :
  let v' := apply_resolutions self v calls in
  (status v' = status v \/ status v' = RESOLVED)
  /\ (status v = RESOLVED -> status v' = RESOLVED)
  /\ violation_type v' = violation_type v /\ severity v' = severity v
  /\ occurred_at v' = occurred_at v /\ escalation_level v' = escalation_level v.
Proof.
  unfold apply_resolutions. revert v.
  induction calls as [| [[[clock notes] who] action] calls IH]; intros v.
  - cbn. auto 10.
  - cbn [fold_left].
    change (apply_resolution self v (clock, notes, who, action))
      with (snd (resolve_violation self clock v notes who action)).
    destruct (resolve_violation_keeps self clock v notes who action)
      as (Hs & Ht & Hsev & Ho & He).
    destruct (IH (snd (resolve_violation self clock v notes who action)))
      as (Hs' & Hr' & Ht' & Hsev' & Ho' & He').
    set (v1 := snd (resolve_violation self clock v notes who action)) in *.
    split; [| split].
    + destruct Hs' as [Hs' | Hs']; [| right; exact Hs'].
      destruct Hs as [Hs | Hs]; [left | right]; congruence.
    + intros Hr. apply Hr'. destruct Hs as [Hs | Hs]; congruence.
    + repeat split; congruence.
Qed.

(** With the default action, resolve, the call is refused in every status:
    no status of the default workflow lists that action. *)
Theorem default_action_refused (clock : datetime) (v : Violation)
    (notes who : string) :
  resolve_violation new_ViolationResolutionWorkflow clock v notes who "resolve"
  = (false, v).
Proof.
  unfold resolve_violation, allowed. destruct (status v); reflexivity.
Qed.

Lemma prefix_refl (a : string) : String.prefix a a = true.
Proof.
  induction a as [| x a IH]; simpl; [reflexivity |].
  destruct (ascii_dec x x) as [_ | N]; [exact IH | contradiction N; reflexivity].
Qed.

Lemma prefix_app_l (a b n : string) :
  String.prefix (a ++ b)%string n = true -> String.prefix a n = true.
Proof.
  revert n. induction a as [| x a IH]; intros n H.
  - destruct n; reflexivity.
  - destruct n as [| y n]; simpl in *; [discriminate H |].
    destruct (ascii_dec x y); [apply IH; exact H | discriminate H].
Qed.

(** Every call of [escalate_violation] raises the escalation level by one
    and appends to the notes: after [n] calls the level is [n] higher, the
    old notes are a prefix of the new ones, and after at least one call
    the status is escalated, also for a violation that was resolved, whose
    resolver and resolution time stay in place. *)
Theorem escalations_accumulate (self : ViolationResolutionWorkflow)
    (v : Violation) (reasons : list string) :
  let v' := apply_escalations self v reasons in
  escalation_level v' = escalation_level v + Z.of_nat (List.length reasons)
  /\ String.prefix (resolution_notes v) (resolution_notes v') = true
  /\ (reasons <> [] -> status v' = ESCALATED)
  /\ resolved_by v' = resolved_by v /\ resolved_at v' = resolved_at v.
Proof.
  unfold apply_escalations. revert v.
  induction reasons as [| r reasons IH]; intros v.
  - cbn. rewrite Z.add_0_r, prefix_refl. repeat split; auto.
    intros N. contradiction N. reflexivity.
  - cbn [fold_left List.length].
    destruct (IH (snd (escalate_violation self v r))) as (Hl & Hp & Hs & Hb & Ha).
    split; [| split; [| split]].
    + rewrite Hl. cbn [escalate_violation snd escalation_level]. lia.
    + cbn [escalate_violation snd resolution_notes] in Hp.
      apply prefix_app_l in Hp. exact Hp.
    + intros _. destruct reasons as [| r' reasons'].
      * reflexivity.
      * apply Hs. discriminate.
    + split; [rewrite Hb | rewrite Ha]; reflexivity.
Qed.

(** ** The rule registry *)

Lemma dict_get_set_same {A : Type} (k : string) (v : A) (d : list (string * A)) :
  dict_get k (dict_set k v d) = Some v.
Proof.
  induction d as [| [k' v'] d IH]; simpl.
  - rewrite String.eqb_refl. reflexivity.
  - destruct (String.eqb k k') eqn:E; simpl.
    + rewrite String.eqb_refl. reflexivity.
    + rewrite E. exact IH.
Qed.

Lemma dict_get_set_other {A : Type} (k k2 : string) (v : A) (d : list (string * A)) :
  k2 <> k -> dict_get k2 (dict_set k v d) = dict_get k2 d.
Proof.
  intros Hne. apply String.eqb_neq in Hne.
  induction d as [| [k' v'] d IH]; simpl.
  - rewrite Hne. reflexivity.
  - destruct (String.eqb k k') eqn:E; simpl.
    + apply String.eqb_eq in E. subst k'. rewrite Hne. reflexivity.
    + destruct (String.eqb k2 k'); [reflexivity | exact IH].
Qed.

Lemma dict_keys_set {A : Type} (k : string) (v : A) (d : list (string * A)) :
  dict_keys (dict_set k v d)
  = match dict_get k d with
    | Some _ => dict_keys d
    | None => dict_keys d ++ [k]
    end.
Proof.
  unfold dict_keys. induction d as [| [k' v'] d IH]; simpl; [reflexivity |].
  destruct (String.eqb k k') eqn:E; simpl.
  - apply String.eqb_eq in E. subst k'. reflexivity.
  - rewrite IH. destruct (dict_get k d); reflexivity.
Qed.

(** A rule that was added is the one [get_rule] returns for its id, the
    other rules are untouched, and the evaluation order of the registry
    is kept: a known id keeps its place, so a custom rule may replace a
    default one, and a new id goes last. *)
Theorem add_custom_rule_lookup (self : HOSRuleEngine) (rule_id : string)
    (rule_config : RuleConfig) :
  let after := snd (add_custom_rule self rule_id rule_config) in
  fst (add_custom_rule self rule_id rule_config) = true
  /\ get_rule after rule_id = Some rule_config
  /\ (forall other, other <> rule_id -> get_rule after other = get_rule self other)
  /\ dict_keys (get_all_rules after)
     = match get_rule self rule_id with
       | Some _ => dict_keys (get_all_rules self)
       | None => dict_keys (get_all_rules self) ++ [rule_id]
       end.
Proof.
  unfold add_custom_rule, get_rule, get_all_rules. cbn [fst snd rules].
  split; [reflexivity |].
  split; [apply dict_get_set_same |].
  split; [intros other Hne; apply dict_get_set_other; exact Hne |].
  apply dict_keys_set.
Qed.

Lemma dict_get_In {A : Type} (k : string) (v : A) (d : list (string * A)) :
  dict_get k d = Some v -> In v (map snd d).
Proof.
  induction d as [| [k' v'] d IH]; simpl; [discriminate |].
  destruct (String.eqb k k').
  - intros H. injection H as ->. left; reflexivity.
  - intros H. right. exact (IH H).
Qed.

(** As long as no dictionary is registered twice, updating in place and
    updating by value give the same registry. *)
Lemma shared_update_by_value (self : Shared.HOSRuleEngine) (rule_id : string)
    (updates : RuleUpdates) :
  NoDup (map snd (Shared.rules self)) ->
  fst (Shared.update_rule self rule_id updates)
  = fst (update_rule (mkHOSRuleEngine (Shared.contents self)) rule_id updates)
  /\ Shared.contents (snd (Shared.update_rule self rule_id updates))
     = rules (snd (update_rule (mkHOSRuleEngine (Shared.contents self))
                     rule_id updates)).
Proof.
  destruct self as [objs l]. unfold Shared.update_rule, update_rule, Shared.contents.
  cbn [Shared.rules Shared.objects rules].
  intros Hnd.
  assert (Hget : dict_get rule_id (map (fun rule => (fst rule, objs (snd rule))) l)
                 = option_map objs (dict_get rule_id l)).
  { clear Hnd. induction l as [| [k x] l IH]; simpl; [reflexivity |].
    destruct (String.eqb rule_id k); [reflexivity | exact IH]. }
  rewrite Hget.
  destruct (dict_get rule_id l) as [a |] eqn:E; cbn [option_map fst snd rules
    Shared.rules Shared.objects]; [| split; reflexivity].
  split; [reflexivity |].
  clear Hget. induction l as [| [k x] l IH]; [discriminate E |].
  simpl in E, Hnd. inversion Hnd as [| ? ? Hx Hnd']; subst.
  simpl. destruct (String.eqb rule_id k) eqn:Ek.
  - injection E as ->. apply String.eqb_eq in Ek. subst k.
    rewrite Nat.eqb_refl. f_equal.
    apply map_ext_in. intros [k' x'] Hin. simpl.
    destruct (Nat.eqb x' a) eqn:Ex; [| reflexivity].
    apply Nat.eqb_eq in Ex. subst x'. exfalso. apply Hx.
    apply in_map_iff. exists (k', a). split; [reflexivity | exact Hin].
  - assert (Hne : Nat.eqb x a = false).
    { apply Nat.eqb_neq. intros ->. apply Hx. exact (dict_get_In _ _ _ E). }
    rewrite Hne. f_equal. exact (IH Hnd' E).
Qed.

(** [update_rule] succeeds exactly for a known id, and leaves the ids and
    the dictionaries they hold in place.  The dictionary under the id is
    changed where it is: every given key has its new value and every other
    key is as it was, and the same new rule is found under every id that
    holds that dictionary; the rules under the other ids are as before.
    For an unknown id no rule changes. *)
Theorem update_rule_lookup (self : Shared.HOSRuleEngine) (rule_id : string)
    (updates : RuleUpdates) :
  let after := snd (Shared.update_rule self rule_id updates) in
  (fst (Shared.update_rule self rule_id updates) = true
   <-> Shared.get_rule self rule_id <> None)
  /\ Shared.rules after = Shared.rules self
  /\ (forall address old,
        dict_get rule_id (Shared.rules self) = Some address ->
        Shared.objects self address = old ->
        exists new,
          Shared.get_rule after rule_id = Some new
          /\ rule_name new
             = match upd_name updates with Some x => x | None => rule_name old end
          /\ rule_severity new
             = match upd_severity updates with
               | Some x => x
               | None => rule_severity old
               end
          /\ rule_enabled new
             = match upd_enabled updates with
               | Some x => x
               | None => rule_enabled old
               end
          /\ rule_parameters new
             = match upd_parameters updates with
               | Some x => x
               | None => rule_parameters old
               end
          /\ (forall other,
                dict_get other (Shared.rules self) = Some address ->
                Shared.get_rule after other = Some new)
          /\ (forall other a,
                dict_get other (Shared.rules self) = Some a ->
                a <> address ->
                Shared.get_rule after other = Shared.get_rule self other))
  /\ (Shared.get_rule self rule_id = None ->
      forall other, Shared.get_rule after other = Shared.get_rule self other).
Proof.
  unfold Shared.update_rule, Shared.get_rule.
  destruct (dict_get rule_id (Shared.rules self)) as [address |] eqn:E;
    cbn [fst snd Shared.rules Shared.objects option_map].
  - split; [split; [discriminate | reflexivity] |].
    split; [reflexivity |].
    split; [| discriminate].
    intros address' old Ha <-. injection Ha as <-.
    eexists. rewrite E. cbn [option_map]. rewrite Nat.eqb_refl.
    split; [reflexivity |].
    repeat (split; [reflexivity |]).
    split.
    + intros other Ho. rewrite Ho. cbn [option_map]. rewrite Nat.eqb_refl.
      reflexivity.
    + intros other a Ho Hne. rewrite Ho. cbn [option_map].
      apply Nat.eqb_neq in Hne. rewrite Hne. reflexivity.
  - split; [split; [discriminate | intros N; contradiction N; reflexivity] |].
    split; [reflexivity |].
    split; [intros address old Ha; discriminate Ha |].
    intros _ other. reflexivity.
Qed.

(** One dictionary registered under two ids and switched off through the
    first: it is off under the second as well. *)
Lemma update_rule_lookup_twice_registered :
  dict_get "night_driving" (Shared.rules twice_registered) = Some 0%nat
  /\ dict_get "night_rule" (Shared.rules twice_registered) = Some 0%nat
  /\ option_map rule_enabled (Shared.get_rule twice_registered "night_rule")
     = Some true
  /\ option_map rule_enabled
       (Shared.get_rule
          (snd (Shared.update_rule twice_registered "night_driving" switch_off))
          "night_rule")
     = Some false.
Proof.
  split; [reflexivity |]. split; [reflexivity |]. split; [reflexivity |].
  destruct (update_rule_lookup twice_registered "night_driving" switch_off)
    as (_ & _ & H & _).
  destruct (H 0%nat _ eq_refl eq_refl) as (new & _ & _ & _ & He & _ & Hs & _).
  rewrite (Hs "night_rule"%string eq_refl). cbn [option_map].
  rewrite He. reflexivity.
Defined.

Lemma rules_loop_disabled (clock : datetime) (all_rules : list (string * RuleConfig))
    (cycle_entries : list LogEntry) (now : datetime)
    (periods : list SleeperBerthPeriod) :
  Forall (fun rule => rule_enabled (snd rule) = false) all_rules ->
  rules_loop clock all_rules cycle_entries now periods = Ok [].
Proof.
  induction 1 as [| [rule_id cfg] l Hd _ IH]; [reflexivity |].
  cbn [rules_loop]. cbn [snd] in Hd. rewrite Hd, IH. reflexivity.
Qed.

(** An engine whose rules are all switched off reports no violation,
    whatever the log: the intervals are not even read, so a log on which
    the default rules raise is passed without a finding. *)
Theorem disabled_rules_report_nothing (self : AdvancedHOSComplianceEngine)
    (clock : datetime) (cycle_entries : list LogEntry) (now : datetime)
    (periods : list SleeperBerthPeriod) :
  Forall (fun rule => rule_enabled (snd rule) = false)
    (get_all_rules (rule_engine self)) ->
  _check_advanced_violations self clock cycle_entries now periods = Ok [].
Proof. apply rules_loop_disabled. Qed.

Lemma disabled_rules_report_nothing_12h :
  Forall (fun rule => rule_enabled (snd rule) = false)
    (get_all_rules (rule_engine silenced_engine))
  /\ _check_advanced_violations silenced_engine 0 (driving_12h sample_now) sample_now []
     = Ok []
  /\ _check_advanced_violations (create_compliance_engine SEVENTY_EIGHT) 0
       (driving_12h sample_now) sample_now [] = Raise TypeError.
Proof.
  assert (H : Forall (fun rule => rule_enabled (snd rule) = false)
                (get_all_rules (rule_engine silenced_engine)))
    by (vm_compute; repeat constructor).
  split; [exact H |].
  split; [| vm_compute; reflexivity].
  exact (disabled_rules_report_nothing silenced_engine 0 (driving_12h sample_now) sample_now []
           H).
Defined.

(** ** Team driving *)

(** A handoff succeeds exactly for a known team.  It makes the second
    driver the current one when the first was, and the first otherwise,
    never the relief driver; it records the clock reading, the location
    and the notes, keeps the two drivers, and leaves the other teams as
    they are; for an unknown team nothing changes. *)
Theorem handoff_driving_switches (self : TeamDrivingCoordinator) (clock : datetime)
    (team_id_ handoff_location_ notes : string) :
  let after := snd (handoff_driving self clock team_id_ handoff_location_ notes) in
  (fst (handoff_driving self clock team_id_ handoff_location_ notes) = true
   <-> get_team_status self team_id_ <> None)
  /\ (forall info, get_team_status self team_id_ = Some info ->
        exists info',
          get_team_status after team_id_ = Some info'
          /\ current_driver info'
             = (if role_eqb (current_driver info) DRIVER_1 then DRIVER_2 else DRIVER_1)
          /\ current_driver info' <> RELIEF_DRIVER
          /\ handoff_time info' = Some clock
          /\ handoff_location info' = handoff_location_
          /\ coordination_notes info' = notes
          /\ driver_1_id info' = driver_1_id info
          /\ driver_2_id info' = driver_2_id info)
  /\ (forall other, other <> team_id_ ->
        get_team_status after other = get_team_status self other)
  /\ (get_team_status self team_id_ = None -> after = self).
Proof.
  unfold handoff_driving, get_team_status.
  destruct (dict_get team_id_ (active_teams self)) as [info |] eqn:E;
    cbn [fst snd active_teams].
  - split; [split; [discriminate | reflexivity] |].
    split.
    + intros info0 H0. injection H0 as <-. eexists.
      split; [apply dict_get_set_same |]. cbn.
      repeat split; try reflexivity.
      destruct (role_eqb (current_driver info) DRIVER_1); discriminate.
    + split; [intros other Hne; apply dict_get_set_other; exact Hne | discriminate].
  - split; [split; [discriminate | intros N; contradiction N; reflexivity] |].
    split; [intros info H; discriminate H |].
    split; reflexivity.
Qed.

Lemma can_drive_not_current (cycle_entries : list LogEntry) (now : datetime)
    (vs : list Violation) (team : option TeamDrivingInfo) (b : bool) :
  not_current_driver team = true ->
  _can_drive_advanced cycle_entries now vs team = Ok b -> b = false.
Proof.
  intros Hn. unfold _can_drive_advanced. rewrite Hn.
  destruct (filter is_critical vs); intros H; injection H as <-; reflexivity.
Qed.

(** The engine is given the state of a team, not the driver the log
    belongs to.  With the state that the coordinator holds after a team
    was created and the driving handed over once, no returned status
    allows driving, whatever the log; with the state of a fresh team the
    team does not enter the decision. *)
Theorem handed_over_team_cannot_drive (coordinator : TeamDrivingCoordinator)
    (team_id_ driver_1 driver_2 location notes : string) (handoff_clock : datetime)
    (self : AdvancedHOSComplianceEngine) (clock : datetime)
    (entries : list LogEntry) (current_time : option datetime) (st : HOSStatus) :
  let created := snd (create_team coordinator team_id_ driver_1 driver_2) in
  let handed := snd (handoff_driving created handoff_clock team_id_ location notes) in
  not_current_driver (get_team_status created team_id_) = false
  /\ (calculate_advanced_hos_status self clock entries current_time
        (get_team_status handed team_id_) = Ok st ->
      can_drive st = false).
Proof.
  intros created handed.
  assert (Hc : get_team_status created team_id_
               = Some (mkTeamDrivingInfo team_id_ driver_1 driver_2 DRIVER_1 None
                         "" ""))
    by (apply dict_get_set_same).
  split; [rewrite Hc; reflexivity |].
  intros H.
  assert (Hh : not_current_driver (get_team_status handed team_id_) = true).
  { unfold handed, handoff_driving. fold (get_team_status created team_id_).
    rewrite Hc. cbn [snd]. unfold get_team_status at 1. cbn [active_teams].
    rewrite dict_get_set_same. reflexivity. }
  destruct (evaluation_flags _ _ _ _ _ _ H) as (H1 & _).
  exact (can_drive_not_current _ _ _ _ _ Hh H1).
Qed.

Lemma handed_over_status :
  calculate_advanced_hos_status (create_compliance_engine SEVENTY_EIGHT) 0
    [off_duty_36h; drive_after_rest] (Some sample_now)
    (get_team_status (snd (handoff_driving sample_team 5 "T1" "Reno" "")) "T1")
  = Ok (mkHOSStatus false true false (cents 200) (cents 6800) (mkDec 20 (-1))
          (Some (sample_now - timedelta_hours 2)) [] SEVENTY_EIGHT
          (sample_now - timedelta_hours 2) []
          (Some (mkTeamDrivingInfo "T1" "alice" "bob" DRIVER_2 (Some 5) "Reno" ""))
          (mkComplianceAnalytics 0 (cents 10000))).
Proof. vm_compute. reflexivity. Qed.

Lemma handed_over_team_cannot_drive_after_rest :
  exists st,
    calculate_advanced_hos_status (create_compliance_engine SEVENTY_EIGHT) 0
      [off_duty_36h; drive_after_rest] (Some sample_now)
      (get_team_status (snd (handoff_driving sample_team 5 "T1" "Reno" "")) "T1")
    = Ok st
    /\ can_drive st = false.
Proof.
  eexists. split; [exact handed_over_status |].
  exact (proj2 (handed_over_team_cannot_drive new_TeamDrivingCoordinator "T1"
                  "alice" "bob" "Reno" "" 5
                  (create_compliance_engine SEVENTY_EIGHT) 0
                  [off_duty_36h; drive_after_rest] (Some sample_now) _)
           handed_over_status).
Defined.

(** ** Custom rules *)

Ltac not_this_id Hn :=
  match goal with
  | |- context [String.eqb ?r ?lit] =>
      let E := fresh "E" in
      destruct (String.eqb r lit) eqn:E;
      [apply String.eqb_eq in E; subst r; contradiction Hn; cbn; tauto |]
  end.

Lemma unknown_rule_id (clock : datetime) (rule_id : string) (cfg : RuleConfig)
    (cycle_entries : list LogEntry) (now : datetime)
    (periods : list SleeperBerthPeriod) :
  ~ In rule_id (dict_keys _load_default_rules) ->
  _check_rule_violation clock rule_id cfg cycle_entries now periods = Ok [].
Proof.
  intros Hn. unfold _check_rule_violation.
  repeat not_this_id Hn.
  reflexivity.
Qed.

Lemma rules_loop_set_unknown (clock : datetime) (rule_id : string) (cfg : RuleConfig)
    (all_rules : list (string * RuleConfig)) (cycle_entries : list LogEntry)
    (now : datetime) (periods : list SleeperBerthPeriod) :
  ~ In rule_id (dict_keys _load_default_rules) ->
  rules_loop clock (dict_set rule_id cfg all_rules) cycle_entries now periods
  = rules_loop clock all_rules cycle_entries now periods.
Proof.
  intros Hn. induction all_rules as [| [k v] l IH].
  - cbn [dict_set rules_loop]. rewrite unknown_rule_id by exact Hn.
    destruct (rule_enabled cfg); reflexivity.
  - cbn [dict_set]. destruct (String.eqb rule_id k) eqn:E.
    + apply String.eqb_eq in E. subst k. cbn [rules_loop].
      rewrite !unknown_rule_id by exact Hn.
      destruct (rule_enabled cfg), (rule_enabled v); reflexivity.
    + cbn [rules_loop]. rewrite IH. reflexivity.
Qed.

(** A rule added under an id of its own is stored and returned by
    [get_rule], but it is never evaluated: the engine reports, or raises,
    exactly what it did without the rule. *)
Theorem custom_rule_never_evaluated (self : AdvancedHOSComplianceEngine)
    (rule_id : string) (rule_config : RuleConfig) (clock : datetime)
    (cycle_entries : list LogEntry) (now : datetime)
    (periods : list SleeperBerthPeriod) :
  ~ In rule_id (dict_keys _load_default_rules) ->
  let registry := snd (add_custom_rule (rule_engine self) rule_id rule_config) in
  let extended := mkEngine (engine_cycle_type self) (limits self) registry in
  get_rule registry rule_id = Some rule_config
  /\ _check_advanced_violations extended clock cycle_entries now periods
     = _check_advanced_violations self clock cycle_entries now periods.
Proof.
  intros Hn registry extended. split.
  - apply dict_get_set_same.
  - unfold _check_advanced_violations, extended, registry, add_custom_rule,
      get_all_rules. cbn [snd rule_engine rules].
    apply rules_loop_set_unknown. exact Hn.
Qed.

Lemma custom_rule_never_evaluated_night :
  ~ In "night_driving"%string (dict_keys _load_default_rules)
  /\ get_rule
       (snd (add_custom_rule new_HOSRuleEngine "night_driving" custom_rule))
       "night_driving" = Some custom_rule
  /\ _check_advanced_violations
       (mkEngine SEVENTY_EIGHT (HOS_LIMITS SEVENTY_EIGHT)
          (snd (add_custom_rule new_HOSRuleEngine "night_driving" custom_rule)))
       0 [morning_drive; lunch_break] sample_now []
     = _check_advanced_violations (create_compliance_engine SEVENTY_EIGHT) 0
         [morning_drive; lunch_break] sample_now [].
Proof.
  assert (Hn : ~ In "night_driving"%string (dict_keys _load_default_rules))
    by (cbn; intros [H | [H | [H | [H | [H | [H | []]]]]]]; discriminate H).
  split; [exact Hn |].
  exact (custom_rule_never_evaluated (create_compliance_engine SEVENTY_EIGHT)
           "night_driving" custom_rule 0 [morning_drive; lunch_break] sample_now []
           Hn).
Defined.

(** ** A log that is evaluated *)


(** ** C9: the driving decision *)









